(** * Azure GenAI Eco-Monitor: the usage-to-impact aggregation

    A shallow embedding of the processing block of
    [Consolidated/consolidated1.py] (lines 563-680) together with the
    model-type rule of [discover_resources_and_deployments]
    (lines 311-328), and the properties of the energy, carbon, currency
    and per-project aggregation formulas.

    Conventions of the embedding.
    - A pandas frame is the list of its rows, a row is a record of its
      columns; a Python [dict] is a [gmap].
    - Numbers are exact rationals ([Q]): the binary64 rounding of the
      Python floats is not modelled, sums and products are the exact ones.
      Statements about computed numbers use [==] on [Q].
    - Strings are byte strings; [str.lower] acts on the ASCII letters.
    - A raised [KeyError] is [None] in the [option] monad. *)

From Stdlib Require Import QArith Qabs Qround Ascii DecimalString.
From stdpp Require Import gmap strings list sorting.

Local Open Scope Q_scope.

(** ** Constants (lines 38-66) *)

(** Grid intensity, gCO2 per kWh. *)
Definition REGION_INTENSITY : gmap string Q :=
  <["Global Average" := 475]> (
  <["US East (Virginia)" := 350]> (
  <["US West (California)" := 200]> (
  <["Europe (Ireland)" := 280]> (
  <["Europe (Sweden)" := 20]> (
  <["Asia (average)" := 550]> ∅))))).

(** Energy factors, kWh per unit. *)
Definition CARBON_FACTORS : gmap string Q :=
  <["standard_text" := 0.0004]> (
  <["reasoning_text" := 0.0015]> (
  <["image_gen" := 0.05]> (
  <["embedding" := 0.0001]> ∅))).

Definition GRAMS_CO2_PER_TREE_DAY : Q := 57.5.

Definition EXCHANGE_RATES_TO_SEK : gmap string Q :=
  <["USD" := 10.8]> (
  <["EUR" := 11.5]> (
  <["GBP" := 13.5]> (
  <["SEK" := 1.0]> ∅))).

(** ** Python string operations *)

(** [str.lower] on one byte: the letters A-Z move to a-z. *)
Definition lower_ascii (c : ascii) : ascii :=
  let n := nat_of_ascii c in
  if (65 <=? n)%nat && (n <=? 90)%nat then ascii_of_nat (n + 32) else c.

Fixpoint lower (s : string) : string :=
  match s with
  | EmptyString => EmptyString
  | String c s' => String (lower_ascii c) (lower s')
  end.

(** [sub in s]: [sub] occurs at some position of [s]. *)
Fixpoint contains (sub s : string) : bool :=
  String.prefix sub s ||
  match s with
  | EmptyString => false
  | String _ s' => contains sub s'
  end.

(** [s.split(sep)] for a one-character separator: never the empty list. *)
Fixpoint split (sep : ascii) (s : string) : list string :=
  match s with
  | EmptyString => [EmptyString]
  | String c s' =>
      if Ascii.eqb c sep then EmptyString :: split sep s'
      else match split sep s' with
           | w :: ws => String c w :: ws
           | [] => [String c EmptyString]
           end
  end.

(** ** Inventory (lines 283-336) *)

(** The rule that sets [m_type] from [d['model_name']], lines 313-321. *)
Definition m_type (model_name : string) : string :=
  let m_name := lower model_name in
  if contains "dall" m_name then "image"
  else if contains "o1" m_name || contains "reasoning" m_name then "reasoning"
  else if contains "embedding" m_name then "embedding"
  else "text".

(** An inventory entry.  Both places that build one (lines 294-328 and
    549-551) set every key, so [item.get('project', item['group'])] reads
    the key [project]. *)
Record InvItem := {
  inv_id : string;
  inv_name : string;
  inv_group : string;
  inv_project : string;
  inv_deployment_name : string;
  inv_model_name : string;
  inv_type : string
}.

(** ** Frames *)

(** A row of [df_raw] as [fetch_detailed_metrics] builds it
    (lines 388-398); the column [Type] is [Type_] here. *)
Record UsageRow := {
  TimeStamp : Z;
  Account : string;
  ResourceId : string;
  Project : string;
  Deployment : string;
  Model : string;
  Type_ : string;
  Metric : string;
  Value : Q
}.

(** A row of [df_cost] as [fetch_actual_costs] builds it (lines 217-222).
    No producer of [df_cost] adds a column [Project]. *)
Record CostRow := {
  Date : Z;
  Cost_ResourceId : string;
  ActualCost : Q;
  OriginalCurrency : string
}.

(** [df_raw] once the columns [kWh] and [Carbon_g] are added. *)
Record EnrichedRow := {
  usage : UsageRow;
  kWh : Q;
  Carbon_g : Q
}.

(** [df_cost] once the columns [CostSEK] and [ProjectName] are added. *)
Record CostedRow := {
  cost : CostRow;
  CostSEK : Q;
  ProjectName : string
}.

(** [Series.sum()]. *)
Definition sumQ (l : list Q) : Q := foldr Qplus 0 l.

(** ** Energy and carbon (lines 565-580) *)

Definition calc_kwh (row : UsageRow) : option Q :=
  let factor := default 0.0004 (CARBON_FACTORS !! "standard_text") in
  if decide (Type_ row = "image") then
    image_gen ← CARBON_FACTORS !! "image_gen";
    Some (Value row * image_gen)
  else
    factor ← (if decide (Type_ row = "reasoning") then
                CARBON_FACTORS !! "reasoning_text"
              else if decide (Type_ row = "embedding") then
                CARBON_FACTORS !! "embedding"
              else Some factor);
    Some ((Value row / 1000) * factor).

(** Lines 575-576: the column [kWh], then [Carbon_g = kWh * grid_intensity]. *)
Definition enrich (grid_intensity : Q) (row : UsageRow) : option EnrichedRow :=
  k ← calc_kwh row;
  Some {| usage := row; kWh := k; Carbon_g := k * grid_intensity |}.

(** ** Cost in SEK and project label (lines 583-610) *)

Definition convert_to_sek (usd_rate : Q) (row : CostRow) : Q :=
  let curr := OriginalCurrency row in
  let val := ActualCost row in
  if decide (curr = "SEK") then val
  else if decide (curr = "USD") then val * usd_rate
  else if decide (curr = "EUR") then
    val * default 11.5 (EXCHANGE_RATES_TO_SEK !! "EUR")
  else val * default 1.0 (EXCHANGE_RATES_TO_SEK !! curr).

(** The dict comprehension of line 601: a later entry with the same id
    replaces an earlier one. *)
Definition id_to_proj (final_inventory : list InvItem) : gmap string string :=
  foldl (λ m item, <[inv_id item := inv_project item]> m) ∅ final_inventory.

(** Line 610: [x.split('/')[4]] when the split has more than four parts. *)
Definition resource_group_segment (x : string) : string :=
  let parts := split "/" x in
  if decide (4 < length parts)%nat then default "Unknown" (parts !! 4%nat)
  else "Unknown".

(** Lines 600-610.  With an inventory the label is the lookup,
    [fillna('Unknown')] on a miss; without one, [df_cost] has no column
    [Project] and the label is parsed from the resource path. *)
Definition project_name (final_inventory : list InvItem) (x : string) : string :=
  match final_inventory with
  | _ :: _ => default "Unknown" (id_to_proj final_inventory !! x)
  | [] => resource_group_segment x
  end.

Definition add_cost_columns (final_inventory : list InvItem) (usd_rate : Q)
    (row : CostRow) : CostedRow :=
  {| cost := row;
     CostSEK := convert_to_sek usd_rate row;
     ProjectName := project_name final_inventory (Cost_ResourceId row) |}.

(** ** Group-by (pandas [groupby(key)], keys sorted, one group per key) *)

Section groupby.
Context {A : Type} (key : A → string).

Definition group_keys (df : list A) : list string :=
  merge_sort String.le (remove_dups (key <$> df)).

Definition get_group (k : string) (df : list A) : list A :=
  filter (λ r, key r = k) df.

Definition groupby (df : list A) : list (string * list A) :=
  (λ k, (k, get_group k df)) <$> group_keys df.

End groupby.

(** ** Emissions by model (line 626) *)

Record ModelRow := {
  m_Model : string;
  m_Carbon_g : Q;
  m_Value : Q
}.

Definition df_model_of (df_raw : list EnrichedRow) : list ModelRow :=
  (λ kg, {| m_Model := kg.1;
            m_Carbon_g := sumQ (Carbon_g <$> kg.2);
            m_Value := sumQ ((Value ∘ usage) <$> kg.2) |})
  <$> groupby (Model ∘ usage) df_raw.

(** ** Project summary (lines 660-680) *)

Record UsageAggRow := {
  u_Project : string;
  Carbon_Total : Q;
  Input_Tokens : Q;
  Output_Tokens : Q
}.

Record CostAggRow := {
  c_ProjectName : string;
  c_Cost_SEK : Q
}.

(** The two row filters of lines 662-663. *)
Definition is_input_metric (r : EnrichedRow) : Prop :=
  Metric (usage r) = "ProcessedPromptTokens".

Definition is_output_metric (r : EnrichedRow) : Prop :=
  Metric (usage r) ∈ ["GeneratedTokens"; "GeneratedCompletionTokens"].

Definition df_usage_agg_of (df_raw : list EnrichedRow) : list UsageAggRow :=
  (λ kg, {| u_Project := kg.1;
            Carbon_Total := sumQ (Carbon_g <$> kg.2);
            Input_Tokens :=
              sumQ ((Value ∘ usage) <$> filter is_input_metric kg.2);
            Output_Tokens :=
              sumQ ((Value ∘ usage) <$> filter is_output_metric kg.2) |})
  <$> groupby (Project ∘ usage) df_raw.

(** Lines 667-671: an empty frame when [df_cost] is empty. *)
Definition df_cost_agg_of (df_cost : list CostedRow) : list CostAggRow :=
  match df_cost with
  | [] => []
  | _ :: _ =>
      (λ kg, {| c_ProjectName := kg.1; c_Cost_SEK := sumQ (CostSEK <$> kg.2) |})
      <$> groupby ProjectName df_cost
  end.

(** A row of the outer merge of line 675: the key is on both sides, or on
    one side only, and then the columns of the other side are NaN. *)
Inductive MergedRow :=
  | both (c : CostAggRow) (u : UsageAggRow)
  | left_only (c : CostAggRow)
  | right_only (u : UsageAggRow).

Definition merge_key (k : string) (L : list CostAggRow) (R : list UsageAggRow)
    : list MergedRow :=
  match filter (λ c, c_ProjectName c = k) L, filter (λ u, u_Project u = k) R with
  | ls, [] => left_only <$> ls
  | [], rs => right_only <$> rs
  | ls, rs => c ← ls; u ← rs; [both c u]
  end.

(** [pd.merge(L, R, left_on='ProjectName', right_on='Project', how='outer')]:
    the union of the keys, sorted. *)
Definition merge_outer (L : list CostAggRow) (R : list UsageAggRow)
    : list MergedRow :=
  k ← merge_sort String.le
        (remove_dups ((c_ProjectName <$> L) ++ (u_Project <$> R)));
  merge_key k L R.

(** The columns of a merged row, [None] for NaN. *)
Definition col_ProjectName (m : MergedRow) : option string :=
  match m with
  | both c _ | left_only c => Some (c_ProjectName c)
  | right_only _ => None
  end.

Definition col_Project (m : MergedRow) : option string :=
  match m with
  | both _ u | right_only u => Some (u_Project u)
  | left_only _ => None
  end.

Definition col_Cost_SEK (m : MergedRow) : option Q :=
  match m with
  | both c _ | left_only c => Some (c_Cost_SEK c)
  | right_only _ => None
  end.

Definition col_usage (f : UsageAggRow → Q) (m : MergedRow) : option Q :=
  match m with
  | both _ u | right_only u => Some (f u)
  | left_only _ => None
  end.

Record SummaryRow := {
  s_ProjectName : string;
  Cost_SEK : Q;
  s_Carbon_Total : Q;
  s_Input_Tokens : Q;
  s_Output_Tokens : Q
}.

(** Lines 676-677: [ProjectName.fillna(Project)], drop [Project],
    [fillna(0)].  A merged row has a key on one side at least, so the
    label is never NaN after the first step. *)
Definition fill_summary (m : MergedRow) : SummaryRow :=
  {| s_ProjectName :=
       match col_ProjectName m, col_Project m with
       | Some p, _ => p
       | None, Some p => p
       | None, None => "0"
       end;
     Cost_SEK := default 0 (col_Cost_SEK m);
     s_Carbon_Total := default 0 (col_usage Carbon_Total m);
     s_Input_Tokens := default 0 (col_usage Input_Tokens m);
     s_Output_Tokens := default 0 (col_usage Output_Tokens m) |}.

(** Lines 679-680: rename [Project], add the column [Cost_SEK = 0.0]. *)
Definition usage_only_summary (u : UsageAggRow) : SummaryRow :=
  {| s_ProjectName := u_Project u;
     Cost_SEK := 0.0;
     s_Carbon_Total := Carbon_Total u;
     s_Input_Tokens := Input_Tokens u;
     s_Output_Tokens := Output_Tokens u |}.

Definition df_project_summary_of (df_cost_agg : list CostAggRow)
    (df_usage_agg : list UsageAggRow) : list SummaryRow :=
  match df_cost_agg with
  | _ :: _ => fill_summary <$> merge_outer df_cost_agg df_usage_agg
  | [] => usage_only_summary <$> df_usage_agg
  end.

(** ** The processing block (lines 563-680, 733-734) *)

Record Dashboard := {
  df_raw_out : list EnrichedRow;
  total_co2 : Q;
  total_kwh : Q;
  tree_days : Q;
  df_cost_out : list CostedRow;
  total_cost_sek : Q;
  df_model : list ModelRow;
  df_usage_agg : list UsageAggRow;
  df_cost_agg : list CostAggRow;
  df_project_summary : list SummaryRow
}.

(** What a run shows: nothing but the notice "No data returned" when
    [df_raw] is empty, the dashboard otherwise. *)
Inductive Outcome :=
  | NoData
  | Rendered (d : Dashboard).

(** The frames and figures computed from the enriched [df_raw] and from
    [df_cost].  Line 627 and the column configuration of lines 717-728
    only reorder and format rows for display. *)
Definition render (final_inventory : list InvItem) (rows : list EnrichedRow)
    (df_cost : list CostRow) (usd_rate : Q) : Dashboard :=
  let total_co2 := sumQ (Carbon_g <$> rows) in
  let total_kwh := sumQ (kWh <$> rows) in
  let tree_days := total_co2 / GRAMS_CO2_PER_TREE_DAY in
  let costed := add_cost_columns final_inventory usd_rate <$> df_cost in
  let total_cost_sek :=
    match df_cost with
    | [] => 0.0
    | _ :: _ => sumQ (CostSEK <$> costed)
    end in
  let usage_agg := df_usage_agg_of rows in
  let cost_agg := df_cost_agg_of costed in
  {| df_raw_out := rows;
     total_co2 := total_co2;
     total_kwh := total_kwh;
     tree_days := tree_days;
     df_cost_out := costed;
     total_cost_sek := total_cost_sek;
     df_model := df_model_of rows;
     df_usage_agg := usage_agg;
     df_cost_agg := cost_agg;
     df_project_summary := df_project_summary_of cost_agg usage_agg |}.

(** [if not df_raw.empty: ... elif not show_debug: st.info(...)]. *)
Definition process (final_inventory : list InvItem) (df_raw : list UsageRow)
    (df_cost : list CostRow) (grid_intensity usd_rate : Q) : option Outcome :=
  match df_raw with
  | [] => Some NoData
  | _ :: _ =>
      rows ← mapM (enrich grid_intensity) df_raw;
      Some (Rendered (render final_inventory rows df_cost usd_rate))
  end.

(** ** Specification-side predicates *)

(** [sub] occurs in [s]: some text, then [sub], then some text. *)
Definition is_substring (sub s : string) : Prop :=
  ∃ pre post, s = pre +:+ sub +:+ post.

(** The energy of a row, and the row [enrich] makes of it. *)
Definition kwh_of (row : UsageRow) : Q := default 0 (calc_kwh row).

Definition enriched (grid_intensity : Q) (row : UsageRow) : EnrichedRow :=
  {| usage := row; kWh := kwh_of row;
     Carbon_g := kwh_of row * grid_intensity |}.

(** The rows of [df_raw] of a project that count as input tokens, and
    those that count as output tokens. *)
Definition input_rows (p : string) (df_raw : list UsageRow) : list UsageRow :=
  filter (λ r, Project r = p ∧ Metric r = "ProcessedPromptTokens") df_raw.

Definition output_rows (p : string) (df_raw : list UsageRow) : list UsageRow :=
  filter (λ r, Project r = p ∧
               (Metric r = "GeneratedTokens" ∨
                Metric r = "GeneratedCompletionTokens")) df_raw.

(** The row of a model in [df_model] and the row of a project in
    [df_usage_agg], written on the rows of [df_raw]. *)
Definition model_row (g : Q) (df_raw : list UsageRow) (k : string) : ModelRow :=
  {| m_Model := k;
     m_Carbon_g := sumQ ((λ r, kwh_of r * g) <$> get_group Model k df_raw);
     m_Value := sumQ (Value <$> get_group Model k df_raw) |}.

Definition usage_agg_row (g : Q) (df_raw : list UsageRow) (k : string)
    : UsageAggRow :=
  {| u_Project := k;
     Carbon_Total := sumQ ((λ r, kwh_of r * g) <$> get_group Project k df_raw);
     Input_Tokens := sumQ (Value <$> input_rows k df_raw);
     Output_Tokens := sumQ (Value <$> output_rows k df_raw) |}.

(** The row of a label in [df_cost_agg], written on the rows of [df_cost]. *)
Definition cost_agg_row (costed : list CostedRow) (k : string) : CostAggRow :=
  {| c_ProjectName := k;
     c_Cost_SEK := sumQ (CostSEK <$> get_group ProjectName k costed) |}.

(** The keys of the merged frame, and the row of a key in the project
    summary: the figures of the side that has the key, 0 for the other. *)
Definition summary_keys (costed : list CostedRow) (df_raw : list UsageRow)
    : list string :=
  merge_sort String.le
    (remove_dups (group_keys ProjectName costed ++ group_keys Project df_raw)).

Definition summary_row (costed : list CostedRow) (g : Q)
    (df_raw : list UsageRow) (k : string) : SummaryRow :=
  let has_cost := bool_decide (k ∈ ProjectName <$> costed) in
  let has_usage := bool_decide (k ∈ Project <$> df_raw) in
  {| s_ProjectName := k;
     Cost_SEK := if has_cost then c_Cost_SEK (cost_agg_row costed k) else 0;
     s_Carbon_Total :=
       if has_usage then Carbon_Total (usage_agg_row g df_raw k) else 0;
     s_Input_Tokens :=
       if has_usage then Input_Tokens (usage_agg_row g df_raw k) else 0;
     s_Output_Tokens :=
       if has_usage then Output_Tokens (usage_agg_row g df_raw k) else 0 |}.

(** The project label of a cost row, and the rows of [df_cost] with a
    given label. *)
Definition cost_label (inv : list InvItem) (c : CostRow) : string :=
  project_name inv (Cost_ResourceId c).

Definition cost_rows_of (inv : list InvItem) (p : string)
    (df_cost : list CostRow) : list CostRow :=
  filter (λ c, cost_label inv c = p) df_cost.

(** A usage row with the given type, metric and value. *)
Definition usage_row (type metric : string) (value : Q) (model project : string)
    : UsageRow :=
  {| TimeStamp := 0; Account := "acct"; ResourceId := "/r"; Project := project;
     Deployment := "dep-1"; Model := model; Type_ := type; Metric := metric;
     Value := value |}.

(** A cost row with the given amount and currency. *)
Definition cost_row (amount : Q) (currency : string) : CostRow :=
  {| Date := 0; Cost_ResourceId := ""; ActualCost := amount;
     OriginalCurrency := currency |}.

(** An inventory of one account in the resource group rg-a, and a cost row
    of an account in the resource group rg-b that the inventory lacks. *)
Definition inventory_rg_a : list InvItem :=
  [{| inv_id := "/subscriptions/s/resourceGroups/rg-a/providers/Microsoft.CognitiveServices/accounts/acct1";
      inv_name := "acct1"; inv_group := "rg-a"; inv_project := "Alpha";
      inv_deployment_name := "dep-1"; inv_model_name := "gpt-4";
      inv_type := "text" |}].

Definition cost_row_rg_b : CostRow :=
  {| Date := 0;
     Cost_ResourceId := "/subscriptions/s/resourceGroups/rg-b/providers/Microsoft.CognitiveServices/accounts/acct2";
     ActualCost := 100; OriginalCurrency := "SEK" |}.

(** * The rest of the script: discovery, metrics, billing, the modes *)

(** The outcome of a statement inside a [try]: a value, or an exception
    with its message. *)
Inductive Try (A : Type) :=
  | Returned (a : A)
  | Raised (e : string).
Arguments Returned {A} a.
Arguments Raised {A} e.

#[global] Instance Try_ret : MRet Try := λ A a, Returned a.
#[global] Instance Try_bind : MBind Try := λ A B f m,
  match m with
  | Returned a => f a
  | Raised e => Raised e
  end.
#[global] Instance Try_fmap : FMap Try := λ A B f m,
  match m with
  | Returned a => Returned (f a)
  | Raised e => Raised e
  end.

(** [l[i]] for a non-negative index. *)
Definition list_index {A} (l : list A) (i : nat) : Try A :=
  match l !! i with
  | Some x => Returned x
  | None => Raised "list index out of range"
  end.

(** [str(n)] for an integer. *)
Definition str_int (z : Z) : string := NilEmpty.string_of_int (Z.to_int z).

(** ** Features tab (lines 639-640) *)

Definition df_text_of (df_raw : list EnrichedRow) : list EnrichedRow :=
  filter (λ r, Metric (usage r) ∈ ["ProcessedPromptTokens"; "GeneratedTokens"])
    df_raw.

Definition df_img_of (df_raw : list EnrichedRow) : list EnrichedRow :=
  filter (λ r, Metric (usage r) = "GeneratedImages") df_raw.

(** ** Deployments of an account (lines 97-133) *)

(** The JSON of one deployment: [None] is a key that is absent.  The name
    of an ARM resource is always there. *)
Record ModelInfo := {
  mi_name : option string;
  mi_version : option string;
  mi_format : option string
}.

Record DeploymentItem := {
  item_name : string;
  item_properties : option (option ModelInfo)
}.

Record Dept := {
  deployment_name : string;
  model_name : string;
  model_version : string;
  model_format : string
}.

(** What the request of lines 105-112 gives: an exception, or a response
    with its status code and the key [value] of its body. *)
Inductive DeploymentsResponse :=
  | DeploymentsRaised (e : string)
  | DeploymentsStatus (status_code : Z) (value : option (list DeploymentItem)).

Definition parse_deployment (item : DeploymentItem) : Dept :=
  let props := default None (item_properties item) in
  let model_info :=
    default {| mi_name := None; mi_version := None; mi_format := None |} props in
  {| deployment_name := item_name item;
     model_name := default "unknown" (mi_name model_info);
     model_version := default "" (mi_version model_info);
     model_format := default "" (mi_format model_info) |}.

Definition get_deployments (response : DeploymentsResponse) : list Dept :=
  match response with
  | DeploymentsRaised _ => []
  | DeploymentsStatus status_code value =>
      if decide (status_code = 200%Z) then parse_deployment <$> default [] value
      else []
  end.

(** ** Discovery (lines 233-336) *)

(** [res.kind]: no such attribute, [None], or a string. *)
Inductive Kind :=
  | KindMissing
  | KindNone
  | KindStr (kind : string).

Record Resource := {
  res_id : string;
  res_name : string;
  res_kind : Kind;
  res_tags : option (gmap string string)
}.

Record Acct := {
  acct_id : string;
  acct_name : string;
  acct_group : string;
  acct_project : string;
  acct_tags : gmap string string
}.

(** A string as the operand of [or]: the empty string and [None] are
    false. *)
Definition truthy (o : option string) : option string :=
  match o with
  | Some s => if decide (s = "") then None else Some s
  | None => None
  end.

(** Line 270: the first tag with a non-empty value, else the resource
    group. *)
Definition project_of_tags (tags : gmap string string) (rg : string) : string :=
  match truthy (tags !! "DigitalProduct") with
  | Some p => p
  | None =>
      match truthy (tags !! "Project") with
      | Some p => p
      | None =>
          match truthy (tags !! "Application") with
          | Some p => p
          | None => rg
          end
      end
  end.

(** The body of the loop of lines 259-278 for one resource: [None] when
    the resource is passed over. *)
Definition scan_resource (res : Resource) : Try (option Acct) :=
  match res_kind res with
  | KindMissing => Returned None
  | KindNone => Raised "argument of type 'NoneType' is not iterable"
  | KindStr kind =>
      if contains "OpenAI" kind || contains "CognitiveServices" kind then
        rg ← list_index (split "/" (res_id res)) 4;
        let tags := default ∅ (res_tags res) in
        Returned (Some {| acct_id := res_id res;
                          acct_name := res_name res;
                          acct_group := rg;
                          acct_project := project_of_tags tags rg;
                          acct_tags := tags |})
      else Returned None
  end.

(** What the listing of resources yields, and the exception it ends
    with, if any. *)
Record ResIter := {
  yielded : list Resource;
  iter_raised : option string
}.

(** The loop of lines 259-278 inside its [try]: the accounts found, and
    the exception that stopped it. *)
Fixpoint scan_resources (rs : list Resource) (raised : option string)
    : list Acct * option string :=
  match rs with
  | [] => ([], raised)
  | res :: rs' =>
      match scan_resource res with
      | Raised e => ([], Some e)
      | Returned None => scan_resources rs' raised
      | Returned (Some acct) =>
          let r := scan_resources rs' raised in (acct :: r.1, r.2)
      end
  end.

(** Lines 294-328: the inventory entries of one account. *)
Definition inventory_of_account (acct : Acct) (depts : list Dept)
    : list InvItem :=
  match depts with
  | [] =>
      [{| inv_id := acct_id acct; inv_name := acct_name acct;
          inv_group := acct_group acct; inv_project := acct_project acct;
          inv_deployment_name := "All Models (Aggregated)";
          inv_model_name := "unknown"; inv_type := "text" |}]
  | _ :: _ =>
      (λ d, {| inv_id := acct_id acct; inv_name := acct_name acct;
               inv_group := acct_group acct; inv_project := acct_project acct;
               inv_deployment_name := deployment_name d;
               inv_model_name := model_name d;
               inv_type := m_type (model_name d) |}) <$> depts
  end.

(** Step 1, lines 241-280: the accounts found and the log lines.  The two
    listings of the resource client are what the function is given. *)
Definition find_accounts (list_by_resource_group : string → ResIter)
    (list_all : ResIter) (resource_group : option string)
    : list Acct * list string :=
  let start :=
    match truthy resource_group with
    | Some rg =>
        ("Scanning RG '" +:+ rg +:+ "' for OpenAI accounts...",
         list_by_resource_group rg)
    | None => ("Scanning Subscription for OpenAI accounts...", list_all)
    end in
  let found := scan_resources (yielded start.2) (iter_raised start.2) in
  (found.1,
   start.1 :: match found.2 with
              | Some e => ["Error scanning resources: " +:+ e]
              | None => []
              end).

(** Step 2, lines 282-334: the entries of every account found.  The
    request for the deployments of an account, by resource group and
    account name, is what the function is given. *)
Definition drill_down
    (deployments_response : string → string → DeploymentsResponse)
    (found_accounts_list : list Acct) : list InvItem * list string :=
  (acct ← found_accounts_list;
   inventory_of_account acct
     (get_deployments (deployments_response (acct_group acct) (acct_name acct))),
   (λ acct, "Inspecting account: " +:+ acct_name acct) <$> found_accounts_list).

Definition discover_resources_and_deployments
    (list_by_resource_group : string → ResIter) (list_all : ResIter)
    (deployments_response : string → string → DeploymentsResponse)
    (resource_group : option string) : list InvItem * list string :=
  let found := find_accounts list_by_resource_group list_all resource_group in
  let drilled := drill_down deployments_response found.1 in
  (drilled.1, found.2 ++ drilled.2).

(** Lines 549-551: the inventory of the manual mode. *)
Definition manual_inventory (sub_id rg_name res_name : string) : list InvItem :=
  [{| inv_id := "/subscriptions/" +:+ sub_id +:+ "/resourceGroups/" +:+ rg_name
                +:+ "/providers/Microsoft.CognitiveServices/accounts/"
                +:+ res_name;
      inv_name := res_name; inv_group := rg_name; inv_project := rg_name;
      inv_deployment_name := "All Models (Aggregated)";
      inv_model_name := "Manual"; inv_type := "text" |}].

(** ** Usage metrics (lines 338-408) *)

Record DataPoint := {
  time_stamp : Z;
  total : option Q
}.

Record MetricItem := {
  metric_name : string;
  timeseries : list (list DataPoint)
}.

Inductive MetricsResponse :=
  | MetricsRaised (e : string)
  | MetricsValue (value : list MetricItem).

(** Lines 355-359: the entries by account id, in the order the ids first
    occur. *)
Fixpoint add_to_group (item : InvItem) (groups : list (string * list InvItem))
    : list (string * list InvItem) :=
  match groups with
  | [] => [(inv_id item, [item])]
  | g :: rest =>
      if decide (g.1 = inv_id item) then (g.1, g.2 ++ [item]) :: rest
      else g :: add_to_group item rest
  end.

Definition grouped_inventory (inventory_list : list InvItem)
    : list (string * list InvItem) :=
  foldl (λ groups item, add_to_group item groups) [] inventory_list.

(** Line 372. *)
Definition odata_filter (dept_name : string) : option string :=
  if decide (dept_name = "All Models (Aggregated)") then None
  else Some ("ModelDeploymentName eq '" +:+ dept_name +:+ "'").

(** Lines 383-398: the rows of one response, the samples with
    [data.total and data.total > 0]. *)
Definition rows_of_metrics (account_id : string) (dept : InvItem)
    (value : list MetricItem) : list UsageRow :=
  item ← value;
  ts ← timeseries item;
  data ← ts;
  match total data with
  | Some t =>
      if Qlt_le_dec 0 t then
        [{| TimeStamp := time_stamp data; Account := inv_name dept;
            ResourceId := account_id; Project := inv_project dept;
            Deployment := inv_deployment_name dept;
            Model := inv_model_name dept; Type_ := inv_type dept;
            Metric := metric_name item; Value := t |}]
      else []
  | None => []
  end.

(** The body of the [try] of lines 366-398 for one account: the rows
    appended before the request that raised, if one did. *)
Fixpoint fetch_account (metrics_list : string → option string → MetricsResponse)
    (account_id : string) (deployments : list InvItem)
    : list UsageRow * option string :=
  match deployments with
  | [] => ([], None)
  | dept :: rest =>
      match metrics_list account_id (odata_filter (inv_deployment_name dept)) with
      | MetricsRaised e => ([], Some e)
      | MetricsValue value =>
          let r := fetch_account metrics_list account_id rest in
          (rows_of_metrics account_id dept value ++ r.1, r.2)
      end
  end.

(** [account_id.split('/')[-1]]. *)
Definition last_segment (x : string) : string :=
  default "" (last (split "/" x)).

(** Lines 400-402. *)
Definition metrics_error (account_id : string) (raised : option string)
    : list string :=
  match raised with
  | Some e =>
      if contains "BadRequest" e then []
      else ["Error " +:+ last_segment account_id +:+ ": " +:+ e]
  | None => []
  end.

Definition fetch_detailed_metrics
    (metrics_list : string → option string → MetricsResponse)
    (inventory_list : list InvItem) : list UsageRow * list string :=
  let results :=
    (λ g, (g.1, fetch_account metrics_list g.1 g.2))
    <$> grouped_inventory inventory_list in
  (results ≫= (λ r, r.2.1), results ≫= (λ r, metrics_error r.1 r.2.2)).

(** ** Billing data (lines 135-231) *)

(** A JSON value in a row of the cost query. *)
Inductive Cell :=
  | CellInt (z : Z)
  | CellFloat (q : Q)
  | CellStr (s : string)
  | CellNull.

(** A row of [cost_data] as line 217 appends it. *)
Record RawCostRow := {
  raw_Date : Z;
  raw_ResourceId : Cell;
  raw_ActualCost : Cell;
  raw_OriginalCurrency : Cell
}.

Record CostProperties := {
  columns : option (list string);
  rows : option (list (list Cell))
}.

Inductive CostResponse :=
  | CostRaised (e : string)
  | CostStatus (status_code : Z) (text : string)
      (properties : option CostProperties).

(** Line 194: the index of each column name, the last one of a name. *)
Definition col_map (columns : list string) : gmap string nat :=
  foldl (λ m ic, <[ic.2 := ic.1]> m) ∅ (imap pair columns).

Section billing.
(** The two date parsers of lines 211-215 and the end of the query
    window: library functions and the clock. *)
Context (strptime_Ymd : string → Try Z) (to_datetime : Cell → Try Z)
  (end_date : Z).

Definition normalize_date (date_val : option Cell) : Try Z :=
  match date_val with
  | None => Returned end_date
  | Some (CellInt z) => strptime_Ymd (str_int z)
  | Some c => to_datetime c
  end.

(** The body of the loop of lines 196-222 for one row. *)
Definition parse_cost_row (cm : gmap string nat) (r : list Cell)
    : Try RawCostRow :=
  cost_val ← list_index r (default 0%nat (cm !! "Cost"));
  res_id ← list_index r (default 1%nat (cm !! "ResourceId"));
  let curr_idx :=
    match cm !! "Currency" with
    | Some i => Some i
    | None => cm !! "BillingCurrency"
    end in
  curr ← match curr_idx with
         | Some i => list_index r i
         | None => Returned (CellStr "USD")
         end;
  date_val ← match cm !! "UsageDate" with
             | Some i => Some <$> list_index r i
             | None => Returned None
             end;
  date_obj ← normalize_date date_val;
  Returned {| raw_Date := date_obj; raw_ResourceId := res_id;
              raw_ActualCost := cost_val; raw_OriginalCurrency := curr |}.

(** The loop inside its [try]: the rows appended before the one that
    raised, if one did. *)
Fixpoint parse_cost_rows (cm : gmap string nat) (rs : list (list Cell))
    : list RawCostRow * option string :=
  match rs with
  | [] => ([], None)
  | r :: rest =>
      match parse_cost_row cm r with
      | Raised e => ([], Some e)
      | Returned row =>
          let p := parse_cost_rows cm rest in (row :: p.1, p.2)
      end
  end.

Definition fetch_actual_costs (response : CostResponse)
    : list RawCostRow * option string :=
  match response with
  | CostRaised e => ([], Some ("Failed to fetch costs: " +:+ e))
  | CostStatus status_code text properties =>
      if decide (status_code = 200%Z) then
        let props :=
          default {| columns := None; rows := None |} properties in
        let p := parse_cost_rows (col_map (default [] (columns props)))
                   (default [] (rows props)) in
        (p.1, (λ e, "Failed to fetch costs: " +:+ e) <$> p.2)
      else if decide (status_code = 403%Z) then
        ([], Some "⚠️ Permission Denied: Your account does not have 'Cost Management Reader' access.")
      else
        ([], Some ("Cost API Error: " +:+ str_int status_code +:+ " - " +:+ text))
  end.

End billing.

(** The rows of the cost frame the processing block can price: a number
    for the cost, text for the resource id and the currency. *)
Definition cell_number (c : Cell) : option Q :=
  match c with
  | CellInt z => Some (inject_Z z)
  | CellFloat q => Some q
  | _ => None
  end.

Definition cell_text (c : Cell) : option string :=
  match c with
  | CellStr s => Some s
  | _ => None
  end.

Definition typed_cost_row (r : RawCostRow) : option CostRow :=
  x ← cell_text (raw_ResourceId r);
  val ← cell_number (raw_ActualCost r);
  curr ← cell_text (raw_OriginalCurrency r);
  Some {| Date := raw_Date r; Cost_ResourceId := x; ActualCost := val;
          OriginalCurrency := curr |}.

(** ** Demo data (lines 410-463) *)

Record DemoProject := {
  demo_name : string;
  demo_model : string;
  demo_type : string;
  demo_res_name : string
}.

Definition demo_projects : list DemoProject :=
  [{| demo_name := "VG-AZ-109460-SDAI-LABUSER"; demo_model := "gpt-4";
      demo_type := "text"; demo_res_name := "ai-res-01" |};
   {| demo_name := "113527-volvogpt"; demo_model := "gpt-4";
      demo_type := "text"; demo_res_name := "ai-res-02" |};
   {| demo_name := "rd-usecases"; demo_model := "dall-e-3";
      demo_type := "image"; demo_res_name := "ai-res-03" |}].

Definition demo_resource_id (p : DemoProject) : string :=
  "/subscriptions/s/resourceGroups/" +:+ demo_name p
  +:+ "/providers/Microsoft.CognitiveServices/accounts/" +:+ demo_res_name p.

(** [int(x)] for a float: the integer part, towards zero. *)
Definition py_int (x : Q) : Z :=
  if Qle_bool 0 x then Qfloor x else Qceiling x.

(** A timestamp of the hourly range is the count of its hours: its hour
    of the day and its day. *)
Definition hour_of (date : Z) : Z := (date mod 24)%Z.
Definition day_of (date : Z) : Z := (date / 24)%Z.

Definition demo_usage_row (date : Z) (p : DemoProject) (type metric : string)
    (val : Z) : UsageRow :=
  {| TimeStamp := date; Account := demo_res_name p;
     ResourceId := demo_resource_id p; Project := demo_name p;
     Deployment := "dep-1"; Model := demo_model p; Type_ := type;
     Metric := metric; Value := inject_Z val |}.

Section demo.
(** The draws of [random.random()], of [random.gauss(500, 100)] and of
    [random.gauss(200, 50)] for a timestamp and a project, and of
    [random.uniform(50, 500)] for a day and a project. *)
Context (random_ gauss_prompts gauss_gens : Z → DemoProject → Q)
  (uniform : Z → DemoProject → Q).

(** Lines 421-449 for one timestamp and one project. *)
Definition demo_rows_at (date : Z) (p : DemoProject) : list UsageRow :=
  let hour_mod :=
    if bool_decide (9 ≤ hour_of date ≤ 17)%Z then 10%Z else 1%Z in
  if decide (demo_type p = "image") then
    let val :=
      if bool_decide (1 < hour_mod)%Z
      then py_int (random_ date p * 5 * inject_Z hour_mod) else 0%Z in
    if bool_decide (0 < val)%Z
    then [demo_usage_row date p "image" "GeneratedImages" val] else []
  else
    let prompts := py_int (gauss_prompts date p * inject_Z hour_mod) in
    let gens := py_int (gauss_gens date p * inject_Z hour_mod) in
    if bool_decide (0 < prompts)%Z
    then [demo_usage_row date p "text" "ProcessedPromptTokens" prompts;
          demo_usage_row date p "text" "GeneratedTokens" gens]
    else [].

(** The timestamps of the range are what the function is given. *)
Definition generate_demo_data_detailed (dates : list Z)
    : list UsageRow * list CostRow :=
  (date ← dates; p ← demo_projects; demo_rows_at date p,
   d ← merge_sort Z.le (remove_dups (day_of <$> dates));
   p ← demo_projects;
   [{| Date := d; Cost_ResourceId := demo_resource_id p;
       ActualCost := uniform d p; OriginalCurrency := "SEK" |}]).

End demo.

(** ** Specification-side predicates for the rest of the script *)

(** The listing the scan reads: of the resource group when one is given,
    of the subscription otherwise. *)
Definition scanned_listing (list_by_resource_group : string → ResIter)
    (list_all : ResIter) (resource_group : option string) : ResIter :=
  match truthy resource_group with
  | Some rg => list_by_resource_group rg
  | None => list_all
  end.

(** The account the scan makes of a resource with the group [rg]. *)
Definition account_of (res : Resource) (rg : string) : Acct :=
  {| acct_id := res_id res; acct_name := res_name res; acct_group := rg;
     acct_project := project_of_tags (default ∅ (res_tags res)) rg;
     acct_tags := default ∅ (res_tags res) |}.

(** The entry of an account with no deployment listed. *)
Definition aggregated_entry (acct : Acct) : InvItem :=
  {| inv_id := acct_id acct; inv_name := acct_name acct;
     inv_group := acct_group acct; inv_project := acct_project acct;
     inv_deployment_name := "All Models (Aggregated)";
     inv_model_name := "unknown"; inv_type := "text" |}.

(** An item is in the group of a key. *)
Definition in_group (groups : list (string * list InvItem)) (k : string)
    (item : InvItem) : Prop :=
  ∃ g, g ∈ groups ∧ g.1 = k ∧ item ∈ g.2.

(** The response to the request for the metrics of an inventory entry. *)
Definition metrics_of (metrics_list : string → option string → MetricsResponse)
    (item : InvItem) : MetricsResponse :=
  metrics_list (inv_id item) (odata_filter (inv_deployment_name item)).

(** The number of times a character occurs in a string. *)
Fixpoint occurs (c : ascii) (s : string) : nat :=
  match s with
  | EmptyString => 0%nat
  | String a s' => ((if Ascii.eqb a c then 1 else 0) + occurs c s')%nat
  end.

(** [sep.join(parts)]. *)
Fixpoint join (sep : ascii) (parts : list string) : string :=
  match parts with
  | [] => EmptyString
  | [p] => p
  | p :: ps => p +:+ String sep (join sep ps)
  end.

(** * Properties *)

(** Closes [x ∉ [a; b; ...]] when [x] differs from every listed value. *)
Ltac not_in_list :=
  rewrite !not_elem_of_cons; split_and!; [done.. | apply not_elem_of_nil].

(** ** The constant tables *)

Lemma CARBON_FACTORS_standard_text :
  CARBON_FACTORS !! "standard_text" = Some 0.0004.
Proof. reflexivity. Qed.

Lemma CARBON_FACTORS_reasoning_text :
  CARBON_FACTORS !! "reasoning_text" = Some 0.0015.
Proof. reflexivity. Qed.

Lemma CARBON_FACTORS_image_gen : CARBON_FACTORS !! "image_gen" = Some 0.05.
Proof. reflexivity. Qed.

Lemma CARBON_FACTORS_embedding : CARBON_FACTORS !! "embedding" = Some 0.0001.
Proof. reflexivity. Qed.

Lemma EXCHANGE_RATES_EUR : EXCHANGE_RATES_TO_SEK !! "EUR" = Some 11.5.
Proof. reflexivity. Qed.

Lemma EXCHANGE_RATES_GBP : EXCHANGE_RATES_TO_SEK !! "GBP" = Some 13.5.
Proof. reflexivity. Qed.

Lemma EXCHANGE_RATES_unknown (curr : string) :
  curr ∉ ["SEK"; "USD"; "EUR"; "GBP"] → EXCHANGE_RATES_TO_SEK !! curr = None.
Proof.
  intros Hn. unfold EXCHANGE_RATES_TO_SEK.
  rewrite !lookup_insert_ne; [apply lookup_empty | ..];
    intros <-; apply Hn; set_solver.
Qed.

(** ** The model on concrete values *)

Example split_resource_path :
  split "/" "/subscriptions/s/resourceGroups/rg-b/providers/x"
  = [""; "subscriptions"; "s"; "resourceGroups"; "rg-b"; "providers"; "x"].
Proof. reflexivity. Qed.

Example split_without_separator : split "/" "acct" = ["acct"].
Proof. reflexivity. Qed.

Example lower_mixed_case : lower "GPT-4o Mini" = "gpt-4o mini".
Proof. reflexivity. Qed.

Example contains_inside : contains "o1" "gpt-o1-mini" = true.
Proof. reflexivity. Qed.

Example one_tree_day : 57.5 / GRAMS_CO2_PER_TREE_DAY == 1.
Proof. reflexivity. Qed.

Example id_to_proj_last_entry_wins :
  id_to_proj (inventory_rg_a ++
    [{| inv_id := "/subscriptions/s/resourceGroups/rg-a/providers/Microsoft.CognitiveServices/accounts/acct1";
        inv_name := "acct1"; inv_group := "rg-a"; inv_project := "Beta";
        inv_deployment_name := "dep-2"; inv_model_name := "dall-e-3";
        inv_type := "image" |}])
  !! "/subscriptions/s/resourceGroups/rg-a/providers/Microsoft.CognitiveServices/accounts/acct1"
  = Some "Beta".
Proof. reflexivity. Qed.

(** ** Energy *)

Lemma calc_kwh_image row :
  Type_ row = "image" → calc_kwh row = Some (Value row * 0.05).
Proof.
  intros Ht. unfold calc_kwh. rewrite decide_True by done.
  by rewrite CARBON_FACTORS_image_gen.
Qed.

Lemma calc_kwh_reasoning row :
  Type_ row = "reasoning" → calc_kwh row = Some (Value row / 1000 * 0.0015).
Proof.
  intros Ht. unfold calc_kwh. rewrite Ht. simpl.
  by rewrite CARBON_FACTORS_reasoning_text.
Qed.

Lemma calc_kwh_embedding row :
  Type_ row = "embedding" → calc_kwh row = Some (Value row / 1000 * 0.0001).
Proof.
  intros Ht. unfold calc_kwh. rewrite Ht. simpl.
  by rewrite CARBON_FACTORS_embedding.
Qed.

Lemma calc_kwh_standard row :
  Type_ row ∉ ["image"; "reasoning"; "embedding"] →
  calc_kwh row = Some (Value row / 1000 * 0.0004).
Proof.
  intros Hn. unfold calc_kwh.
  rewrite !decide_False by (intros E; apply Hn; rewrite E; set_solver).
  by rewrite CARBON_FACTORS_standard_text.
Qed.

Lemma calc_kwh_total row : is_Some (calc_kwh row).
Proof.
  destruct (decide (Type_ row = "image")) as [E|N1];
    [rewrite calc_kwh_image; eauto|].
  destruct (decide (Type_ row = "reasoning")) as [E|N2];
    [rewrite calc_kwh_reasoning; eauto|].
  destruct (decide (Type_ row = "embedding")) as [E|N3];
    [rewrite calc_kwh_embedding; eauto|].
  rewrite calc_kwh_standard; [eauto|]. not_in_list.
Qed.

(** C1. [calc_kwh] returns [Value * 0.05] for the usage type image, with
    no division by 1000, and [(Value / 1000) * factor] otherwise, the
    factor being 0.0015 for reasoning, 0.0001 for embedding and 0.0004 for
    every other usage type, text and unrecognised ones included. *)
Theorem calc_kwh_by_usage_type (row : UsageRow) :
  (Type_ row = "image" → calc_kwh row = Some (Value row * 0.05)) ∧
  (Type_ row = "reasoning" →
     calc_kwh row = Some (Value row / 1000 * 0.0015)) ∧
  (Type_ row = "embedding" →
     calc_kwh row = Some (Value row / 1000 * 0.0001)) ∧
  (Type_ row ∉ ["image"; "reasoning"; "embedding"] →
     calc_kwh row = Some (Value row / 1000 * 0.0004)).
Proof.
  split_and!; [apply calc_kwh_image | apply calc_kwh_reasoning
              | apply calc_kwh_embedding | apply calc_kwh_standard].
Qed.

(** ** Model type *)

Lemma append_cons (c : ascii) (p q : string) :
  String c p +:+ q = String c (p +:+ q).
Proof. reflexivity. Qed.

Lemma string_prefix_spec (p s : string) :
  String.prefix p s = true ↔ ∃ q, s = p +:+ q.
Proof.
  revert s. induction p as [|a p IH]; intros s; simpl.
  - destruct s; split; eauto.
  - destruct s as [|b s]; simpl.
    + split; [done | by intros [q ?]].
    + destruct (ascii_dec a b) as [->|Hab].
      * rewrite IH.
        split; intros [q Hq]; exists q; rewrite append_cons in *; congruence.
      * split; [done | intros [q Hq]; rewrite append_cons in Hq; congruence].
Qed.

Lemma contains_nil (sub : string) :
  contains sub EmptyString = String.prefix sub EmptyString.
Proof. simpl. apply orb_false_r. Qed.

Lemma contains_cons (sub : string) (c : ascii) (s : string) :
  contains sub (String c s) = String.prefix sub (String c s) || contains sub s.
Proof. reflexivity. Qed.

Lemma contains_spec (sub s : string) :
  contains sub s = true ↔ is_substring sub s.
Proof.
  unfold is_substring. induction s as [|c s IH].
  - rewrite contains_nil, string_prefix_spec. split.
    + intros [q Hq]. by exists EmptyString, q.
    + intros ([|? pre] & post & Hs); [by exists post | done].
  - rewrite contains_cons, orb_true_iff, IH, string_prefix_spec. split.
    + intros [[q Hq] | (pre & post & Hs)].
      * by exists EmptyString, q.
      * exists (String c pre), post. by rewrite append_cons, Hs.
    + intros ([|c' pre] & post & Hs).
      * left. by exists post.
      * right. exists pre, post. rewrite append_cons in Hs. congruence.
Qed.

Lemma contains_false (sub s : string) :
  contains sub s = false ↔ ¬ is_substring sub s.
Proof. rewrite <- contains_spec. by destruct (contains sub s). Qed.

(** C2. The model type is a total function of the lower-cased model name
    and follows ordered substring rules, the first match winning: a name
    that contains "dall" is image; otherwise one that contains "o1" or
    "reasoning" is reasoning; otherwise one that contains "embedding" is
    embedding; every other name is text.  The four named models get
    image, reasoning, embedding and text. *)
Theorem m_type_ordered_rules (model_name : string) :
  let m := lower model_name in
  (is_substring "dall" m → m_type model_name = "image") ∧
  (¬ is_substring "dall" m →
     is_substring "o1" m ∨ is_substring "reasoning" m →
     m_type model_name = "reasoning") ∧
  (¬ is_substring "dall" m → ¬ is_substring "o1" m →
     ¬ is_substring "reasoning" m → is_substring "embedding" m →
     m_type model_name = "embedding") ∧
  (¬ is_substring "dall" m → ¬ is_substring "o1" m →
     ¬ is_substring "reasoning" m → ¬ is_substring "embedding" m →
     m_type model_name = "text") ∧
  (∀ other, lower other = m → m_type other = m_type model_name) ∧
  m_type model_name ∈ ["image"; "reasoning"; "embedding"; "text"] ∧
  m_type "dall-e-3" = "image" ∧
  m_type "o1-preview" = "reasoning" ∧
  m_type "text-embedding-ada-002" = "embedding" ∧
  m_type "gpt-4" = "text".
Proof.
  intros m. unfold m_type. fold m. split_and!; try reflexivity.
  - intros H%contains_spec. by rewrite H.
  - intros Hd%contains_false Ho. rewrite Hd.
    destruct Ho as [H%contains_spec | H%contains_spec]; rewrite H;
      [done | by rewrite orb_true_r].
  - intros Hd%contains_false Ho%contains_false Hr%contains_false
      He%contains_spec.
    by rewrite Hd, Ho, Hr, He.
  - intros Hd%contains_false Ho%contains_false Hr%contains_false
      He%contains_false.
    by rewrite Hd, Ho, Hr, He.
  - intros other Hl. by rewrite Hl.
  - destruct (contains "dall" m); [set_solver|].
    destruct (contains "o1" m || contains "reasoning" m); [set_solver|].
    destruct (contains "embedding" m); set_solver.
Qed.

(** ** Conversion to SEK *)

(** C4. [convert_to_sek] is a total function: the amount unchanged for
    SEK, times the user rate for USD, times 11.5 for EUR, and for any
    other currency times the rate of the static table, 13.5 for GBP, with
    the fallback 1.0 for a currency the table does not list.  So 100 USD
    at the rate 10.8 is 1080, 100 SEK is 100 and 100 XXX is 100. *)
Theorem convert_to_sek_by_currency (usd_rate : Q) (row : CostRow) :
  let amount := ActualCost row in
  let curr := OriginalCurrency row in
  (curr = "SEK" → convert_to_sek usd_rate row = amount) ∧
  (curr = "USD" → convert_to_sek usd_rate row = amount * usd_rate) ∧
  (curr = "EUR" → convert_to_sek usd_rate row = amount * 11.5) ∧
  (curr ∉ ["SEK"; "USD"; "EUR"] →
     convert_to_sek usd_rate row
     = amount * default 1.0 (EXCHANGE_RATES_TO_SEK !! curr)) ∧
  (curr = "GBP" → convert_to_sek usd_rate row = amount * 13.5) ∧
  (curr ∉ ["SEK"; "USD"; "EUR"; "GBP"] →
     convert_to_sek usd_rate row = amount * 1.0 ∧
     convert_to_sek usd_rate row == amount) ∧
  convert_to_sek 10.8 (cost_row 100 "USD") == 1080 ∧
  convert_to_sek usd_rate (cost_row 100 "SEK") == 100 ∧
  convert_to_sek usd_rate (cost_row 100 "XXX") == 100.
Proof.
  intros amount curr. unfold convert_to_sek. fold amount curr.
  assert (Hother : curr ∉ ["SEK"; "USD"; "EUR"] →
    (if decide (curr = "SEK") then amount
     else if decide (curr = "USD") then amount * usd_rate
     else if decide (curr = "EUR")
          then amount * default 11.5 (EXCHANGE_RATES_TO_SEK !! "EUR")
          else amount * default 1.0 (EXCHANGE_RATES_TO_SEK !! curr))
    = amount * default 1.0 (EXCHANGE_RATES_TO_SEK !! curr)).
  { intros Hn. rewrite !not_elem_of_cons in Hn. destruct Hn as (?&?&?&_).
    by rewrite !decide_False by done. }
  split_and!; try reflexivity.
  - intros ->. done.
  - intros ->. done.
  - intros ->. simpl. by rewrite EXCHANGE_RATES_EUR.
  - done.
  - intros ->. simpl. by rewrite EXCHANGE_RATES_GBP.
  - intros Hn. rewrite Hother.
    + rewrite EXCHANGE_RATES_unknown by done. simpl. split; [done|].
      unfold Qeq. simpl. lia.
    + intros Hin. apply Hn. rewrite !elem_of_cons in Hin |- *.
      rewrite elem_of_nil in Hin. tauto.
Qed.

(** ** Sums *)

Lemma sumQ_cons (x : Q) (l : list Q) : sumQ (x :: l) = x + sumQ l.
Proof. reflexivity. Qed.

Lemma sumQ_app (l1 l2 : list Q) : sumQ (l1 ++ l2) == sumQ l1 + sumQ l2.
Proof.
  induction l1 as [|x l1 IH].
  - change (sumQ l2 == 0 + sumQ l2). ring.
  - change (x + sumQ (l1 ++ l2) == x + sumQ l1 + sumQ l2). rewrite IH. ring.
Qed.

Lemma sumQ_Permutation (l1 l2 : list Q) : l1 ≡ₚ l2 → sumQ l1 == sumQ l2.
Proof.
  induction 1 as [|x l1 l2 _ IH|x y l|l1 l2 l3 _ IH1 _ IH2].
  - reflexivity.
  - by rewrite !sumQ_cons, IH.
  - rewrite !sumQ_cons. ring.
  - by rewrite IH1.
Qed.

Lemma sumQ_fmap_plus {A} (f g : A → Q) (l : list A) :
  sumQ ((λ x, f x + g x) <$> l) == sumQ (f <$> l) + sumQ (g <$> l).
Proof.
  induction l as [|x l IH]; [reflexivity|].
  rewrite !fmap_cons, !sumQ_cons, IH. ring.
Qed.

Lemma sumQ_fmap_scale {A} (f : A → Q) (q : Q) (l : list A) :
  sumQ ((λ x, f x * q) <$> l) == sumQ (f <$> l) * q.
Proof.
  induction l as [|x l IH]; [reflexivity|].
  rewrite !fmap_cons, !sumQ_cons, IH. ring.
Qed.

Lemma sumQ_fmap_ext {A} (f g : A → Q) (l : list A) :
  (∀ x, x ∈ l → f x == g x) → sumQ (f <$> l) == sumQ (g <$> l).
Proof.
  induction l as [|x l IH]; intros Hfg; [reflexivity|].
  rewrite !fmap_cons, !sumQ_cons, IH, (Hfg x); [reflexivity|left|].
  intros y Hy. apply Hfg. by right.
Qed.

Lemma sumQ_fmap_zero {A} (l : list A) : sumQ ((λ _, 0) <$> l) == 0.
Proof.
  induction l as [|x l IH]; [reflexivity|].
  rewrite fmap_cons, sumQ_cons, IH. ring.
Qed.

(** ** Enrichment and the outcome of a run *)

Lemma calc_kwh_kwh_of row : calc_kwh row = Some (kwh_of row).
Proof. unfold kwh_of. by destruct (calc_kwh_total row) as [k ->]. Qed.

Lemma enrich_enriched g row : enrich g row = Some (enriched g row).
Proof. unfold enrich. by rewrite calc_kwh_kwh_of. Qed.

Lemma mapM_enrich g (df_raw : list UsageRow) :
  mapM (enrich g) df_raw = Some (enriched g <$> df_raw).
Proof.
  apply mapM_Some_2, Forall2_fmap_r, Forall_Forall2_diag, Forall_forall.
  intros row _. apply enrich_enriched.
Qed.

Lemma process_empty inv df_cost g usd : process inv [] df_cost g usd = Some NoData.
Proof. reflexivity. Qed.

Lemma process_nonempty inv df_raw df_cost g usd :
  df_raw ≠ [] →
  process inv df_raw df_cost g usd
  = Some (Rendered (render inv (enriched g <$> df_raw) df_cost usd)).
Proof.
  intros Hne. unfold process. destruct df_raw as [|r df]; [done|].
  by rewrite mapM_enrich.
Qed.

Lemma usage_enriched g (df_raw : list UsageRow) :
  usage <$> (enriched g <$> df_raw) = df_raw.
Proof. rewrite <- list_fmap_compose. apply list_fmap_id. Qed.

Lemma kWh_enriched g (df_raw : list UsageRow) :
  kWh <$> (enriched g <$> df_raw) = kwh_of <$> df_raw.
Proof. by rewrite <- list_fmap_compose. Qed.

Lemma Carbon_g_enriched g (df_raw : list UsageRow) :
  Carbon_g <$> (enriched g <$> df_raw) = (λ r, kwh_of r * g) <$> df_raw.
Proof. by rewrite <- list_fmap_compose. Qed.

(** C3. Three usage rows, text with 1000 prompt tokens, text with 500
    generated tokens and image with 2 generated images, at the grid
    intensity 475 g/kWh: the total energy is 0.1006 kWh, the total carbon
    is 47.785 g and the tree-days, the total carbon over 57.5, are 0.831 to
    three decimals. *)
Theorem end_to_end_scenario inv df_cost usd (r1 r2 r3 : UsageRow) :
  Type_ r1 = "text" → Metric r1 = "ProcessedPromptTokens" → Value r1 = 1000 →
  Type_ r2 = "text" → Metric r2 = "GeneratedTokens" → Value r2 = 500 →
  Type_ r3 = "image" → Metric r3 = "GeneratedImages" → Value r3 = 2 →
  ∃ d, process inv [r1; r2; r3] df_cost 475 usd = Some (Rendered d) ∧
       total_kwh d == 0.1006 ∧
       total_co2 d == 47.785 ∧
       tree_days d == total_co2 d / 57.5 ∧
       Qabs (tree_days d - 0.831) < 0.0005.
Proof.
  intros T1 _ V1 T2 _ V2 T3 _ V3. eexists. split.
  { by apply process_nonempty. }
  assert (K1 : kwh_of r1 = 1000 / 1000 * 0.0004).
  { unfold kwh_of. rewrite calc_kwh_standard, V1; [done|].
    rewrite T1. not_in_list. }
  assert (K2 : kwh_of r2 = 500 / 1000 * 0.0004).
  { unfold kwh_of. rewrite calc_kwh_standard, V2; [done|].
    rewrite T2. not_in_list. }
  assert (K3 : kwh_of r3 = 2 * 0.05).
  { unfold kwh_of. by rewrite calc_kwh_image, V3. }
  unfold render, enriched; simpl. rewrite K1, K2, K3.
  split_and!; [reflexivity..|done].
Qed.

Lemma end_to_end_scenario_witness :
  ∃ d, process [] [usage_row "text" "ProcessedPromptTokens" 1000 "gpt-4" "p";
                   usage_row "text" "GeneratedTokens" 500 "gpt-4" "p";
                   usage_row "image" "GeneratedImages" 2 "dall-e-3" "p"]
         [] 475 10.8 = Some (Rendered d) ∧
       total_kwh d == 0.1006 ∧
       total_co2 d == 47.785 ∧
       tree_days d == total_co2 d / 57.5 ∧
       Qabs (tree_days d - 0.831) < 0.0005.
Proof. apply end_to_end_scenario; reflexivity. Defined.

(** ** Group-by *)

Section groupby_facts.
Context {A : Type} (key : A → string).
Implicit Types (df : list A) (k : string) (col : A → Q).

Lemma elem_of_group_keys df k : k ∈ group_keys key df ↔ ∃ r, r ∈ df ∧ key r = k.
Proof.
  unfold group_keys.
  rewrite merge_sort_Permutation, elem_of_remove_dups, list_elem_of_fmap.
  split; intros (r & H1 & H2); exists r; done.
Qed.

Lemma NoDup_group_keys df : NoDup (group_keys key df).
Proof.
  unfold group_keys. rewrite merge_sort_Permutation. apply NoDup_remove_dups.
Qed.

Lemma elem_of_get_group df k r : r ∈ get_group key k df ↔ key r = k ∧ r ∈ df.
Proof. unfold get_group. by rewrite list_elem_of_filter. Qed.

Lemma get_group_nil_iff df k : get_group key k df = [] ↔ k ∉ group_keys key df.
Proof.
  rewrite elem_of_group_keys. split.
  - intros Hnil (r & Hr & Hk).
    assert (r ∈ get_group key k df) as Hin by by apply elem_of_get_group.
    rewrite Hnil in Hin. by apply elem_of_nil in Hin.
  - intros Hn. destruct (get_group key k df) as [|r g] eqn:Hg; [done|].
    exfalso. apply Hn. exists r.
    assert (r ∈ get_group key k df) as Hin by (rewrite Hg; left).
    apply elem_of_get_group in Hin. tauto.
Qed.

Lemma fst_groupby df : (groupby key df).*1 = group_keys key df.
Proof.
  unfold groupby. rewrite <- list_fmap_compose. apply list_fmap_id.
Qed.

Lemma elem_of_groupby df (kg : string * list A) :
  kg ∈ groupby key df ↔ kg.1 ∈ group_keys key df ∧ kg.2 = get_group key kg.1 df.
Proof.
  unfold groupby. rewrite list_elem_of_fmap. destruct kg as [k g]. simpl. split.
  - intros (k' & [= -> ->] & Hk). done.
  - intros [Hk ->]. by exists k.
Qed.

(** The sum, over some distinct keys, of "[v] at the key [x], 0 elsewhere". *)
Lemma sumQ_indicator (x : string) (v : Q) (ks : list string) :
  NoDup ks →
  sumQ ((λ k, if decide (x = k) then v else 0) <$> ks)
  == if decide (x ∈ ks) then v else 0.
Proof.
  induction 1 as [|k ks Hk _ IH]; [reflexivity|].
  rewrite fmap_cons, sumQ_cons, IH.
  assert (x ∈ k :: ks ↔ x = k ∨ x ∈ ks) as Hc by apply elem_of_cons.
  repeat case_decide; subst; try ring; exfalso; tauto.
Qed.

Lemma sumQ_get_group_cons_eq col k r df :
  sumQ (col <$> get_group key k (r :: df))
  == (if decide (key r = k) then col r else 0)
     + sumQ (col <$> get_group key k df).
Proof.
  unfold get_group. rewrite filter_cons.
  destruct (decide (key r = k)).
  - by rewrite fmap_cons, sumQ_cons.
  - ring.
Qed.

Lemma sum_over_keys col df (ks : list string) :
  NoDup ks → (∀ r, r ∈ df → key r ∈ ks) →
  sumQ ((λ k, sumQ (col <$> get_group key k df)) <$> ks) == sumQ (col <$> df).
Proof.
  intros Hnd. induction df as [|r df IH]; intros Hks.
  - apply sumQ_fmap_zero.
  - rewrite (sumQ_fmap_ext _ (λ k, (if decide (key r = k) then col r else 0)
                                    + sumQ (col <$> get_group key k df)))
      by (intros; apply sumQ_get_group_cons_eq).
    rewrite (sumQ_fmap_plus (λ k, if decide (key r = k) then col r else 0)).
    rewrite sumQ_indicator by done.
    rewrite decide_True by (apply Hks; left).
    rewrite IH by (intros; apply Hks; by right).
    by rewrite fmap_cons, sumQ_cons.
Qed.

(** The group sums of a column add up to the sum of the column. *)
Lemma groupby_sum_partition col df :
  sumQ ((λ kg, sumQ (col <$> kg.2)) <$> groupby key df) == sumQ (col <$> df).
Proof.
  unfold groupby. rewrite <- list_fmap_compose.
  apply (sum_over_keys col df (group_keys key df)).
  - apply NoDup_group_keys.
  - intros r Hr. apply elem_of_group_keys. eauto.
Qed.

(** Every row is in the group of its key and in no other group. *)
Lemma groupby_one_group df r :
  r ∈ df →
  ∃ g, (key r, g) ∈ groupby key df ∧ r ∈ g ∧
       ∀ kg, kg ∈ groupby key df → r ∈ kg.2 → kg = (key r, g).
Proof.
  intros Hr. exists (get_group key (key r) df). split_and!.
  - apply elem_of_groupby. split; [|done]. apply elem_of_group_keys. eauto.
  - by apply elem_of_get_group.
  - intros [k g] [Hk Hg]%elem_of_groupby Hin. simpl in *. subst g.
    apply elem_of_get_group in Hin as [<- _]. done.
Qed.

End groupby_facts.

Lemma get_group_fmap {A B} (f : A → B) (key : B → string) k (df : list A) :
  get_group key k (f <$> df) = f <$> get_group (key ∘ f) k df.
Proof.
  unfold get_group. induction df as [|r df IH]; [done|].
  rewrite fmap_cons, !filter_cons. simpl.
  destruct (decide (key (f r) = k)); by rewrite IH.
Qed.

(** ** The frames by model and by project, on the rows of [df_raw] *)

Lemma filter_fmap {A B} (f : A → B) (P : B → Prop) `{!∀ x, Decision (P x)}
    (l : list A) :
  filter P (f <$> l) = f <$> filter (P ∘ f) l.
Proof.
  induction l as [|x l IH]; [done|].
  rewrite fmap_cons, !filter_cons. simpl.
  destruct (decide (P (f x))); by rewrite IH.
Qed.

Lemma group_keys_enriched (key : UsageRow → string) g df_raw :
  group_keys (key ∘ usage) (enriched g <$> df_raw) = group_keys key df_raw.
Proof. unfold group_keys. by rewrite <- list_fmap_compose. Qed.

Lemma get_group_enriched (key : UsageRow → string) g k df_raw :
  get_group (key ∘ usage) k (enriched g <$> df_raw)
  = enriched g <$> get_group key k df_raw.
Proof. apply get_group_fmap. Qed.

Lemma df_model_of_enriched g df_raw :
  df_model_of (enriched g <$> df_raw)
  = model_row g df_raw <$> group_keys Model df_raw.
Proof.
  unfold df_model_of, groupby.
  rewrite <- list_fmap_compose, group_keys_enriched.
  apply list_fmap_ext. intros _ k _. simpl.
  rewrite get_group_enriched. unfold model_row.
  by rewrite <- !list_fmap_compose.
Qed.

Lemma filter_input_group k df_raw :
  filter (λ r, Metric r = "ProcessedPromptTokens") (get_group Project k df_raw)
  = input_rows k df_raw.
Proof.
  unfold get_group, input_rows. rewrite list_filter_filter.
  apply list_filter_iff. tauto.
Qed.

Lemma filter_output_group k df_raw :
  filter (λ r, Metric r ∈ ["GeneratedTokens"; "GeneratedCompletionTokens"])
    (get_group Project k df_raw)
  = output_rows k df_raw.
Proof.
  unfold get_group, output_rows. rewrite list_filter_filter.
  apply list_filter_iff. intros r.
  rewrite !elem_of_cons, elem_of_nil. tauto.
Qed.

Lemma df_usage_agg_of_enriched g df_raw :
  df_usage_agg_of (enriched g <$> df_raw)
  = usage_agg_row g df_raw <$> group_keys Project df_raw.
Proof.
  unfold df_usage_agg_of, groupby.
  rewrite <- list_fmap_compose, group_keys_enriched.
  apply list_fmap_ext. intros _ k _. simpl.
  rewrite get_group_enriched. unfold usage_agg_row.
  rewrite <- filter_input_group, <- filter_output_group.
  unfold is_input_metric, is_output_metric.
  rewrite !(filter_fmap (enriched g)).
  by rewrite <- !list_fmap_compose.
Qed.

Lemma elem_of_df_usage_agg g df_raw u :
  u ∈ df_usage_agg_of (enriched g <$> df_raw) ↔
  u_Project u ∈ Project <$> df_raw ∧ u = usage_agg_row g df_raw (u_Project u).
Proof.
  rewrite df_usage_agg_of_enriched, list_elem_of_fmap. split.
  - intros (k & -> & Hk). simpl. split; [|done].
    apply elem_of_group_keys in Hk as (r & Hr & <-).
    by apply list_elem_of_fmap_2.
  - intros [(r & Hp & Hr)%list_elem_of_fmap Hu].
    exists (u_Project u). split; [done|].
    apply elem_of_group_keys. eauto.
Qed.

(** ** Carbon and the region *)

Lemma sumQ_carbon_scale g (l : list UsageRow) :
  sumQ ((λ r, kwh_of r * g) <$> l) == sumQ (kwh_of <$> l) * g.
Proof. apply sumQ_fmap_scale. Qed.

Lemma sumQ_carbon_rescale g1 g2 (l : list UsageRow) :
  ¬ g1 == 0 →
  sumQ ((λ r, kwh_of r * g2) <$> l)
  == sumQ ((λ r, kwh_of r * g1) <$> l) * (g2 / g1).
Proof. intros Hg. rewrite !sumQ_carbon_scale. by field. Qed.

(** C7. The carbon of a row is its energy times the grid intensity, and
    the energy does not depend on the region: going from the intensity
    [g1] to [g2] multiplies every carbon figure (per row, total, tree-days,
    per model, per project) by [g2 / g1] and leaves every kWh figure and
    every token count as it was.  One kWh is 475 g at the intensity 475
    (Global Average) and 20 g at the intensity 20 (Europe (Sweden)). *)
Theorem region_rescales_carbon inv df_raw df_cost usd (g1 g2 : Q) :
  df_raw ≠ [] → ¬ g1 == 0 →
  ∃ d1 d2,
    process inv df_raw df_cost g1 usd = Some (Rendered d1) ∧
    process inv df_raw df_cost g2 usd = Some (Rendered d2) ∧
    Forall (λ r, Carbon_g r = kWh r * g1) (df_raw_out d1) ∧
    Forall (λ r, Carbon_g r = kWh r * g2) (df_raw_out d2) ∧
    Forall2 (λ r1 r2, usage r2 = usage r1 ∧ kWh r2 = kWh r1 ∧
                      Carbon_g r2 == Carbon_g r1 * (g2 / g1))
      (df_raw_out d1) (df_raw_out d2) ∧
    total_kwh d2 = total_kwh d1 ∧
    total_co2 d2 == total_co2 d1 * (g2 / g1) ∧
    tree_days d2 == tree_days d1 * (g2 / g1) ∧
    Forall2 (λ m1 m2, m_Model m2 = m_Model m1 ∧ m_Value m2 = m_Value m1 ∧
                      m_Carbon_g m2 == m_Carbon_g m1 * (g2 / g1))
      (df_model d1) (df_model d2) ∧
    Forall2 (λ u1 u2, u_Project u2 = u_Project u1 ∧
                      Input_Tokens u2 = Input_Tokens u1 ∧
                      Output_Tokens u2 = Output_Tokens u1 ∧
                      Carbon_Total u2 == Carbon_Total u1 * (g2 / g1))
      (df_usage_agg d1) (df_usage_agg d2) ∧
    REGION_INTENSITY !! "Global Average" = Some 475 ∧
    REGION_INTENSITY !! "Europe (Sweden)" = Some 20 ∧
    (∀ row e1 e2, enrich 475 row = Some e1 → enrich 20 row = Some e2 →
       kWh e1 == 1 →
       Carbon_g e1 == 475 ∧ Carbon_g e2 == 20 ∧ kWh e2 = kWh e1).
Proof.
  intros Hne Hg. eexists _, _. split; [by apply process_nonempty|].
  split; [by apply process_nonempty|].
  unfold render; simpl. split_and!; try reflexivity.
  - apply Forall_fmap, Forall_forall. by intros.
  - apply Forall_fmap, Forall_forall. by intros.
  - apply Forall2_fmap, Forall_Forall2_diag, Forall_forall.
    intros r _. simpl. split_and!; [done..|]. by field.
  - by rewrite !kWh_enriched.
  - rewrite !Carbon_g_enriched. by apply sumQ_carbon_rescale.
  - rewrite !Carbon_g_enriched, (sumQ_carbon_rescale g1 g2) by done.
    unfold GRAMS_CO2_PER_TREE_DAY. by field.
  - rewrite !df_model_of_enriched.
    apply Forall2_fmap, Forall_Forall2_diag, Forall_forall.
    intros k _. simpl. split_and!; [done..|]. by apply sumQ_carbon_rescale.
  - rewrite !df_usage_agg_of_enriched.
    apply Forall2_fmap, Forall_Forall2_diag, Forall_forall.
    intros k _. simpl. split_and!; [done..|]. by apply sumQ_carbon_rescale.
  - intros row e1 e2. rewrite !enrich_enriched. intros [= <-] [= <-].
    unfold enriched. cbn [kWh Carbon_g].
    intros Hk. split_and!; [rewrite Hk; ring | rewrite Hk; ring | done].
Qed.

Lemma region_rescales_carbon_witness :
  ∃ d1 d2,
    process [] [usage_row "image" "GeneratedImages" 20 "dall-e-3" "p"] []
      475 10.8 = Some (Rendered d1) ∧
    process [] [usage_row "image" "GeneratedImages" 20 "dall-e-3" "p"] []
      20 10.8 = Some (Rendered d2) ∧
    total_kwh d2 = total_kwh d1 ∧
    total_co2 d2 == total_co2 d1 * (20 / 475).
Proof.
  destruct (region_rescales_carbon []
              [usage_row "image" "GeneratedImages" 20 "dall-e-3" "p"] []
              10.8 475 20) as (d1 & d2 & H1 & H2 & _ & _ & _ & Hk & Hc & _);
    [done | done |].
  by exists d1, d2.
Defined.

(** ** Group sums and totals *)

Lemma sumQ_df_model_Carbon_g (rows : list EnrichedRow) :
  sumQ (m_Carbon_g <$> df_model_of rows) == sumQ (Carbon_g <$> rows).
Proof.
  unfold df_model_of. rewrite <- list_fmap_compose.
  apply (groupby_sum_partition (Model ∘ usage) Carbon_g).
Qed.

Lemma sumQ_df_model_Value (rows : list EnrichedRow) :
  sumQ (m_Value <$> df_model_of rows) == sumQ ((Value ∘ usage) <$> rows).
Proof.
  unfold df_model_of. rewrite <- list_fmap_compose.
  apply (groupby_sum_partition (Model ∘ usage) (Value ∘ usage)).
Qed.

Lemma sumQ_df_usage_agg_Carbon_Total (rows : list EnrichedRow) :
  sumQ (Carbon_Total <$> df_usage_agg_of rows) == sumQ (Carbon_g <$> rows).
Proof.
  unfold df_usage_agg_of. rewrite <- list_fmap_compose.
  apply (groupby_sum_partition (Project ∘ usage) Carbon_g).
Qed.

(** ** Token sums per project *)

Lemma input_rows_cons_other p r df_raw :
  Metric r ≠ "ProcessedPromptTokens" →
  input_rows p (r :: df_raw) = input_rows p df_raw.
Proof.
  intros Hm. unfold input_rows. apply filter_cons_False. tauto.
Qed.

Lemma output_rows_cons_alias r df_raw :
  Metric r = "GeneratedCompletionTokens" →
  output_rows (Project r) (r :: df_raw) = r :: output_rows (Project r) df_raw.
Proof.
  intros Hm. unfold output_rows. apply filter_cons_True. tauto.
Qed.

(** C8. In the aggregation per project, the input tokens of a project are
    the sum of the values of its rows whose metric is exactly
    ProcessedPromptTokens, and the output tokens the sum of the values of
    its rows whose metric is GeneratedTokens or GeneratedCompletionTokens:
    a GeneratedCompletionTokens row adds its value to the output tokens of
    its project and nothing to the input tokens. *)
Theorem token_sums_by_metric inv df_cost g usd :
  (∀ df_raw, df_raw ≠ [] →
     ∃ d, process inv df_raw df_cost g usd = Some (Rendered d) ∧
       (∀ p, p ∈ Project <$> df_raw ↔
             ∃ u, u ∈ df_usage_agg d ∧ u_Project u = p) ∧
       (∀ u, u ∈ df_usage_agg d →
          Input_Tokens u = sumQ (Value <$> input_rows (u_Project u) df_raw) ∧
          Output_Tokens u
          = sumQ (Value <$> output_rows (u_Project u) df_raw))) ∧
  (∀ r df_raw, Metric r = "GeneratedCompletionTokens" →
     ∃ d u, process inv (r :: df_raw) df_cost g usd = Some (Rendered d) ∧
       u ∈ df_usage_agg d ∧ u_Project u = Project r ∧
       Output_Tokens u
       = Value r + sumQ (Value <$> output_rows (Project r) df_raw) ∧
       Input_Tokens u = sumQ (Value <$> input_rows (Project r) df_raw)).
Proof.
  split.
  - intros df_raw Hne. eexists. split; [by apply process_nonempty|].
    unfold render; simpl. split.
    + intros p. split.
      * intros Hp. exists (usage_agg_row g df_raw p).
        split; [|done]. by apply elem_of_df_usage_agg.
      * intros (u & [Hp _]%elem_of_df_usage_agg & <-). done.
    + intros u [_ ->]%elem_of_df_usage_agg. done.
  - intros r df_raw Hm.
    exists (render inv (enriched g <$> r :: df_raw) df_cost usd),
           (usage_agg_row g (r :: df_raw) (Project r)).
    split; [by apply process_nonempty|].
    unfold render; simpl. split_and!; [|done|..].
    + rewrite <- fmap_cons. apply elem_of_df_usage_agg. simpl.
      split; [left | done].
    + by rewrite output_rows_cons_alias.
    + rewrite input_rows_cons_other; [done|]. by rewrite Hm.
Qed.

Lemma token_sums_by_metric_witness :
  ∃ d u, process []
           (usage_row "text" "GeneratedCompletionTokens" 70 "gpt-4" "alpha"
            :: [usage_row "text" "ProcessedPromptTokens" 1000 "gpt-4" "alpha";
                usage_row "text" "GeneratedTokens" 500 "gpt-4" "alpha"])
           [] 475 10.8 = Some (Rendered d) ∧
    u ∈ df_usage_agg d ∧ u_Project u = "alpha" ∧
    Output_Tokens u == 570 ∧ Input_Tokens u == 1000.
Proof.
  destruct (proj2 (token_sums_by_metric [] [] 475 10.8)
              (usage_row "text" "GeneratedCompletionTokens" 70 "gpt-4" "alpha")
              [usage_row "text" "ProcessedPromptTokens" 1000 "gpt-4" "alpha";
               usage_row "text" "GeneratedTokens" 500 "gpt-4" "alpha"])
    as (d & u & Hd & Hu & Hp & Ho & Hi); [done|].
  exists d, u. split_and!; [done..| by rewrite Ho | by rewrite Hi].
Defined.

(** ** The outer merge *)

Lemma elem_of_group_keys_fmap {A} (key : A → string) (df : list A) k :
  k ∈ group_keys key df ↔ k ∈ key <$> df.
Proof.
  rewrite elem_of_group_keys, list_elem_of_fmap.
  split; intros (r & H1 & H2); exists r; done.
Qed.

Lemma filter_eq_NoDup (ks : list string) (k : string) :
  NoDup ks → filter (λ x, x = k) ks = if decide (k ∈ ks) then [k] else [].
Proof.
  induction 1 as [|x ks Hx _ IH]; [done|].
  rewrite filter_cons, IH.
  assert (k ∈ x :: ks ↔ k = x ∨ k ∈ ks) as Hc by apply elem_of_cons.
  repeat case_decide; subst; try done; exfalso; intuition congruence.
Qed.

Lemma filter_group_keys {A} (key : A → string) (df : list A) (k : string) :
  filter (λ x, x = k) (group_keys key df)
  = if decide (k ∈ key <$> df) then [k] else [].
Proof.
  rewrite filter_eq_NoDup by apply NoDup_group_keys.
  pose proof (elem_of_group_keys_fmap key df k).
  repeat case_decide; try done; exfalso; tauto.
Qed.

Lemma df_cost_agg_of_rows (costed : list CostedRow) :
  df_cost_agg_of costed = cost_agg_row costed <$> group_keys ProjectName costed.
Proof.
  unfold df_cost_agg_of, groupby. destruct costed as [|c costed]; [done|].
  by rewrite <- list_fmap_compose.
Qed.

Lemma df_cost_agg_of_nil_iff (costed : list CostedRow) :
  df_cost_agg_of costed = [] ↔ costed = [].
Proof.
  split; [|by intros ->]. rewrite df_cost_agg_of_rows.
  intros Hnil%fmap_nil_inv. destruct costed as [|c costed]; [done|].
  assert (ProjectName c ∈ group_keys ProjectName (c :: costed)) as Hin.
  { apply elem_of_group_keys. exists c. split; [left | done]. }
  rewrite Hnil in Hin. by apply elem_of_nil in Hin.
Qed.

Lemma filter_cost_agg (costed : list CostedRow) (k : string) :
  filter (λ c, c_ProjectName c = k)
    (cost_agg_row costed <$> group_keys ProjectName costed)
  = if decide (k ∈ ProjectName <$> costed) then [cost_agg_row costed k] else [].
Proof.
  rewrite filter_fmap, (list_filter_iff _ (λ x, x = k)) by done.
  rewrite filter_group_keys. by case_decide.
Qed.

Lemma filter_usage_agg g (df_raw : list UsageRow) (k : string) :
  filter (λ u, u_Project u = k)
    (usage_agg_row g df_raw <$> group_keys Project df_raw)
  = if decide (k ∈ Project <$> df_raw) then [usage_agg_row g df_raw k] else [].
Proof.
  rewrite filter_fmap, (list_filter_iff _ (λ x, x = k)) by done.
  rewrite filter_group_keys. by case_decide.
Qed.

Lemma elem_of_summary_keys costed df_raw k :
  k ∈ summary_keys costed df_raw ↔
  k ∈ ProjectName <$> costed ∨ k ∈ Project <$> df_raw.
Proof.
  unfold summary_keys.
  rewrite merge_sort_Permutation, elem_of_remove_dups, elem_of_app.
  by rewrite !elem_of_group_keys_fmap.
Qed.

Lemma NoDup_summary_keys costed df_raw : NoDup (summary_keys costed df_raw).
Proof.
  unfold summary_keys. rewrite merge_sort_Permutation. apply NoDup_remove_dups.
Qed.

Lemma fmap_bind_singleton {A B C} (f : A → list B) (g : B → C) (h : A → C)
    (l : list A) :
  (∀ x, x ∈ l → g <$> f x = [h x]) → g <$> (l ≫= f) = h <$> l.
Proof.
  induction l as [|x l IH]; intros Hf; [done|].
  rewrite bind_cons, fmap_app, fmap_cons, (Hf x) by left.
  rewrite IH; [done|]. intros y Hy. apply Hf. by right.
Qed.

(** The merged and filled frame has one row per key of either side. *)
Lemma fill_merge_outer_rows costed g df_raw :
  fill_summary
    <$> merge_outer (cost_agg_row costed <$> group_keys ProjectName costed)
          (usage_agg_row g df_raw <$> group_keys Project df_raw)
  = summary_row costed g df_raw <$> summary_keys costed df_raw.
Proof.
  unfold merge_outer. rewrite <- !list_fmap_compose.
  change (c_ProjectName ∘ cost_agg_row costed <$> group_keys ProjectName costed)
    with (id <$> group_keys ProjectName costed).
  change (u_Project ∘ usage_agg_row g df_raw <$> group_keys Project df_raw)
    with (id <$> group_keys Project df_raw).
  rewrite !list_fmap_id. fold (summary_keys costed df_raw).
  apply fmap_bind_singleton. intros k Hk%elem_of_summary_keys.
  unfold merge_key.
  rewrite filter_cost_agg, filter_usage_agg. unfold summary_row.
  destruct (decide (k ∈ ProjectName <$> costed)) as [Hc|Hc];
    destruct (decide (k ∈ Project <$> df_raw)) as [Hu|Hu].
  - by rewrite !bool_decide_eq_true_2 by done.
  - rewrite bool_decide_eq_true_2, bool_decide_eq_false_2 by done. done.
  - rewrite bool_decide_eq_false_2, bool_decide_eq_true_2 by done. done.
  - tauto.
Qed.

Lemma df_project_summary_rows costed g df_raw :
  costed ≠ [] →
  df_project_summary_of (df_cost_agg_of costed)
    (df_usage_agg_of (enriched g <$> df_raw))
  = summary_row costed g df_raw <$> summary_keys costed df_raw.
Proof.
  intros Hne. unfold df_project_summary_of.
  destruct (df_cost_agg_of costed) as [|a agg] eqn:Hagg.
  { by apply df_cost_agg_of_nil_iff in Hagg. }
  rewrite <- Hagg, df_cost_agg_of_rows, df_usage_agg_of_enriched.
  apply fill_merge_outer_rows.
Qed.

Lemma df_project_summary_no_cost g df_raw :
  df_project_summary_of (df_cost_agg_of [])
    (df_usage_agg_of (enriched g <$> df_raw))
  = (usage_only_summary ∘ usage_agg_row g df_raw) <$> group_keys Project df_raw.
Proof.
  unfold df_project_summary_of. simpl.
  by rewrite df_usage_agg_of_enriched, <- list_fmap_compose.
Qed.

(** ** Cost rows and their labels *)

Lemma ProjectName_costed inv usd (df_cost : list CostRow) :
  ProjectName <$> (add_cost_columns inv usd <$> df_cost)
  = cost_label inv <$> df_cost.
Proof. by rewrite <- list_fmap_compose. Qed.

Lemma cost_of_label inv usd (df_cost : list CostRow) (p : string) :
  c_Cost_SEK (cost_agg_row (add_cost_columns inv usd <$> df_cost) p)
  = sumQ (convert_to_sek usd <$> cost_rows_of inv p df_cost).
Proof.
  unfold cost_agg_row, cost_rows_of. simpl.
  by rewrite get_group_fmap, <- list_fmap_compose.
Qed.



Lemma elem_of_summary_rows costed g df_raw s :
  s ∈ summary_row costed g df_raw <$> summary_keys costed df_raw ↔
  (s_ProjectName s ∈ ProjectName <$> costed
   ∨ s_ProjectName s ∈ Project <$> df_raw)
  ∧ s = summary_row costed g df_raw (s_ProjectName s).
Proof.
  rewrite list_elem_of_fmap. split.
  - intros (k & -> & Hk%elem_of_summary_keys). done.
  - intros [Hk Hs]. exists (s_ProjectName s).
    split; [done|]. by apply elem_of_summary_keys.
Qed.



(** ** The project label of a cost row *)

Lemma foldl_insert_lookup_None (inv : list InvItem) (m : gmap string string) x :
  foldl (λ m item, <[inv_id item := inv_project item]> m) m inv !! x = None ↔
  m !! x = None ∧ ∀ item, item ∈ inv → inv_id item ≠ x.
Proof.
  revert m. induction inv as [|i inv IH]; intros m; simpl.
  - split; [|tauto]. intros Hm. split; [done|]. by intros item ?%elem_of_nil.
  - rewrite IH, lookup_insert_None. split.
    + intros [[Hm Hi] Hall]. split; [done|].
      intros item [->|Hin]%elem_of_cons; auto.
    + intros [Hm Hall]. split_and!; [done| apply Hall; left |].
      intros item Hin. apply Hall. by right.
Qed.

Lemma foldl_insert_lookup_Some (inv : list InvItem) (m : gmap string string)
    x p :
  foldl (λ m item, <[inv_id item := inv_project item]> m) m inv !! x = Some p →
  m !! x = Some p ∨ ∃ item, item ∈ inv ∧ inv_id item = x ∧ inv_project item = p.
Proof.
  revert m. induction inv as [|i inv IH]; intros m; simpl; [auto|].
  intros [Hm | (item & Hin & Hid & Hp)]%IH.
  - apply lookup_insert_Some in Hm as [[<- <-] | [_ Hm]]; [|auto].
    right. exists i. split; [left | done].
  - right. exists item. split; [by right | done].
Qed.

Lemma id_to_proj_None inv x :
  id_to_proj inv !! x = None ↔ ∀ item, item ∈ inv → inv_id item ≠ x.
Proof.
  unfold id_to_proj. rewrite foldl_insert_lookup_None, lookup_empty. tauto.
Qed.

Lemma id_to_proj_Some inv x p :
  id_to_proj inv !! x = Some p →
  ∃ item, item ∈ inv ∧ inv_id item = x ∧ inv_project item = p.
Proof.
  unfold id_to_proj. intros [Hm | H]%foldl_insert_lookup_Some; [|done].
  by rewrite lookup_empty in Hm.
Qed.

Lemma resource_group_segment_Some x seg :
  split "/" x !! 4%nat = Some seg → resource_group_segment x = seg.
Proof.
  intros Hs. unfold resource_group_segment.
  rewrite decide_True by (by apply lookup_lt_Some in Hs). by rewrite Hs.
Qed.

Lemma resource_group_segment_None x :
  split "/" x !! 4%nat = None → resource_group_segment x = "Unknown".
Proof.
  intros Hs%lookup_ge_None. unfold resource_group_segment.
  rewrite decide_False; [done | lia].
Qed.

(** C6, as the claim states it, fails: with an inventory that lacks the
    resource of a cost row, the row is labelled "Unknown" although the
    resource-group segment of its path, rg-b, is there to parse. *)
Lemma unmapped_resource_is_Unknown :
  id_to_proj inventory_rg_a !! Cost_ResourceId cost_row_rg_b = None ∧
  split "/" (Cost_ResourceId cost_row_rg_b) !! 4%nat = Some "rg-b" ∧
  cost_label inventory_rg_a cost_row_rg_b = "Unknown" ∧
  cost_label inventory_rg_a cost_row_rg_b ≠ "rg-b".
Proof. split_and!; [reflexivity..|done]. Qed.

(** C6, amended. With a non-empty inventory the label of a cost row is
    the project the lookup gives for its resource id, and "Unknown" when
    the lookup has no entry for it; only with an empty inventory is the
    label parsed from the resource path, the part at index 4 of the split
    on "/" (the fourth segment after the leading slash), and "Unknown"
    when the path has no such part.  When there is a usage row the cost
    row is kept: it is in the cost frame under its label, and its label
    has a row in the cost aggregate and in the project summary, with the
    summed cost of the rows of that label.  When there is no usage row the
    processing block is skipped: the run gives the notice that no data
    was returned, and the cost row is in no cost frame, aggregate or
    summary. *)
Theorem project_label_rule inv df_raw df_cost g usd (c : CostRow) :
  c ∈ df_cost →
  let x := Cost_ResourceId c in
  let label := cost_label inv c in
  let label_cost := sumQ (convert_to_sek usd <$> cost_rows_of inv label df_cost) in
  (inv ≠ [] → ∀ p, id_to_proj inv !! x = Some p → label = p) ∧
  (inv ≠ [] → id_to_proj inv !! x = None → label = "Unknown") ∧
  (inv = [] → ∀ seg, split "/" x !! 4%nat = Some seg → label = seg) ∧
  (inv = [] → split "/" x !! 4%nat = None → label = "Unknown") ∧
  (id_to_proj inv !! x = None ↔ ∀ item, item ∈ inv → inv_id item ≠ x) ∧
  (∀ p, id_to_proj inv !! x = Some p →
        ∃ item, item ∈ inv ∧ inv_id item = x ∧ inv_project item = p) ∧
  (df_raw ≠ [] →
     ∃ d, process inv df_raw df_cost g usd = Some (Rendered d) ∧
       length (df_cost_out d) = length df_cost ∧
       (∃ cr, cr ∈ df_cost_out d ∧ cost cr = c ∧ ProjectName cr = label) ∧
       (∃ a, a ∈ df_cost_agg d ∧ c_ProjectName a = label ∧
             c_Cost_SEK a = label_cost) ∧
       (∃ s, s ∈ df_project_summary d ∧ s_ProjectName s = label ∧
             Cost_SEK s = label_cost)) ∧
  (df_raw = [] →
     process inv df_raw df_cost g usd = Some NoData ∧
     ¬ ∃ d, process inv df_raw df_cost g usd = Some (Rendered d)).
Proof.
  intros Hc x label label_cost.
  set (costed := add_cost_columns inv usd <$> df_cost).
  assert (Hlab : label ∈ ProjectName <$> costed).
  { unfold costed. rewrite ProjectName_costed. by apply list_elem_of_fmap_2. }
  assert (Hcost : costed ≠ []).
  { intros Hnil. rewrite Hnil in Hlab. by apply elem_of_nil in Hlab. }
  split_and!.
  - intros Hinv p Hp. unfold label, cost_label, project_name. fold x.
    destruct inv; [done|]. by rewrite Hp.
  - intros Hinv Hp. unfold label, cost_label, project_name. fold x.
    destruct inv; [done|]. by rewrite Hp.
  - intros -> seg Hs. by apply resource_group_segment_Some.
  - intros -> Hs. by apply resource_group_segment_None.
  - apply id_to_proj_None.
  - apply id_to_proj_Some.
  - intros Hraw. eexists. split; [by apply process_nonempty|].
    unfold render; cbn [df_cost_out df_cost_agg df_project_summary].
    fold costed. split_and!.
    + unfold costed. apply length_fmap.
    + exists (add_cost_columns inv usd c). split; [|done].
      by apply list_elem_of_fmap_2.
    + exists (cost_agg_row costed label). split_and!; [|done|].
      * rewrite df_cost_agg_of_rows. apply list_elem_of_fmap_2.
        by apply elem_of_group_keys_fmap.
      * apply cost_of_label.
    + exists (summary_row costed g df_raw label).
      rewrite df_project_summary_rows by done. split_and!; [|done|].
      * apply elem_of_summary_rows. simpl. auto.
      * unfold summary_row; simpl.
        rewrite bool_decide_eq_true_2 by done. apply cost_of_label.
  - intros ->. rewrite process_empty. split; [done|].
    intros (d & Hd). discriminate Hd.
Qed.

Lemma project_label_rule_witness :
  (∃ d, process inventory_rg_a
          [usage_row "text" "ProcessedPromptTokens" 1000 "gpt-4" "Alpha"]
          [cost_row_rg_b] 475 10.8 = Some (Rendered d) ∧
     ∃ s, s ∈ df_project_summary d ∧ s_ProjectName s = "Unknown" ∧
          Cost_SEK s = sumQ (convert_to_sek 10.8
                               <$> cost_rows_of inventory_rg_a "Unknown"
                                     [cost_row_rg_b])) ∧
  process inventory_rg_a [] [cost_row_rg_b] 475 10.8 = Some NoData.
Proof.
  split.
  - destruct (project_label_rule inventory_rg_a
                [usage_row "text" "ProcessedPromptTokens" 1000 "gpt-4" "Alpha"]
                [cost_row_rg_b] 475 10.8 cost_row_rg_b)
      as (_ & _ & _ & _ & _ & _ & Hkept & _); [left|].
    destruct Hkept as (d & Hd & _ & _ & _ & Hs); [done|].
    by exists d.
  - destruct (project_label_rule inventory_rg_a [] [cost_row_rg_b] 475 10.8
                cost_row_rg_b) as (_ & _ & _ & _ & _ & _ & _ & Hskip); [left|].
    by destruct Hskip as [Hnone _].
Defined.

(** ** Empty input *)

Lemma process_total inv df_raw df_cost g usd :
  is_Some (process inv df_raw df_cost g usd).
Proof.
  destruct df_raw as [|r df]; [by eexists|].
  rewrite process_nonempty by done. by eexists.
Qed.

(** C9, as the claim states it, fails for an input with no usage rows:
    the run gives no summaries and no totals at all, whether or not there
    are cost rows. *)
Lemma no_usage_rows_no_report :
  process [] [] [] 475 10.8 = Some NoData ∧
  process inventory_rg_a [] [cost_row_rg_b] 475 10.8 = Some NoData ∧
  ¬ ∃ d, process inventory_rg_a [] [cost_row_rg_b] 475 10.8 = Some (Rendered d)
         ∧ df_project_summary d = [] ∧ total_cost_sek d == 0
         ∧ total_co2 d == 0 ∧ total_kwh d == 0.
Proof.
  split_and!; [reflexivity..|]. intros (d & Hd & _). discriminate Hd.
Qed.

(** C9, amended. A run never raises.  With usage rows and no cost rows
    the total cost in SEK is 0.0 and every row of the project summary, one
    per project of the usage rows, has the cost 0.0.  With no usage rows
    the aggregation is skipped: the run gives the notice that no data was
    returned, and no summaries or totals. *)
Theorem empty_input_outcome inv df_raw df_cost g usd :
  is_Some (process inv df_raw df_cost g usd) ∧
  (df_raw ≠ [] → df_cost = [] →
     ∃ d, process inv df_raw df_cost g usd = Some (Rendered d) ∧
       total_cost_sek d = 0.0 ∧ total_cost_sek d == 0 ∧
       df_cost_agg d = [] ∧
       (∀ s, s ∈ df_project_summary d → Cost_SEK s = 0.0 ∧ Cost_SEK s == 0) ∧
       (∀ p, p ∈ Project <$> df_raw ↔
             ∃ s, s ∈ df_project_summary d ∧ s_ProjectName s = p)) ∧
  (df_raw = [] → process inv df_raw df_cost g usd = Some NoData).
Proof.
  split_and!.
  - apply process_total.
  - intros Hraw ->. eexists. split; [by apply process_nonempty|].
    unfold render;
      cbn [total_cost_sek df_cost_agg df_project_summary fmap list_fmap].
    rewrite df_project_summary_no_cost. split_and!; try done.
    + intros s (k & -> & _)%list_elem_of_fmap. done.
    + intros p. rewrite <- elem_of_group_keys_fmap. split.
      * intros Hp. exists ((usage_only_summary ∘ usage_agg_row g df_raw) p).
        split; [|done]. by apply list_elem_of_fmap_2.
      * intros (s & (k & -> & Hk)%list_elem_of_fmap & <-). done.
  - intros ->. apply process_empty.
Qed.

Lemma empty_input_outcome_witness :
  ∃ d, process [] [usage_row "text" "ProcessedPromptTokens" 1000 "gpt-4" "p"]
         [] 475 10.8 = Some (Rendered d) ∧
       total_cost_sek d == 0 ∧
       ∀ s, s ∈ df_project_summary d → Cost_SEK s = 0.0 ∧ Cost_SEK s == 0.
Proof.
  destruct (proj1 (proj2 (empty_input_outcome []
              [usage_row "text" "ProcessedPromptTokens" 1000 "gpt-4" "p"]
              [] 475 10.8))) as (d & Hd & _ & Ht & _ & Hs & _); [done..|].
  by exists d.
Defined.

(** ** Group sums of the project summary *)

Lemma sumQ_get_group_absent {A} (key : A → string) (col : A → Q) df k :
  k ∉ key <$> df → sumQ (col <$> get_group key k df) = 0.
Proof.
  intros Hk. rewrite <- elem_of_group_keys_fmap in Hk.
  apply get_group_nil_iff in Hk. by rewrite Hk.
Qed.

Lemma sumQ_summary_Carbon_Total costed g df_raw :
  sumQ (s_Carbon_Total <$> (summary_row costed g df_raw
                              <$> summary_keys costed df_raw))
  == sumQ ((λ r, kwh_of r * g) <$> df_raw).
Proof.
  rewrite <- list_fmap_compose.
  rewrite (sumQ_fmap_ext _
    (λ k, sumQ ((λ r, kwh_of r * g) <$> get_group Project k df_raw))).
  - apply sum_over_keys; [apply NoDup_summary_keys|].
    intros r Hr. apply elem_of_summary_keys. right.
    by apply list_elem_of_fmap_2.
  - intros k _. unfold summary_row, compose. simpl. case_bool_decide; [done|].
    by rewrite sumQ_get_group_absent.
Qed.

Lemma sumQ_summary_Cost_SEK costed g df_raw :
  sumQ (Cost_SEK <$> (summary_row costed g df_raw
                        <$> summary_keys costed df_raw))
  == sumQ (CostSEK <$> costed).
Proof.
  rewrite <- list_fmap_compose.
  rewrite (sumQ_fmap_ext _
    (λ k, sumQ (CostSEK <$> get_group ProjectName k costed))).
  - apply sum_over_keys; [apply NoDup_summary_keys|].
    intros r Hr. apply elem_of_summary_keys. left.
    by apply list_elem_of_fmap_2.
  - intros k _. unfold summary_row, compose. simpl. case_bool_decide; [done|].
    by rewrite sumQ_get_group_absent.
Qed.

Lemma sumQ_project_summary inv (df_raw : list UsageRow) df_cost g usd :
  let d := render inv (enriched g <$> df_raw) df_cost usd in
  sumQ (s_Carbon_Total <$> df_project_summary d) == total_co2 d ∧
  sumQ (Cost_SEK <$> df_project_summary d) == total_cost_sek d.
Proof.
  unfold render; cbn [df_project_summary total_co2 total_cost_sek].
  rewrite Carbon_g_enriched.
  destruct df_cost as [|c df_cost].
  - cbn [fmap list_fmap]. rewrite df_project_summary_no_cost.
    rewrite <- !list_fmap_compose. split.
    + apply (sum_over_keys Project (λ r, kwh_of r * g));
        [apply NoDup_group_keys|].
      intros r Hr. apply elem_of_group_keys. eauto.
    + rewrite (sumQ_fmap_ext _ (λ _, 0)) by done.
      rewrite sumQ_fmap_zero. reflexivity.
  - rewrite df_project_summary_rows by done. split.
    + apply sumQ_summary_Carbon_Total.
    + apply sumQ_summary_Cost_SEK.
Qed.

(** C10. Group sums partition the totals: the carbon of the groups by
    model, and of the groups by project, adds up to the total carbon, the
    values of the groups by model add up to the sum of the values, and for
    any grouping key and any column (carbon, kWh, value) the group sums add
    up to the sum of the column, every row being in the group of its key
    and in no other.  The carbon and the cost of the rows of the project
    summary add up to the total carbon and the total cost as well. *)
Theorem group_sums_partition_totals inv df_raw df_cost g usd :
  df_raw ≠ [] →
  ∃ d, process inv df_raw df_cost g usd = Some (Rendered d) ∧
    sumQ (m_Carbon_g <$> df_model d) == total_co2 d ∧
    sumQ (m_Value <$> df_model d) == sumQ (Value <$> df_raw) ∧
    sumQ (Carbon_Total <$> df_usage_agg d) == total_co2 d ∧
    sumQ (s_Carbon_Total <$> df_project_summary d) == total_co2 d ∧
    sumQ (Cost_SEK <$> df_project_summary d) == total_cost_sek d ∧
    (∀ (key : EnrichedRow → string) (col : EnrichedRow → Q),
       sumQ ((λ kg, sumQ (col <$> kg.2)) <$> groupby key (df_raw_out d))
       == sumQ (col <$> df_raw_out d)) ∧
    (∀ key : EnrichedRow → string,
       sumQ ((λ kg, sumQ (kWh <$> kg.2)) <$> groupby key (df_raw_out d))
       == total_kwh d ∧
       sumQ ((λ kg, sumQ (Carbon_g <$> kg.2)) <$> groupby key (df_raw_out d))
       == total_co2 d) ∧
    (∀ (key : EnrichedRow → string) r, r ∈ df_raw_out d →
       ∃ grp, (key r, grp) ∈ groupby key (df_raw_out d) ∧ r ∈ grp ∧
              ∀ kg, kg ∈ groupby key (df_raw_out d) → r ∈ kg.2 →
                    kg = (key r, grp)).
Proof.
  intros Hne. eexists. split; [by apply process_nonempty|].
  split_and!; [..| apply sumQ_project_summary | apply sumQ_project_summary |
               | | ]; unfold render; simpl.
  - apply sumQ_df_model_Carbon_g.
  - rewrite sumQ_df_model_Value, list_fmap_compose. by rewrite usage_enriched.
  - apply sumQ_df_usage_agg_Carbon_Total.
  - intros key col. apply groupby_sum_partition.
  - intros key. split; apply groupby_sum_partition.
  - intros key r Hr. by apply groupby_one_group.
Qed.

Lemma group_sums_partition_totals_witness :
  ∃ d, process []
         [usage_row "text" "ProcessedPromptTokens" 1000 "gpt-4" "alpha";
          usage_row "image" "GeneratedImages" 2 "dall-e-3" "beta";
          usage_row "text" "GeneratedTokens" 500 "gpt-4" "beta"]
         [] 475 10.8 = Some (Rendered d) ∧
    sumQ (m_Carbon_g <$> df_model d) == total_co2 d ∧
    sumQ (Carbon_Total <$> df_usage_agg d) == total_co2 d.
Proof.
  destruct (group_sums_partition_totals []
              [usage_row "text" "ProcessedPromptTokens" 1000 "gpt-4" "alpha";
               usage_row "image" "GeneratedImages" 2 "dall-e-3" "beta";
               usage_row "text" "GeneratedTokens" 500 "gpt-4" "beta"]
              [] 475 10.8) as (d & Hd & H1 & _ & H3 & _); [done|].
  by exists d.
Defined.


(** ** The rules at concrete rows *)

Lemma calc_kwh_by_usage_type_witness :
  calc_kwh (usage_row "image" "GeneratedImages" 5 "dall-e-3" "p")
  = Some (5 * 0.05) ∧
  calc_kwh (usage_row "text" "ProcessedPromptTokens" 2000 "gpt-4" "p")
  = Some (2000 / 1000 * 0.0004).
Proof.
  split.
  - apply (calc_kwh_by_usage_type
             (usage_row "image" "GeneratedImages" 5 "dall-e-3" "p")).
    reflexivity.
  - apply (calc_kwh_by_usage_type
             (usage_row "text" "ProcessedPromptTokens" 2000 "gpt-4" "p")).
    apply (bool_decide_unpack _). reflexivity.
Defined.

Lemma m_type_ordered_rules_witness :
  is_substring "dall" (lower "DALL-E-3") ∧ m_type "DALL-E-3" = "image".
Proof.
  assert (H : is_substring "dall" (lower "DALL-E-3")).
  { exists EmptyString, "-e-3". reflexivity. }
  split; [exact H|].
  exact (proj1 (m_type_ordered_rules "DALL-E-3") H).
Defined.

Lemma convert_to_sek_by_currency_witness :
  convert_to_sek 10.8 (cost_row 100 "GBP") = 100 * 13.5 ∧
  convert_to_sek 10.8 (cost_row 100 "USD") = 100 * 10.8.
Proof.
  destruct (convert_to_sek_by_currency 10.8 (cost_row 100 "GBP"))
    as (_ & _ & _ & _ & Hgbp & _).
  destruct (convert_to_sek_by_currency 10.8 (cost_row 100 "USD"))
    as (_ & Husd & _).
  split; [apply Hgbp | apply Husd]; reflexivity.
Defined.

(** * Properties of the rest of the script *)

#[local] Set Warnings "-clear-no-such-hyp".

(** ** Splitting a resource path *)

Lemma split_nonempty sep s : split sep s ≠ [].
Proof.
  destruct s as [|c s]; simpl; [done|].
  destruct (Ascii.eqb c sep); [done|]. by destruct (split sep s).
Qed.

Lemma split_cons_sep sep s : split sep (String sep s) = EmptyString :: split sep s.
Proof. simpl. by rewrite Ascii.eqb_refl. Qed.

Lemma split_cons_other sep c s w ws :
  Ascii.eqb c sep = false → split sep s = w :: ws →
  split sep (String c s) = String c w :: ws.
Proof. intros Hc Hs. simpl. by rewrite Hc, Hs. Qed.

Lemma occurs_cons_0 sep c s :
  occurs sep (String c s) = 0%nat ↔ Ascii.eqb c sep = false ∧ occurs sep s = 0%nat.
Proof. simpl. destruct (Ascii.eqb c sep); split; intros; try lia; naive_solver. Qed.

Lemma length_split sep s : length (split sep s) = S (occurs sep s).
Proof.
  induction s as [|c s IH]; [done|]. simpl.
  destruct (Ascii.eqb c sep); simpl; [by rewrite IH|].
  destruct (split sep s) as [|w ws]; [by destruct (split_nonempty sep s)|].
  simpl in *. lia.
Qed.

Lemma split_no_sep sep a : occurs sep a = 0%nat → split sep a = [a].
Proof.
  induction a as [|c a IH]; [done|].
  intros [Hc Ha]%occurs_cons_0. by apply split_cons_other; [|apply IH].
Qed.

Lemma split_app_sep sep a b :
  occurs sep a = 0%nat → split sep (a +:+ String sep b) = a :: split sep b.
Proof.
  induction a as [|c a IH].
  - intros _. apply split_cons_sep.
  - intros [Hc Ha]%occurs_cons_0. rewrite append_cons.
    by apply split_cons_other; [|apply IH].
Qed.

Lemma split_parts_no_sep sep s : Forall (λ p, occurs sep p = 0%nat) (split sep s).
Proof.
  induction s as [|c s IH]; [by repeat constructor|]. simpl.
  destruct (Ascii.eqb c sep) eqn:Hc; [by constructor|].
  destruct (split sep s) as [|w ws] eqn:Hs;
    [by destruct (split_nonempty sep s)|].
  inversion_clear IH. constructor; [|done]. by apply occurs_cons_0.
Qed.

(** Joining the parts with the separator gives the string back. *)
Lemma join_split sep s : join sep (split sep s) = s.
Proof.
  induction s as [|c s IH]; [done|]. simpl.
  destruct (Ascii.eqb c sep) eqn:Hc.
  - apply Ascii.eqb_eq in Hc as ->.
    destruct (split sep s) as [|w ws] eqn:Hs;
      [by destruct (split_nonempty sep s)|].
    change (join sep (EmptyString :: w :: ws))
      with (String sep (join sep (w :: ws))). by rewrite IH.
  - destruct (split sep s) as [|w ws] eqn:Hs;
      [by destruct (split_nonempty sep s)|].
    destruct ws as [|w' ws].
    + simpl in *. by rewrite IH.
    + change (join sep (String c w :: w' :: ws))
        with (String c w +:+ String sep (join sep (w' :: ws))).
      by rewrite append_cons, <- IH.
Qed.

Lemma split_azure_path (sub rg tail : string) :
  occurs "/" sub = 0%nat → occurs "/" rg = 0%nat →
  tail = "" ∨ (∃ rest, tail = String "/" rest) →
  ∃ more,
    split "/" ("/subscriptions/" +:+ sub +:+ "/resourceGroups/" +:+ rg +:+ tail)
    = "" :: "subscriptions" :: sub :: "resourceGroups" :: rg :: more.
Proof.
  intros Hsub Hrg Htail.
  change ("/subscriptions/" +:+ sub +:+ "/resourceGroups/" +:+ rg +:+ tail)
    with ("" +:+ String "/" ("subscriptions" +:+ String "/"
            (sub +:+ String "/" ("resourceGroups" +:+ String "/" (rg +:+ tail))))).
  rewrite !split_app_sep by done.
  destruct Htail as [->|[rest ->]].
  - exists []. replace (rg +:+ "") with rg; [by rewrite split_no_sep|].
    clear. induction rg as [|c rg IH]; [done|]. by rewrite append_cons, <- IH.
  - exists (split "/" rest). by rewrite split_app_sep.
Qed.

(** X1. For a resource path of the form
    /subscriptions/<sub>/resourceGroups/<rg> or
    /subscriptions/<sub>/resourceGroups/<rg>/..., with no slash in <sub>
    and <rg>, the part at index 4 of the split is <rg>: it is the group
    the discovery takes for the account and the label the cost tab gives
    the resource when there is no inventory. *)
Theorem azure_path_resource_group (sub rg tail : string) :
  occurs "/" sub = 0%nat → occurs "/" rg = 0%nat →
  tail = "" ∨ (∃ rest, tail = String "/" rest) →
  let x := "/subscriptions/" +:+ sub +:+ "/resourceGroups/" +:+ rg +:+ tail in
  list_index (split "/" x) 4 = Returned rg ∧
  resource_group_segment x = rg ∧
  project_name [] x = rg.
Proof.
  intros Hsub Hrg Htail x.
  destruct (split_azure_path sub rg tail Hsub Hrg Htail) as [more Hs].
  fold x in Hs.
  assert (Hl : split "/" x !! 4%nat = Some rg) by by rewrite Hs.
  split_and!.
  - unfold list_index. by rewrite Hl.
  - by apply resource_group_segment_Some.
  - by apply resource_group_segment_Some.
Qed.

Lemma azure_path_resource_group_witness :
  resource_group_segment
    ("/subscriptions/" +:+ "s-1" +:+ "/resourceGroups/" +:+ "rd-usecases"
     +:+ "/providers/Microsoft.CognitiveServices/accounts/ai-res-03")
  = "rd-usecases".
Proof.
  apply (azure_path_resource_group "s-1" "rd-usecases"
           "/providers/Microsoft.CognitiveServices/accounts/ai-res-03");
    [reflexivity | reflexivity | right; by eexists].
Defined.

(** X2. A path with fewer than four slashes has no part at index 4: the
    cost tab labels it "Unknown" and the discovery raises IndexError on
    it.  A path with four slashes or more has such a part, which has no
    slash in it, and the cost tab labels the resource with it. *)
Theorem path_part_by_slash_count (x : string) :
  ((occurs "/" x < 4)%nat →
     resource_group_segment x = "Unknown" ∧
     list_index (split "/" x) 4 = Raised "list index out of range") ∧
  ((4 ≤ occurs "/" x)%nat →
     ∃ seg, list_index (split "/" x) 4 = Returned seg ∧
            resource_group_segment x = seg ∧ occurs "/" seg = 0%nat).
Proof.
  pose proof (length_split "/" x) as Hlen. split.
  - intros Hlt.
    assert (Hl : split "/" x !! 4%nat = None) by (apply lookup_ge_None; lia).
    split; [by apply resource_group_segment_None|].
    unfold list_index. by rewrite Hl.
  - intros Hge.
    destruct (lookup_lt_is_Some_2 (split "/" x) 4) as [seg Hl]; [lia|].
    exists seg. split_and!.
    + unfold list_index. by rewrite Hl.
    + by apply resource_group_segment_Some.
    + pose proof (split_parts_no_sep "/" x) as Hall.
      rewrite Forall_forall in Hall. apply Hall.
      by eapply list_elem_of_lookup_2.
Qed.

Lemma path_part_by_slash_count_witness :
  resource_group_segment "/subscriptions/s" = "Unknown" ∧
  ∃ seg, list_index (split "/" "/a/b/c/d/e") 4 = Returned seg ∧
         resource_group_segment "/a/b/c/d/e" = seg ∧ occurs "/" seg = 0%nat.
Proof.
  split.
  - apply (path_part_by_slash_count "/subscriptions/s"). simpl. lia.
  - apply (path_part_by_slash_count "/a/b/c/d/e"). simpl. lia.
Defined.

(** ** The rows of the project summary *)

Lemma cost_rows_of_absent inv p (df_cost : list CostRow) :
  p ∉ cost_label inv <$> df_cost → cost_rows_of inv p df_cost = [].
Proof.
  intros Hp. unfold cost_rows_of.
  destruct (filter _ df_cost) as [|c l] eqn:Hf; [done|].
  exfalso. apply Hp.
  assert (c ∈ filter (λ c, cost_label inv c = p) df_cost) as Hc
    by (rewrite Hf; left).
  apply list_elem_of_filter in Hc as [<- Hc]. by apply list_elem_of_fmap_2.
Qed.

Lemma input_rows_absent p (df_raw : list UsageRow) :
  p ∉ Project <$> df_raw → input_rows p df_raw = [].
Proof.
  intros Hp. unfold input_rows.
  destruct (filter _ df_raw) as [|r l] eqn:Hf; [done|].
  exfalso. apply Hp.
  assert (r ∈ filter (λ r, Project r = p ∧ Metric r = "ProcessedPromptTokens")
                df_raw) as Hr by (rewrite Hf; left).
  apply list_elem_of_filter in Hr as [[<- _] Hr]. by apply list_elem_of_fmap_2.
Qed.

Lemma output_rows_absent p (df_raw : list UsageRow) :
  p ∉ Project <$> df_raw → output_rows p df_raw = [].
Proof.
  intros Hp. unfold output_rows.
  destruct (filter _ df_raw) as [|r l] eqn:Hf; [done|].
  exfalso. apply Hp.
  assert (r ∈ filter (λ r, Project r = p ∧
                           (Metric r = "GeneratedTokens" ∨
                            Metric r = "GeneratedCompletionTokens"))
                df_raw) as Hr by (rewrite Hf; left).
  apply list_elem_of_filter in Hr as [[<- _] Hr]. by apply list_elem_of_fmap_2.
Qed.

Lemma carbon_of_project g (df_raw : list UsageRow) p :
  Carbon_g <$> filter (λ r, Project (usage r) = p) (enriched g <$> df_raw)
  = (λ r, kwh_of r * g) <$> get_group Project p df_raw.
Proof.
  change (filter (λ r, Project (usage r) = p) (enriched g <$> df_raw))
    with (get_group (Project ∘ usage) p (enriched g <$> df_raw)).
  by rewrite get_group_enriched, <- list_fmap_compose.
Qed.

Lemma project_summary_labels inv (df_raw : list UsageRow) df_cost g usd :
  let d := render inv (enriched g <$> df_raw) df_cost usd in
  NoDup (s_ProjectName <$> df_project_summary d) ∧
  ∀ p, p ∈ s_ProjectName <$> df_project_summary d ↔
       p ∈ cost_label inv <$> df_cost ∨ p ∈ Project <$> df_raw.
Proof.
  unfold render; cbn [df_project_summary].
  destruct df_cost as [|c df_cost].
  - cbn [fmap list_fmap]. rewrite df_project_summary_no_cost.
    rewrite <- list_fmap_compose.
    replace (s_ProjectName ∘ (usage_only_summary ∘ usage_agg_row g df_raw)
             <$> group_keys Project df_raw)
      with (group_keys Project df_raw)
      by (symmetry; apply list_fmap_id).
    split; [apply NoDup_group_keys|].
    intros p. rewrite elem_of_group_keys_fmap, elem_of_nil. tauto.
  - rewrite df_project_summary_rows by done.
    rewrite <- list_fmap_compose.
    replace (s_ProjectName ∘ summary_row
               (add_cost_columns inv usd <$> c :: df_cost) g df_raw
             <$> summary_keys (add_cost_columns inv usd <$> c :: df_cost) df_raw)
      with (summary_keys (add_cost_columns inv usd <$> c :: df_cost) df_raw)
      by (symmetry; apply list_fmap_id).
    split; [apply NoDup_summary_keys|].
    intros p. by rewrite elem_of_summary_keys, ProjectName_costed.
Qed.

(** X3. The project summary has one row per project label and no label
    twice; its labels are the labels of the cost rows together with the
    projects of the usage rows. *)
Theorem project_summary_one_row_per_label inv df_raw df_cost g usd :
  df_raw ≠ [] →
  ∃ d, process inv df_raw df_cost g usd = Some (Rendered d) ∧
    NoDup (s_ProjectName <$> df_project_summary d) ∧
    ∀ p, p ∈ s_ProjectName <$> df_project_summary d ↔
         p ∈ cost_label inv <$> df_cost ∨ p ∈ Project <$> df_raw.
Proof.
  intros Hne. eexists. split; [by apply process_nonempty|].
  apply project_summary_labels.
Qed.

Lemma project_summary_one_row_per_label_witness :
  ∃ d, process []
         [usage_row "text" "ProcessedPromptTokens" 1000 "gpt-4" "alpha";
          usage_row "text" "GeneratedTokens" 500 "gpt-4" "alpha"]
         [] 475 10.8 = Some (Rendered d) ∧
    NoDup (s_ProjectName <$> df_project_summary d).
Proof.
  destruct (project_summary_one_row_per_label []
              [usage_row "text" "ProcessedPromptTokens" 1000 "gpt-4" "alpha";
               usage_row "text" "GeneratedTokens" 500 "gpt-4" "alpha"]
              [] 475 10.8) as (d & Hd & Hn & _); [done|].
  by exists d.
Defined.

Lemma project_summary_figures_render inv (df_raw : list UsageRow) df_cost g usd s :
  let d := render inv (enriched g <$> df_raw) df_cost usd in
  s ∈ df_project_summary d →
  let p := s_ProjectName s in
  Cost_SEK s == sumQ (convert_to_sek usd <$> cost_rows_of inv p df_cost) ∧
  s_Carbon_Total s
  == sumQ (Carbon_g <$> filter (λ r, Project (usage r) = p) (df_raw_out d)) ∧
  s_Input_Tokens s == sumQ (Value <$> input_rows p df_raw) ∧
  s_Output_Tokens s == sumQ (Value <$> output_rows p df_raw).
Proof.
  unfold render; cbn [df_project_summary df_raw_out].
  rewrite carbon_of_project.
  destruct df_cost as [|c df_cost].
  - cbn [fmap list_fmap]. rewrite df_project_summary_no_cost.
    intros (k & -> & _)%list_elem_of_fmap. simpl. done.
  - rewrite df_project_summary_rows by done.
    set (costed := add_cost_columns inv usd <$> c :: df_cost).
    intros [_ ->]%elem_of_summary_rows. set (p := s_ProjectName s).
    unfold summary_row. cbn [Cost_SEK s_Carbon_Total s_Input_Tokens
                             s_Output_Tokens s_ProjectName]. split_and!.
    + unfold costed. case_bool_decide as Hc.
      * by rewrite cost_of_label.
      * rewrite ProjectName_costed in Hc. by rewrite cost_rows_of_absent.
    + case_bool_decide as Hu; [done|].
      by rewrite sumQ_get_group_absent.
    + case_bool_decide as Hu; [done|]. by rewrite input_rows_absent.
    + case_bool_decide as Hu; [done|]. by rewrite output_rows_absent.
Qed.

(** X4. Every row of the project summary carries the figures of its
    label and nothing else: its cost is the sum of the SEK costs of the
    cost rows with that label, its carbon the sum of the carbon of the
    usage rows of that project, its input and output tokens the sums of
    the values of that project's input and output rows; a side with no
    row for the label gives 0. *)
Theorem project_summary_figures inv df_raw df_cost g usd :
  df_raw ≠ [] →
  ∃ d, process inv df_raw df_cost g usd = Some (Rendered d) ∧
    ∀ s, s ∈ df_project_summary d →
      let p := s_ProjectName s in
      Cost_SEK s == sumQ (convert_to_sek usd <$> cost_rows_of inv p df_cost) ∧
      s_Carbon_Total s
      == sumQ (Carbon_g <$> filter (λ r, Project (usage r) = p) (df_raw_out d)) ∧
      s_Input_Tokens s == sumQ (Value <$> input_rows p df_raw) ∧
      s_Output_Tokens s == sumQ (Value <$> output_rows p df_raw).
Proof.
  intros Hne. eexists. split; [by apply process_nonempty|].
  intros s Hs. by apply project_summary_figures_render.
Qed.

Lemma project_summary_figures_witness :
  ∃ d, process inventory_rg_a
         [usage_row "text" "ProcessedPromptTokens" 1000 "gpt-4" "Alpha"]
         [cost_row_rg_b] 475 10.8 = Some (Rendered d) ∧
    ∀ s, s ∈ df_project_summary d →
      s_Input_Tokens s
      == sumQ (Value <$> input_rows (s_ProjectName s)
                 [usage_row "text" "ProcessedPromptTokens" 1000 "gpt-4" "Alpha"]).
Proof.
  destruct (project_summary_figures inventory_rg_a
              [usage_row "text" "ProcessedPromptTokens" 1000 "gpt-4" "Alpha"]
              [cost_row_rg_b] 475 10.8) as (d & Hd & Hs); [done|].
  exists d. split; [done|]. intros s Hin. by apply Hs.
Defined.

(** ** Energy: volume and sign *)

(** The factor [calc_kwh] applies to the value of a row of a type. *)
Lemma kwh_of_factor (t : string) :
  ∃ f, 0 < f ∧ ∀ row, Type_ row = t → kwh_of row == Value row * f.
Proof.
  destruct (decide (t = "image")) as [->|N1].
  { exists 0.05. split; [done|]. intros row Ht.
    unfold kwh_of. by rewrite calc_kwh_image. }
  destruct (decide (t = "reasoning")) as [->|N2].
  { exists (0.0015 / 1000). split; [done|]. intros row Ht.
    unfold kwh_of. rewrite calc_kwh_reasoning by done. simpl. field. }
  destruct (decide (t = "embedding")) as [->|N3].
  { exists (0.0001 / 1000). split; [done|]. intros row Ht.
    unfold kwh_of. rewrite calc_kwh_embedding by done. simpl. field. }
  exists (0.0004 / 1000). split; [done|]. intros row Ht.
  unfold kwh_of. rewrite calc_kwh_standard by (rewrite Ht; not_in_list).
  simpl. field.
Qed.

Lemma sumQ_kwh_of_same_type (t : string) (f : Q) (rows : list UsageRow) :
  (∀ row, Type_ row = t → kwh_of row == Value row * f) →
  (∀ row, row ∈ rows → Type_ row = t) →
  sumQ (kwh_of <$> rows) == sumQ (Value <$> rows) * f.
Proof.
  intros Hf Ht. rewrite <- sumQ_fmap_scale.
  apply sumQ_fmap_ext. intros row Hrow. by apply Hf, Ht.
Qed.

(** X5. The energy of a frame whose rows all have one usage type depends
    on the summed value only: the total kWh is what [calc_kwh] gives for
    one row of that type carrying the sum of the values, so the hourly
    split of the samples does not change the energy. *)
Theorem energy_of_summed_volume inv df_raw df_cost g usd (t : string)
    (r : UsageRow) :
  df_raw ≠ [] → (∀ row, row ∈ df_raw → Type_ row = t) →
  Type_ r = t → Value r == sumQ (Value <$> df_raw) →
  ∃ d k, process inv df_raw df_cost g usd = Some (Rendered d) ∧
         calc_kwh r = Some k ∧ total_kwh d == k ∧ total_co2 d == k * g.
Proof.
  intros Hne Hall Ht Hv. exists (render inv (enriched g <$> df_raw) df_cost usd),
    (kwh_of r).
  split; [by apply process_nonempty|]. split; [apply calc_kwh_kwh_of|].
  destruct (kwh_of_factor t) as (f & _ & Hf).
  unfold render; cbn [total_kwh total_co2].
  rewrite kWh_enriched, Carbon_g_enriched, sumQ_carbon_scale.
  rewrite (sumQ_kwh_of_same_type t f) by done.
  rewrite (Hf r) by done. rewrite Hv. done.
Qed.

Lemma energy_of_summed_volume_witness :
  ∃ d k, process []
           [usage_row "text" "ProcessedPromptTokens" 1000 "gpt-4" "p";
            usage_row "text" "GeneratedTokens" 500 "gpt-4" "p"]
           [] 475 10.8 = Some (Rendered d) ∧
         calc_kwh (usage_row "text" "GeneratedTokens" 1500 "gpt-4" "p") = Some k ∧
         total_kwh d == k ∧ total_co2 d == k * 475.
Proof.
  apply (energy_of_summed_volume [] _ [] 475 10.8 "text"
           (usage_row "text" "GeneratedTokens" 1500 "gpt-4" "p")).
  - done.
  - intros row [->|[->|[]%elem_of_nil]%elem_of_cons]%elem_of_cons; reflexivity.
  - reflexivity.
  - reflexivity.
Defined.

Lemma sumQ_pos (l : list Q) : l ≠ [] → Forall (λ x, 0 < x) l → 0 < sumQ l.
Proof.
  intros Hne Hall. induction Hall as [|x l Hx Hall IH]; [done|].
  rewrite sumQ_cons. destruct l as [|y l].
  - change (0 < x + 0). by rewrite Qplus_0_r.
  - apply Qlt_trans with (0 + sumQ (y :: l)).
    + rewrite Qplus_0_l. by apply IH.
    + apply Qplus_lt_l. done.
Qed.

Lemma sumQ_nonneg (l : list Q) : Forall (λ x, 0 <= x) l → 0 <= sumQ l.
Proof.
  induction 1 as [|x l Hx _ IH]; [done|].
  rewrite sumQ_cons. apply (Qplus_le_compat 0 x 0 (sumQ l)); done.
Qed.

Lemma kwh_of_pos row : 0 < Value row → 0 < kwh_of row.
Proof.
  intros Hv. destruct (kwh_of_factor (Type_ row)) as (f & Hf & Heq).
  rewrite Heq by done. by apply Qmult_lt_0_compat.
Qed.

(** X6. When every usage row has a positive value, as the rows of the
    metrics fetch have, and the grid intensity is not negative, every
    row has positive energy and carbon that is not negative, the total
    energy is positive, and the total carbon, the tree-days and the
    carbon of every model are not negative. *)
Theorem positive_usage_positive_energy inv df_raw df_cost g usd :
  df_raw ≠ [] → (∀ row, row ∈ df_raw → 0 < Value row) → 0 <= g →
  ∃ d, process inv df_raw df_cost g usd = Some (Rendered d) ∧
    (∀ r, r ∈ df_raw_out d → 0 < kWh r ∧ 0 <= Carbon_g r) ∧
    0 < total_kwh d ∧ 0 <= total_co2 d ∧ 0 <= tree_days d ∧
    (∀ m, m ∈ df_model d → 0 <= m_Carbon_g m ∧ 0 < m_Value m).
Proof.
  intros Hne Hpos Hg. eexists. split; [by apply process_nonempty|].
  assert (Hrow : ∀ r, r ∈ enriched g <$> df_raw → 0 < kWh r ∧ 0 <= Carbon_g r).
  { intros r (row & -> & Hrow)%list_elem_of_fmap. simpl.
    pose proof (kwh_of_pos row (Hpos row Hrow)) as Hk. split; [done|].
    apply Qmult_le_0_compat; [by apply Qlt_le_weak | done]. }
  assert (Hco2 : 0 <= sumQ (Carbon_g <$> (enriched g <$> df_raw))).
  { apply sumQ_nonneg, Forall_fmap, Forall_forall. intros r Hr.
    by apply Hrow. }
  unfold render; cbn [df_raw_out total_kwh total_co2 tree_days df_model].
  split_and!.
  - done.
  - apply sumQ_pos; [by destruct df_raw|].
    apply Forall_fmap, Forall_forall. intros r Hr. by apply Hrow.
  - done.
  - unfold GRAMS_CO2_PER_TREE_DAY, Qdiv.
    apply Qmult_le_0_compat; [done|]. by apply Qinv_le_0_compat.
  - intros m. rewrite df_model_of_enriched.
    intros (k & -> & Hk)%list_elem_of_fmap. simpl. split.
    + apply sumQ_nonneg, Forall_fmap, Forall_forall. intros row Hr.
      apply elem_of_get_group in Hr as [_ Hr].
      apply Qmult_le_0_compat; [|done].
      by apply Qlt_le_weak, kwh_of_pos, Hpos.
    + apply sumQ_pos.
      * apply elem_of_group_keys in Hk as (row & Hrow' & Hkey).
        assert (row ∈ get_group Model k df_raw) as Hin
          by by apply elem_of_get_group.
        intros Hnil%fmap_nil_inv. rewrite Hnil in Hin.
        by apply elem_of_nil in Hin.
      * apply Forall_fmap, Forall_forall. intros row Hr.
        apply elem_of_get_group in Hr as [_ Hr]. by apply Hpos.
Qed.

Lemma positive_usage_positive_energy_witness :
  ∃ d, process [] [usage_row "image" "GeneratedImages" 2 "dall-e-3" "p"]
         [] 20 10.8 = Some (Rendered d) ∧
       0 < total_kwh d ∧ 0 <= total_co2 d.
Proof.
  destruct (positive_usage_positive_energy []
              [usage_row "image" "GeneratedImages" 2 "dall-e-3" "p"] [] 20 10.8)
    as (d & Hd & _ & Hk & Hc & _).
  - done.
  - intros row [->|[]%elem_of_nil]%elem_of_cons. reflexivity.
  - discriminate.
  - by exists d.
Defined.

(** ** The total cost and the USD rate *)

Lemma convert_to_sek_USD usd c :
  OriginalCurrency c = "USD" → convert_to_sek usd c = ActualCost c * usd.
Proof. intros Hc. unfold convert_to_sek. by rewrite Hc. Qed.

Lemma convert_to_sek_table usd c :
  OriginalCurrency c ≠ "USD" →
  convert_to_sek usd c
  == ActualCost c * default 1.0 (EXCHANGE_RATES_TO_SEK !! OriginalCurrency c).
Proof.
  intros Hc. unfold convert_to_sek.
  destruct (decide (OriginalCurrency c = "SEK")) as [->|N1].
  { change (ActualCost c == ActualCost c * 1.0). field. }
  rewrite decide_False by done.
  destruct (decide (OriginalCurrency c = "EUR")) as [->|N2]; done.
Qed.

Lemma sumQ_filter_split {A} (P : A → Prop) `{!∀ x, Decision (P x)}
    (f : A → Q) (l : list A) :
  sumQ (f <$> l)
  == sumQ (f <$> filter P l) + sumQ (f <$> filter (λ x, ¬ P x) l).
Proof.
  induction l as [|x l IH]; [reflexivity|].
  rewrite !filter_cons, fmap_cons, sumQ_cons, IH.
  destruct (decide (P x)) as [Hx|Hx].
  - rewrite decide_False by tauto. rewrite fmap_cons, sumQ_cons. ring.
  - rewrite decide_True by done. rewrite fmap_cons, sumQ_cons. ring.
Qed.

(** X7. The total cost in SEK is the USD rate of the sidebar times the
    summed amounts of the USD rows, plus, for every other row, its amount
    times the rate of the static table for its currency (1.0 when the
    table does not list it): the USD rate of the table is never used,
    and a change of the sidebar rate moves the USD rows only. *)
Theorem total_cost_by_currency inv df_raw df_cost g usd :
  df_raw ≠ [] →
  ∃ d, process inv df_raw df_cost g usd = Some (Rendered d) ∧
    total_cost_sek d
    == usd * sumQ (ActualCost
                     <$> filter (λ c, OriginalCurrency c = "USD") df_cost)
       + sumQ ((λ c, ActualCost c
                     * default 1.0
                         (EXCHANGE_RATES_TO_SEK !! OriginalCurrency c))
               <$> filter (λ c, OriginalCurrency c ≠ "USD") df_cost).
Proof.
  intros Hne. eexists. split; [by apply process_nonempty|].
  unfold render; cbn [total_cost_sek].
  assert (Hsum : sumQ (CostSEK <$> (add_cost_columns inv usd <$> df_cost))
                 == sumQ (convert_to_sek usd <$> df_cost)).
  { by rewrite <- list_fmap_compose. }
  assert (Htot : (match df_cost with
                  | [] => 0.0
                  | _ :: _ => sumQ (CostSEK <$> (add_cost_columns inv usd
                                                   <$> df_cost))
                  end) == sumQ (convert_to_sek usd <$> df_cost)).
  { destruct df_cost; [reflexivity | exact Hsum]. }
  rewrite Htot.
  rewrite (sumQ_filter_split (λ c, OriginalCurrency c = "USD")).
  rewrite (sumQ_fmap_ext (convert_to_sek usd) (λ c, ActualCost c * usd)
             (filter (λ c, OriginalCurrency c = "USD") df_cost)).
  - rewrite sumQ_fmap_scale.
    rewrite (sumQ_fmap_ext (convert_to_sek usd)
               (λ c, ActualCost c
                     * default 1.0
                         (EXCHANGE_RATES_TO_SEK !! OriginalCurrency c))
               (filter (λ c, OriginalCurrency c ≠ "USD") df_cost)).
    + ring.
    + intros c [Hc _]%list_elem_of_filter. by apply convert_to_sek_table.
  - intros c [Hc _]%list_elem_of_filter. by rewrite convert_to_sek_USD.
Qed.

Lemma total_cost_by_currency_witness :
  ∃ d, process [] [usage_row "text" "GeneratedTokens" 500 "gpt-4" "p"]
         [cost_row 100 "USD"; cost_row 10 "GBP"; cost_row 7 "SEK"] 475 11
       = Some (Rendered d) ∧
    total_cost_sek d == 11 * 100 + (10 * 13.5 + 7).
Proof.
  destruct (total_cost_by_currency []
              [usage_row "text" "GeneratedTokens" 500 "gpt-4" "p"]
              [cost_row 100 "USD"; cost_row 10 "GBP"; cost_row 7 "SEK"] 475 11)
    as (d & Hd & Ht); [done|].
  exists d. split; [done|]. rewrite Ht. reflexivity.
Defined.

(** ** The features tab *)

Lemma df_text_img_Permutation (rows : list EnrichedRow) :
  (∀ r, r ∈ rows →
     Metric (usage r)
     ∈ ["ProcessedPromptTokens"; "GeneratedTokens"; "GeneratedImages"]) →
  df_text_of rows ++ df_img_of rows ≡ₚ rows.
Proof.
  unfold df_text_of, df_img_of. induction rows as [|r rows IH]; intros Hm.
  - reflexivity.
  - assert (IH' := IH (λ x Hx, Hm x (list_elem_of_further _ _ _ Hx))).
    assert (Hr := Hm r (list_elem_of_here _ _)).
    rewrite !filter_cons.
    rewrite !elem_of_cons, elem_of_nil in Hr.
    destruct Hr as [Hr|[Hr|[Hr|[]]]].
    + rewrite decide_True by (rewrite Hr; set_unfold; tauto).
      rewrite decide_False by (by rewrite Hr). simpl. by rewrite IH'.
    + rewrite decide_True by (rewrite Hr; set_unfold; tauto).
      rewrite decide_False by (by rewrite Hr). simpl. by rewrite IH'.
    + rewrite decide_False
        by (rewrite Hr; intros Hin; rewrite !elem_of_cons, elem_of_nil in Hin;
            destruct Hin as [?|[?|[]]]; discriminate).
      rewrite decide_True by done.
      rewrite <- Permutation_middle. by rewrite IH'.
Qed.

(** X8. The features tab splits the usage rows by metric: no row is in
    both the text chart and the image chart, and when every metric is one
    of the three the fetch asks for, each row is in exactly one of them.
    A GeneratedCompletionTokens row is in neither chart, although the
    project summary counts it as output tokens. *)
Theorem features_tab_split (rows : list EnrichedRow) :
  (∀ r, r ∈ df_text_of rows → r ∉ df_img_of rows) ∧
  ((∀ r, r ∈ rows →
      Metric (usage r)
      ∈ ["ProcessedPromptTokens"; "GeneratedTokens"; "GeneratedImages"]) →
   (df_text_of rows ++ df_img_of rows) ≡ₚ rows) ∧
  (∀ r, Metric (usage r) = "GeneratedCompletionTokens" →
     (r ∉ df_text_of rows) ∧ (r ∉ df_img_of rows) ∧ is_output_metric r).
Proof.
  split_and!.
  - unfold df_text_of, df_img_of.
    intros r [Ht _]%list_elem_of_filter [Hi _]%list_elem_of_filter.
    rewrite Hi in Ht. rewrite !elem_of_cons, elem_of_nil in Ht.
    destruct Ht as [?|[?|[]]]; discriminate.
  - apply df_text_img_Permutation.
  - intros r Hm. unfold df_text_of, df_img_of, is_output_metric. split_and!.
    + intros [Ht _]%list_elem_of_filter. rewrite Hm in Ht.
      rewrite !elem_of_cons, elem_of_nil in Ht.
      destruct Ht as [?|[?|[]]]; discriminate.
    + intros [Hi _]%list_elem_of_filter. by rewrite Hm in Hi.
    + rewrite Hm, !elem_of_cons. tauto.
Qed.

Lemma features_tab_split_witness :
  df_text_of [enriched 475 (usage_row "text" "GeneratedTokens" 5 "gpt-4" "p");
              enriched 475 (usage_row "image" "GeneratedImages" 2 "dall-e-3" "p")]
  ++ df_img_of [enriched 475 (usage_row "text" "GeneratedTokens" 5 "gpt-4" "p");
                enriched 475 (usage_row "image" "GeneratedImages" 2 "dall-e-3" "p")]
  ≡ₚ [enriched 475 (usage_row "text" "GeneratedTokens" 5 "gpt-4" "p");
      enriched 475 (usage_row "image" "GeneratedImages" 2 "dall-e-3" "p")].
Proof.
  apply (proj1 (proj2 (features_tab_split _))).
  intros r [->|[->|[]%elem_of_nil]%elem_of_cons]%elem_of_cons;
    apply (bool_decide_unpack _); reflexivity.
Defined.

(** ** Discovery: the scan for accounts *)

Lemma truthy_Some o s : truthy o = Some s ↔ o = Some s ∧ s ≠ "".
Proof.
  unfold truthy. destruct o as [s'|]; [|naive_solver].
  destruct (decide (s' = "")); naive_solver.
Qed.

Lemma truthy_None o : truthy o = None ↔ o = None ∨ o = Some "".
Proof.
  unfold truthy. destruct o as [s'|]; [|naive_solver].
  destruct (decide (s' = "")); naive_solver.
Qed.

Lemma scan_resource_Some res a :
  scan_resource res = Returned (Some a) ↔
  ∃ kind rg, res_kind res = KindStr kind ∧
    (is_substring "OpenAI" kind ∨ is_substring "CognitiveServices" kind) ∧
    split "/" (res_id res) !! 4%nat = Some rg ∧ a = account_of res rg.
Proof.
  unfold scan_resource, list_index, account_of.
  destruct (res_kind res) as [| |kind]; [naive_solver..|].
  destruct (contains "OpenAI" kind || contains "CognitiveServices" kind) eqn:Hk.
  - apply orb_true_iff in Hk. rewrite !contains_spec in Hk.
    destruct (split "/" (res_id res) !! 4%nat) as [rg|] eqn:Hrg; simpl.
    + split.
      * intros [= <-]. exists kind, rg. done.
      * intros (kind' & rg' & [= <-] & _ & [= <-] & ->). done.
    + split; [done|]. intros (? & ? & _ & _ & ? & _). done.
  - apply orb_false_iff in Hk. rewrite !contains_false in Hk.
    split; [done|]. intros (kind' & rg' & [= <-] & Hs & _). tauto.
Qed.

Lemma scan_resource_Raised res e :
  scan_resource res = Raised e ↔
  (res_kind res = KindNone ∧ e = "argument of type 'NoneType' is not iterable")
  ∨ (∃ kind, res_kind res = KindStr kind ∧
       (is_substring "OpenAI" kind ∨ is_substring "CognitiveServices" kind) ∧
       (occurs "/" (res_id res) < 4)%nat ∧ e = "list index out of range").
Proof.
  unfold scan_resource, list_index.
  destruct (res_kind res) as [| |kind]; [naive_solver..|].
  pose proof (length_split "/" (res_id res)) as Hlen.
  destruct (contains "OpenAI" kind || contains "CognitiveServices" kind) eqn:Hk.
  - apply orb_true_iff in Hk. rewrite !contains_spec in Hk.
    destruct (split "/" (res_id res) !! 4%nat) as [rg|] eqn:Hrg; simpl.
    + apply lookup_lt_Some in Hrg. split; [done|].
      intros [[? _]|(? & _ & _ & ? & _)]; [done | lia].
    + apply lookup_ge_None in Hrg. split.
      * intros [= <-]. right. exists kind. split_and!; [done..|lia|done].
      * intros [[? _]|(? & _ & _ & _ & ->)]; done.
  - apply orb_false_iff in Hk. rewrite !contains_false in Hk.
    split; [done|]. intros [[? _]|(kind' & [= <-] & Hs & _)]; [done | tauto].
Qed.

Lemma scan_resources_found rs e a :
  a ∈ (scan_resources rs e).1 →
  ∃ res, res ∈ rs ∧ scan_resource res = Returned (Some a).
Proof.
  induction rs as [|res rs IH]; simpl; [by intros ?%elem_of_nil|].
  destruct (scan_resource res) as [[acct|]|msg] eqn:Hres; simpl.
  - intros [->|Ha]%elem_of_cons.
    + exists res. split; [left | done].
    + destruct (IH Ha) as (res' & Hin & Hs). exists res'. split; [by right|done].
  - intros Ha. destruct (IH Ha) as (res' & Hin & Hs).
    exists res'. split; [by right|done].
  - by intros ?%elem_of_nil.
Qed.

Lemma scan_resources_stop rs1 bad rs2 e msg :
  scan_resource bad = Raised msg →
  scan_resources (rs1 ++ bad :: rs2) e = scan_resources rs1 (Some msg).
Proof.
  intros Hbad. induction rs1 as [|res rs1 IH]; simpl; [by rewrite Hbad|].
  destruct (scan_resource res) as [[acct|]|msg']; by rewrite ?IH.
Qed.

Lemma scan_resources_all rs e :
  (∀ res, res ∈ rs → ∃ o, scan_resource res = Returned o) →
  (scan_resources rs e).2 = e ∧
  ∀ res a, res ∈ rs → scan_resource res = Returned (Some a) →
           a ∈ (scan_resources rs e).1.
Proof.
  induction rs as [|res rs IH]; intros Hok; simpl.
  - split; [done|]. by intros ? ? ?%elem_of_nil.
  - destruct (IH (λ r Hr, Hok r (list_elem_of_further _ _ _ Hr))) as [He Hin].
    destruct (Hok res (list_elem_of_here _ _)) as [o Ho]. rewrite Ho.
    destruct o as [acct|]; simpl; (split; [done|]).
    + intros res' a [->|Hr]%elem_of_cons Hs.
      * rewrite Ho in Hs. injection Hs as ->. left.
      * right. by eapply Hin.
    + intros res' a [->|Hr]%elem_of_cons Hs.
      * rewrite Ho in Hs. done.
      * by eapply Hin.
Qed.

(** X9. Every account the scan finds is a listed resource whose kind
    contains OpenAI or CognitiveServices: it has the id and the name of
    the resource, its group is the part at index 4 of the id, and its
    project is read from the tags of the resource.  The listing is the one
    of the resource group when a non-empty group is given, the one of the
    subscription otherwise. *)
Theorem found_accounts_are_listed_resources lbrg la rgo (a : Acct) :
  a ∈ (find_accounts lbrg la rgo).1 →
  ∃ res kind,
    res ∈ yielded (scanned_listing lbrg la rgo) ∧
    res_kind res = KindStr kind ∧
    (is_substring "OpenAI" kind ∨ is_substring "CognitiveServices" kind) ∧
    acct_id a = res_id res ∧ acct_name a = res_name res ∧
    list_index (split "/" (res_id res)) 4 = Returned (acct_group a) ∧
    occurs "/" (acct_group a) = 0%nat ∧
    acct_project a
    = project_of_tags (default ∅ (res_tags res)) (acct_group a).
Proof.
  unfold find_accounts, scanned_listing. cbn [fst].
  destruct (truthy rgo) as [rg|]; cbn [snd];
    intros (res & Hin & (kind & g & Hk & Hs & Hg & ->)%scan_resource_Some)
             %scan_resources_found;
    exists res, kind; simpl; unfold list_index; rewrite Hg;
    (split_and!; [done..| |done]);
    (pose proof (split_parts_no_sep "/" (res_id res)) as Hall;
     rewrite Forall_forall in Hall; apply Hall;
     by eapply list_elem_of_lookup_2).
Qed.

Lemma found_accounts_are_listed_resources_witness :
  ∃ res kind,
    res ∈ yielded (scanned_listing (λ _, {| yielded := []; iter_raised := None |})
                     {| yielded :=
                          [{| res_id := "/subscriptions/s/resourceGroups/rg-a/providers/Microsoft.CognitiveServices/accounts/acct1";
                              res_name := "acct1"; res_kind := KindStr "OpenAI";
                              res_tags := None |}];
                        iter_raised := None |} None) ∧
    res_kind res = KindStr kind ∧ res_name res = "acct1".
Proof.
  destruct (found_accounts_are_listed_resources
              (λ _, {| yielded := []; iter_raised := None |})
              {| yielded :=
                   [{| res_id := "/subscriptions/s/resourceGroups/rg-a/providers/Microsoft.CognitiveServices/accounts/acct1";
                       res_name := "acct1"; res_kind := KindStr "OpenAI";
                       res_tags := None |}];
                 iter_raised := None |} None
              (account_of
                 {| res_id := "/subscriptions/s/resourceGroups/rg-a/providers/Microsoft.CognitiveServices/accounts/acct1";
                    res_name := "acct1"; res_kind := KindStr "OpenAI";
                    res_tags := None |} "rg-a"))
    as (res & kind & Hin & Hk & _ & _ & Hn & _); [left|].
  exists res, kind. split_and!; [done..|]. by rewrite <- Hn.
Defined.

(** X10. The project of an account is the value of the first of the
    tags DigitalProduct, Project and Application that is there and not
    empty, an empty value being passed over like a missing tag, and the
    resource group when none is; it is empty only when the resource group
    is. *)
Theorem project_tag_precedence (tags : gmap string string) (rg : string) :
  let absent k := tags !! k = None ∨ tags !! k = Some "" in
  (∀ p, tags !! "DigitalProduct" = Some p → p ≠ "" →
        project_of_tags tags rg = p) ∧
  (∀ p, absent "DigitalProduct" → tags !! "Project" = Some p → p ≠ "" →
        project_of_tags tags rg = p) ∧
  (∀ p, absent "DigitalProduct" → absent "Project" →
        tags !! "Application" = Some p → p ≠ "" →
        project_of_tags tags rg = p) ∧
  (absent "DigitalProduct" → absent "Project" → absent "Application" →
     project_of_tags tags rg = rg) ∧
  (project_of_tags tags rg = "" → rg = "").
Proof.
  intros absent. unfold project_of_tags. split_and!.
  - intros p Hp Hne. by rewrite (proj2 (truthy_Some _ p)).
  - intros p Hd%truthy_None Hp Hne. rewrite Hd.
    by rewrite (proj2 (truthy_Some _ p)).
  - intros p Hd%truthy_None Hj%truthy_None Hp Hne. rewrite Hd, Hj.
    by rewrite (proj2 (truthy_Some _ p)).
  - intros Hd%truthy_None Hj%truthy_None Ha%truthy_None.
    by rewrite Hd, Hj, Ha.
  - destruct (truthy (tags !! "DigitalProduct")) as [p|] eqn:Hd.
    { apply truthy_Some in Hd as [_ Hne]. by intros ->. }
    destruct (truthy (tags !! "Project")) as [p|] eqn:Hj.
    { apply truthy_Some in Hj as [_ Hne]. by intros ->. }
    destruct (truthy (tags !! "Application")) as [p|] eqn:Ha; [|done].
    apply truthy_Some in Ha as [_ Hne]. by intros ->.
Qed.

Lemma project_tag_precedence_witness :
  project_of_tags (<["DigitalProduct" := ""]> (<["Project" := "volvogpt"]> ∅))
    "rg-a" = "volvogpt".
Proof.
  apply (proj1 (proj2 (project_tag_precedence
           (<["DigitalProduct" := ""]> (<["Project" := "volvogpt"]> ∅)) "rg-a")));
    [right; reflexivity | reflexivity | done].
Defined.

(** X11. The scan stops at the first resource that raises: a resource
    whose kind is [None], or one of a matching kind whose id has fewer
    than four slashes.  The accounts found before it are kept, the
    resources listed after it are never looked at, and the message of the
    exception is logged. *)
Theorem scan_stops_at_first_error lbrg (rs1 rs2 : list Resource)
    (bad : Resource) (raised : option string) :
  res_kind bad = KindNone ∨
  (∃ kind, res_kind bad = KindStr kind ∧
     (is_substring "OpenAI" kind ∨ is_substring "CognitiveServices" kind) ∧
     (occurs "/" (res_id bad) < 4)%nat) →
  ∃ msg,
    scan_resource bad = Raised msg ∧
    find_accounts lbrg {| yielded := rs1 ++ bad :: rs2; iter_raised := raised |}
      None
    = find_accounts lbrg {| yielded := rs1; iter_raised := Some msg |} None ∧
    (∀ a, a ∈ (find_accounts lbrg
                 {| yielded := rs1 ++ bad :: rs2; iter_raised := raised |}
                 None).1 →
          ∃ res, res ∈ rs1 ∧ scan_resource res = Returned (Some a)) ∧
    ∃ e, "Error scanning resources: " +:+ e
         ∈ (find_accounts lbrg
              {| yielded := rs1 ++ bad :: rs2; iter_raised := raised |} None).2.
Proof.
  intros Hbad.
  assert (∃ msg, scan_resource bad = Raised msg) as [msg Hmsg].
  { destruct Hbad as [Hk|(kind & Hk & Hs & Hlt)]; eexists;
      apply scan_resource_Raised; [left | right]; eauto 10. }
  exists msg. split; [done|].
  assert (Heq : find_accounts lbrg
                  {| yielded := rs1 ++ bad :: rs2; iter_raised := raised |} None
                = find_accounts lbrg
                    {| yielded := rs1; iter_raised := Some msg |} None).
  { unfold find_accounts. simpl. by rewrite (scan_resources_stop _ _ _ _ msg). }
  split; [done|]. rewrite Heq. split.
  - intros a Ha. unfold find_accounts in Ha. simpl in Ha.
    by apply scan_resources_found in Ha.
  - unfold find_accounts. cbn [truthy fst snd yielded iter_raised].
    clear. induction rs1 as [|res rs1 IH]; simpl.
    + exists msg. right. left.
    + destruct (scan_resource res) as [[acct|]|msg'] eqn:Hres; simpl.
      * exact IH.
      * exact IH.
      * exists msg'. right. left.
Qed.

Lemma scan_stops_at_first_error_witness :
  find_accounts (λ _, {| yielded := []; iter_raised := None |})
    {| yielded :=
         [] ++ {| res_id := "/short"; res_name := "x";
                  res_kind := KindStr "OpenAI"; res_tags := None |}
            :: [{| res_id := "/subscriptions/s/resourceGroups/rg-a/providers/p/accounts/acct1";
                   res_name := "acct1"; res_kind := KindStr "OpenAI";
                   res_tags := None |}];
       iter_raised := None |} None
  = ([], ["Scanning Subscription for OpenAI accounts...";
          "Error scanning resources: list index out of range"]).
Proof.
  destruct (scan_stops_at_first_error
              (λ _, {| yielded := []; iter_raised := None |}) []
              [{| res_id := "/subscriptions/s/resourceGroups/rg-a/providers/p/accounts/acct1";
                  res_name := "acct1"; res_kind := KindStr "OpenAI";
                  res_tags := None |}]
              {| res_id := "/short"; res_name := "x";
                 res_kind := KindStr "OpenAI"; res_tags := None |} None)
    as (msg & Hmsg & Heq & _).
  - right. exists "OpenAI". split_and!; [done| |simpl; lia].
    left. by exists EmptyString, EmptyString.
  - rewrite Heq. injection Hmsg as <-. reflexivity.
Defined.

(** ** Discovery: the entries of the accounts *)

Lemma elem_of_inventory_of_account acct depts item :
  item ∈ inventory_of_account acct depts ↔
  (depts = [] ∧ item = aggregated_entry acct) ∨
  ∃ d, d ∈ depts ∧
    item = {| inv_id := acct_id acct; inv_name := acct_name acct;
              inv_group := acct_group acct; inv_project := acct_project acct;
              inv_deployment_name := deployment_name d;
              inv_model_name := model_name d;
              inv_type := m_type (model_name d) |}.
Proof.
  unfold inventory_of_account, aggregated_entry. destruct depts as [|d0 depts].
  - rewrite list_elem_of_singleton. split; [by left|].
    intros [[_ ->]|(d & []%elem_of_nil & _)]. done.
  - rewrite list_elem_of_fmap. split.
    + intros (d & -> & Hd). right. by exists d.
    + intros [[? _]|(d & Hd & ->)]; [done|]. by exists d.
Qed.

Lemma inventory_of_account_nonempty acct depts :
  inventory_of_account acct depts ≠ [].
Proof. by destruct depts. Qed.

Lemma m_type_four (model_name : string) :
  m_type model_name ∈ ["image"; "reasoning"; "embedding"; "text"].
Proof.
  unfold m_type. rewrite !elem_of_cons.
  destruct (contains "dall" _); [tauto|].
  destruct (contains "o1" _ || contains "reasoning" _); [tauto|].
  destruct (contains "embedding" _); tauto.
Qed.

Lemma drill_down_account_entry dr (found : list Acct) acct :
  acct ∈ found →
  ∃ item, item ∈ (drill_down dr found).1 ∧
          inv_id item = acct_id acct ∧ inv_name item = acct_name acct ∧
          inv_group item = acct_group acct ∧
          inv_project item = acct_project acct.
Proof.
  unfold drill_down. cbn [fst]. intros Hacct.
  set (depts := get_deployments (dr (acct_group acct) (acct_name acct))).
  destruct (inventory_of_account acct depts) as [|item l] eqn:Hinv;
    [by destruct (inventory_of_account_nonempty acct depts)|].
  assert (Hitem : item ∈ inventory_of_account acct depts)
    by (rewrite Hinv; left).
  exists item. split.
  - apply list_elem_of_bind. exists acct. done.
  - apply elem_of_inventory_of_account in Hitem
      as [[_ ->]|(d & _ & ->)]; done.
Qed.

Lemma drill_down_entry_account dr (found : list Acct) item :
  item ∈ (drill_down dr found).1 →
  (∃ acct, acct ∈ found ∧
           inv_id item = acct_id acct ∧ inv_name item = acct_name acct ∧
           inv_group item = acct_group acct ∧
           inv_project item = acct_project acct) ∧
  inv_type item ∈ ["image"; "reasoning"; "embedding"; "text"].
Proof.
  unfold drill_down. cbn [fst].
  intros (acct & Hitem & Hacct)%list_elem_of_bind.
  apply elem_of_inventory_of_account in Hitem as [[_ ->]|(d & _ & ->)].
  - split; [by exists acct|]. simpl. rewrite !elem_of_cons. tauto.
  - split; [by exists acct|]. apply m_type_four.
Qed.

Lemma drill_down_nil_iff dr (found : list Acct) :
  found = [] ↔ (drill_down dr found).1 = [].
Proof.
  unfold drill_down. cbn [fst].
  split; [by intros ->|]. destruct found as [|acct found]; [done|].
  rewrite bind_cons. intros [Hnil _]%app_eq_nil.
  by apply inventory_of_account_nonempty in Hnil.
Qed.

(** X12. The inventory has entries for every account found and for
    nothing else: each account has at least one entry, and each entry
    carries the id, name, group and project of an account found, with a
    usage type that is one of image, reasoning, embedding and text. *)
Theorem inventory_covers_the_accounts dr (found : list Acct) :
  (∀ acct, acct ∈ found →
     ∃ item, item ∈ (drill_down dr found).1 ∧
             inv_id item = acct_id acct ∧ inv_name item = acct_name acct ∧
             inv_group item = acct_group acct ∧
             inv_project item = acct_project acct) ∧
  (∀ item, item ∈ (drill_down dr found).1 →
     (∃ acct, acct ∈ found ∧
              inv_id item = acct_id acct ∧ inv_name item = acct_name acct ∧
              inv_group item = acct_group acct ∧
              inv_project item = acct_project acct) ∧
     inv_type item ∈ ["image"; "reasoning"; "embedding"; "text"]) ∧
  (length found ≤ length (drill_down dr found).1)%nat ∧
  (found = [] ↔ (drill_down dr found).1 = []).
Proof.
  split_and!.
  - apply drill_down_account_entry.
  - apply drill_down_entry_account.
  - unfold drill_down. cbn [fst].
    induction found as [|acct found IH]; [done|].
    rewrite bind_cons, length_app. simpl.
    pose proof (inventory_of_account_nonempty acct
                  (get_deployments (dr (acct_group acct) (acct_name acct)))).
    destruct (inventory_of_account acct _); [done|]. simpl. lia.
  - apply drill_down_nil_iff.
Qed.

Lemma inventory_covers_the_accounts_witness :
  ∃ item,
    item ∈ (drill_down (λ _ _, DeploymentsRaised "timeout")
              [account_of {| res_id := "/subscriptions/s/resourceGroups/rg-a/providers/p/accounts/acct1";
                             res_name := "acct1"; res_kind := KindStr "OpenAI";
                             res_tags := None |} "rg-a"]).1 ∧
    inv_name item = "acct1" ∧ inv_project item = "rg-a".
Proof.
  destruct (proj1 (inventory_covers_the_accounts
                     (λ _ _, DeploymentsRaised "timeout")
                     [account_of {| res_id := "/subscriptions/s/resourceGroups/rg-a/providers/p/accounts/acct1";
                                    res_name := "acct1";
                                    res_kind := KindStr "OpenAI";
                                    res_tags := None |} "rg-a"])
              _ (list_elem_of_here _ _))
    as (item & Hin & _ & Hn & _ & Hp).
  by exists item.
Defined.

(** X13. An account whose deployments cannot be listed still gets an
    entry: when the request raises, answers with a status other than
    200, or lists nothing, the account has the single entry "All Models
    (Aggregated)" of the model "unknown" and the type text.  When the
    request lists deployments the account has one entry per deployment,
    and a deployment without a model name is one of the model "unknown",
    of the type text. *)
Theorem deployments_listing_outcome (acct : Acct)
    (response : DeploymentsResponse) :
  let inv := inventory_of_account acct (get_deployments response) in
  (∀ e, response = DeploymentsRaised e → inv = [aggregated_entry acct]) ∧
  (∀ code value, response = DeploymentsStatus code value → code ≠ 200%Z →
     inv = [aggregated_entry acct]) ∧
  (∀ code value, response = DeploymentsStatus code value →
     value = None ∨ value = Some [] → inv = [aggregated_entry acct]) ∧
  (∀ item items, response = DeploymentsStatus 200 (Some (item :: items)) →
     length inv = S (length items) ∧
     inv_deployment_name <$> inv = item_name <$> (item :: items) ∧
     inv_model_name <$> inv = (model_name ∘ parse_deployment) <$> (item :: items) ∧
     Forall (λ entry, inv_type entry = m_type (inv_model_name entry)) inv) ∧
  (∀ item, (item_properties item = None ∨ item_properties item = Some None ∨
            ∃ mi, item_properties item = Some (Some mi) ∧ mi_name mi = None) →
     model_name (parse_deployment item) = "unknown" ∧
     m_type (model_name (parse_deployment item)) = "text").
Proof.
  intros inv. subst inv. split_and!.
  - by intros e ->.
  - intros code value -> Hcode. simpl. by rewrite decide_False.
  - intros code value -> [-> | ->]; simpl; by destruct (decide (code = 200%Z)).
  - intros item items ->. simpl. split_and!.
    + by rewrite length_fmap, length_fmap.
    + by rewrite <- !list_fmap_compose.
    + by rewrite <- !list_fmap_compose.
    + constructor; [done|]. apply Forall_fmap, Forall_fmap, Forall_forall.
      by intros.
  - intros item [Hp|[Hp|(mi & Hp & Hm)]]; unfold parse_deployment;
      rewrite Hp; simpl; rewrite ?Hm; done.
Qed.

Lemma deployments_listing_outcome_witness :
  inventory_of_account
    (account_of {| res_id := "/subscriptions/s/resourceGroups/rg-a/providers/p/accounts/acct1";
                   res_name := "acct1"; res_kind := KindStr "OpenAI";
                   res_tags := None |} "rg-a")
    (get_deployments (DeploymentsStatus 403 None))
  = [aggregated_entry
       (account_of {| res_id := "/subscriptions/s/resourceGroups/rg-a/providers/p/accounts/acct1";
                      res_name := "acct1"; res_kind := KindStr "OpenAI";
                      res_tags := None |} "rg-a")].
Proof.
  apply (proj1 (proj2 (deployments_listing_outcome _
                         (DeploymentsStatus 403 None))) 403%Z None);
    [reflexivity | discriminate].
Defined.

(** X14. When accounts with the same id have the same project, the
    lookup built from the inventory maps the id of every account found to
    the project of that account, so a cost row of a discovered account is
    labelled with the project its usage rows carry; a resource id of no
    account found is labelled "Unknown". *)
Theorem inventory_maps_account_to_project dr (found : list Acct) :
  (∀ a b, a ∈ found → b ∈ found → acct_id a = acct_id b →
          acct_project a = acct_project b) →
  let inv := (drill_down dr found).1 in
  (∀ a, a ∈ found →
     id_to_proj inv !! acct_id a = Some (acct_project a) ∧
     project_name inv (acct_id a) = acct_project a) ∧
  (∀ x, found ≠ [] → x ∉ acct_id <$> found → project_name inv x = "Unknown").
Proof.
  intros Hsame inv.
  assert (Hlook : ∀ a, a ∈ found →
            id_to_proj inv !! acct_id a = Some (acct_project a)).
  { intros a Ha. destruct (id_to_proj inv !! acct_id a) as [p|] eqn:Hp.
    - apply id_to_proj_Some in Hp as (item & Hitem & Hid & <-).
      apply drill_down_entry_account in Hitem
        as [(b & Hb & Hidb & _ & _ & Hpb) _].
      f_equal. rewrite Hpb. apply Hsame; [done..|]. by rewrite <- Hidb.
    - exfalso. destruct (drill_down_account_entry dr found a Ha)
        as (item & Hitem & Hid & _).
      rewrite id_to_proj_None in Hp. by apply (Hp item). }
  assert (Hne : found ≠ [] → ∀ x,
            project_name inv x = default "Unknown" (id_to_proj inv !! x)).
  { intros Hf x. unfold project_name. destruct inv as [|i l] eqn:Hinv; [|done].
    exfalso. apply Hf. by apply (drill_down_nil_iff dr). }
  split.
  - intros a Ha. split; [by apply Hlook|].
    rewrite Hne by (intros ->; by apply elem_of_nil in Ha).
    by rewrite Hlook.
  - intros x Hf Hx. rewrite Hne by done.
    destruct (id_to_proj inv !! x) as [p|] eqn:Hp; [|done].
    exfalso. apply id_to_proj_Some in Hp as (item & Hitem & Hid & _).
    apply drill_down_entry_account in Hitem as [(b & Hb & Hidb & _) _].
    apply Hx. apply list_elem_of_fmap. exists b. split; [|done]. congruence.
Qed.

Lemma inventory_maps_account_to_project_witness :
  project_name
    (drill_down (λ _ _, DeploymentsRaised "timeout")
       [account_of {| res_id := "/subscriptions/s/resourceGroups/rg-a/providers/p/accounts/acct1";
                      res_name := "acct1"; res_kind := KindStr "OpenAI";
                      res_tags := Some (<["Project" := "volvogpt"]> ∅) |}
          "rg-a"]).1
    "/subscriptions/s/resourceGroups/rg-a/providers/p/accounts/acct1"
  = "volvogpt".
Proof.
  apply (proj1 (inventory_maps_account_to_project
                  (λ _ _, DeploymentsRaised "timeout")
                  [account_of {| res_id := "/subscriptions/s/resourceGroups/rg-a/providers/p/accounts/acct1";
                                 res_name := "acct1";
                                 res_kind := KindStr "OpenAI";
                                 res_tags := Some (<["Project" := "volvogpt"]> ∅) |}
                     "rg-a"]
                  ltac:(intros a b ->%list_elem_of_singleton
                                 ->%list_elem_of_singleton _; reflexivity))
           _ (list_elem_of_here _ _)).
Defined.

(** X15. An account whose resource has none of the three project tags, or
    only empty ones, and an id of the form
    /subscriptions/<sub>/resourceGroups/<rg>/... has the project <rg>:
    the label the cost tab parses from the same id when there is no
    inventory. *)
Theorem untagged_account_is_labelled_by_group (res : Resource)
    (kind sub rg tail : string) :
  res_kind res = KindStr kind →
  is_substring "OpenAI" kind ∨ is_substring "CognitiveServices" kind →
  res_id res
  = "/subscriptions/" +:+ sub +:+ "/resourceGroups/" +:+ rg +:+ tail →
  occurs "/" sub = 0%nat → occurs "/" rg = 0%nat →
  tail = "" ∨ (∃ rest, tail = String "/" rest) →
  (∀ k, k ∈ ["DigitalProduct"; "Project"; "Application"] →
        default ∅ (res_tags res) !! k = None ∨
        default ∅ (res_tags res) !! k = Some "") →
  ∃ a, scan_resource res = Returned (Some a) ∧
       acct_group a = rg ∧ acct_project a = rg ∧
       project_name [] (res_id res) = rg.
Proof.
  intros Hkind Hk Hid Hsub Hrg Htail Htags.
  destruct (split_azure_path sub rg tail Hsub Hrg Htail) as [more Hs].
  rewrite <- Hid in Hs.
  assert (Hl : split "/" (res_id res) !! 4%nat = Some rg) by by rewrite Hs.
  exists (account_of res rg). split_and!.
  - apply scan_resource_Some. by exists kind, rg.
  - done.
  - simpl. unfold project_of_tags.
    rewrite !(proj2 (truthy_None _)); [done|apply Htags..];
      rewrite !elem_of_cons; tauto.
  - by apply resource_group_segment_Some.
Qed.

Lemma untagged_account_is_labelled_by_group_witness :
  ∃ a, scan_resource
         {| res_id := "/subscriptions/" +:+ "s" +:+ "/resourceGroups/" +:+ "rg-a"
                      +:+ "/providers/p/accounts/acct1";
            res_name := "acct1"; res_kind := KindStr "OpenAI";
            res_tags := None |} = Returned (Some a) ∧
       acct_group a = "rg-a" ∧ acct_project a = "rg-a".
Proof.
  destruct (untagged_account_is_labelled_by_group
              {| res_id := "/subscriptions/" +:+ "s" +:+ "/resourceGroups/"
                           +:+ "rg-a" +:+ "/providers/p/accounts/acct1";
                 res_name := "acct1"; res_kind := KindStr "OpenAI";
                 res_tags := None |}
              "OpenAI" "s" "rg-a" "/providers/p/accounts/acct1")
    as (a & Ha & Hg & Hp & _).
  - reflexivity.
  - left. by exists EmptyString, EmptyString.
  - reflexivity.
  - reflexivity.
  - reflexivity.
  - right. by eexists.
  - intros k _. left. reflexivity.
  - by exists a.
Defined.

(** ** The metrics fetch: grouping by account *)

Lemma in_group_add_to_group x groups k y :
  in_group (add_to_group x groups) k y ↔
  in_group groups k y ∨ (k = inv_id x ∧ y = x).
Proof.
  unfold in_group. induction groups as [|g groups IH]; simpl.
  - split.
    + intros (g & ->%list_elem_of_singleton & <- & ->%list_elem_of_singleton).
      by right.
    + intros [(g & []%elem_of_nil & _)|[-> ->]].
      exists (inv_id x, [x]). split_and!; [left | done | left].
  - destruct (decide (g.1 = inv_id x)) as [Hg|Hg].
    + split.
      * intros (g' & [->|Hin]%elem_of_cons & Hk & Hy).
        -- simpl in *. apply elem_of_app in Hy as [Hy| ->%list_elem_of_singleton].
           ++ left. exists g. split_and!; [left|done..].
           ++ right. split; congruence.
        -- left. exists g'. split_and!; [by right|done..].
      * intros [(g' & [->|Hin]%elem_of_cons & Hk & Hy)|[-> ->]].
        -- exists (g.1, g.2 ++ [x]). split_and!; [left|done|].
           apply elem_of_app. by left.
        -- exists g'. split_and!; [by right|done..].
        -- exists (g.1, g.2 ++ [x]). split_and!; [left|done|].
           apply elem_of_app. right. left.
    + split.
      * intros (g' & [->|Hin]%elem_of_cons & Hk & Hy).
        -- left. exists g. split_and!; [left|done..].
        -- destruct (proj1 IH) as [(g'' & Hin' & Hk' & Hy')|Hnew];
             [by exists g'| |by right].
           left. exists g''. split_and!; [by right|done..].
      * intros [(g' & [->|Hin]%elem_of_cons & Hk & Hy)|Hnew].
        -- exists g. split_and!; [left|done..].
        -- destruct (proj2 IH) as (g'' & Hin' & Hk' & Hy');
             [left; by exists g'|].
           exists g''. split_and!; [by right|done..].
        -- destruct (proj2 IH) as (g'' & Hin' & Hk' & Hy'); [by right|].
           exists g''. split_and!; [by right|done..].
Qed.

Lemma in_group_foldl (l : list InvItem) groups k y :
  in_group (foldl (λ groups item, add_to_group item groups) groups l) k y ↔
  in_group groups k y ∨ (y ∈ l ∧ k = inv_id y).
Proof.
  revert groups. induction l as [|x l IH]; intros groups; simpl.
  - split; [by left|]. intros [?|[[]%elem_of_nil _]]. done.
  - rewrite IH, in_group_add_to_group, elem_of_cons. naive_solver.
Qed.

Lemma in_group_grouped_inventory inv k y :
  in_group (grouped_inventory inv) k y ↔ y ∈ inv ∧ k = inv_id y.
Proof.
  unfold grouped_inventory. rewrite in_group_foldl. split; [|by right].
  intros [(g & []%elem_of_nil & _)|H]. done.
Qed.

Lemma fst_add_to_group x groups :
  (add_to_group x groups).*1
  = if decide (inv_id x ∈ groups.*1) then groups.*1
    else groups.*1 ++ [inv_id x].
Proof.
  induction groups as [|g groups IH].
  - destruct (decide (inv_id x ∈ ([] : list (string * list InvItem)).*1))
      as [Hin|Hin]; [by apply elem_of_nil in Hin | done].
  - cbn [add_to_group]. rewrite fmap_cons.
    destruct (decide (g.1 = inv_id x)) as [Hg|Hg].
    + rewrite decide_True; [done|]. rewrite Hg. left.
    + rewrite fmap_cons, IH.
      destruct (decide (inv_id x ∈ groups.*1)) as [Hin|Hin].
      * rewrite decide_True; [done|]. by right.
      * rewrite decide_False; [done|].
        rewrite elem_of_cons. intros [Heq|Hin']; [by symmetry in Heq|done].
Qed.

Lemma NoDup_fst_grouped_inventory inv : NoDup (grouped_inventory inv).*1.
Proof.
  unfold grouped_inventory.
  assert (∀ groups, NoDup groups.*1 →
            NoDup (foldl (λ groups item, add_to_group item groups) groups inv).*1)
    as H; [|apply H; constructor].
  induction inv as [|x inv IH]; intros groups Hnd; simpl; [done|].
  apply IH. rewrite fst_add_to_group. case_decide; [done|].
  apply NoDup_app. split_and!; [done| |apply NoDup_singleton].
  intros k Hk ->%list_elem_of_singleton. done.
Qed.

Lemma elem_of_fst_grouped_inventory inv k :
  k ∈ (grouped_inventory inv).*1 → k ∈ inv_id <$> inv.
Proof.
  unfold grouped_inventory.
  assert (∀ groups,
            k ∈ (foldl (λ groups item, add_to_group item groups) groups inv).*1 →
            k ∈ groups.*1 ∨ k ∈ inv_id <$> inv) as H.
  { induction inv as [|x inv IH]; intros groups; simpl; [by left|].
    intros [Hk|Hk]%IH.
    - rewrite fst_add_to_group in Hk. case_decide; [by left|].
      apply elem_of_app in Hk as [Hk| ->%list_elem_of_singleton];
        [by left | right; left].
    - right. by right. }
  intros [[]%elem_of_nil|Hk]%H. done.
Qed.

(** ** The metrics fetch: rows *)

Lemma elem_of_rows_of_metrics account_id dept value row :
  row ∈ rows_of_metrics account_id dept value ↔
  ∃ item ts data t,
    item ∈ value ∧ ts ∈ timeseries item ∧ data ∈ ts ∧
    total data = Some t ∧ 0 < t ∧
    row = {| TimeStamp := time_stamp data; Account := inv_name dept;
             ResourceId := account_id; Project := inv_project dept;
             Deployment := inv_deployment_name dept;
             Model := inv_model_name dept; Type_ := inv_type dept;
             Metric := metric_name item; Value := t |}.
Proof.
  unfold rows_of_metrics. rewrite list_elem_of_bind. split.
  - intros (item & (ts & (data & Hrow & Hdata)%list_elem_of_bind & Hts)
                     %list_elem_of_bind & Hitem).
    destruct (total data) as [t|] eqn:Ht; [|by apply elem_of_nil in Hrow].
    destruct (Qlt_le_dec 0 t) as [Hpos|Hle]; [|by apply elem_of_nil in Hrow].
    apply list_elem_of_singleton in Hrow. by exists item, ts, data, t.
  - intros (item & ts & data & t & Hitem & Hts & Hdata & Ht & Hpos & ->).
    exists item. split; [|done]. apply list_elem_of_bind. exists ts.
    split; [|done]. apply list_elem_of_bind. exists data. split; [|done].
    rewrite Ht. destruct (Qlt_le_dec 0 t) as [_|Hle]; [left|].
    exfalso. by apply (Qlt_not_le 0 t).
Qed.

Lemma fetch_account_rows ml account_id depts row :
  row ∈ (fetch_account ml account_id depts).1 →
  ∃ dept value, dept ∈ depts ∧
    ml account_id (odata_filter (inv_deployment_name dept)) = MetricsValue value ∧
    row ∈ rows_of_metrics account_id dept value.
Proof.
  induction depts as [|dept depts IH]; simpl; [by intros ?%elem_of_nil|].
  destruct (ml account_id (odata_filter (inv_deployment_name dept)))
    as [e|value] eqn:Hml; simpl; [by intros ?%elem_of_nil|].
  intros [Hrow|Hrow]%elem_of_app.
  - exists dept, value. split_and!; [left|done..].
  - destruct (IH Hrow) as (dept' & value' & Hin & Hml' & Hr).
    exists dept', value'. split_and!; [by right|done..].
Qed.

Lemma fetch_account_all ml account_id depts :
  (∀ dept, dept ∈ depts →
     ∃ value, ml account_id (odata_filter (inv_deployment_name dept))
              = MetricsValue value) →
  (fetch_account ml account_id depts).2 = None ∧
  ∀ dept value row, dept ∈ depts →
    ml account_id (odata_filter (inv_deployment_name dept)) = MetricsValue value →
    row ∈ rows_of_metrics account_id dept value →
    row ∈ (fetch_account ml account_id depts).1.
Proof.
  induction depts as [|dept depts IH]; intros Hok; simpl.
  - split; [done|]. by intros ? ? ? ?%elem_of_nil.
  - destruct (IH (λ d Hd, Hok d (list_elem_of_further _ _ _ Hd))) as [He Hin].
    destruct (Hok dept (list_elem_of_here _ _)) as [value Hv]. rewrite Hv.
    simpl. split; [done|].
    intros dept' value' row [->|Hd]%elem_of_cons Hml Hrow; apply elem_of_app.
    + left. rewrite Hv in Hml. by injection Hml as <-.
    + right. by eapply Hin.
Qed.

Lemma fetch_account_raised ml account_id depts e :
  (fetch_account ml account_id depts).2 = Some e →
  ∃ dept, dept ∈ depts ∧
    ml account_id (odata_filter (inv_deployment_name dept)) = MetricsRaised e.
Proof.
  induction depts as [|dept depts IH]; simpl; [done|].
  destruct (ml account_id (odata_filter (inv_deployment_name dept)))
    as [e'|value] eqn:Hml; simpl.
  - intros [= <-]. exists dept. split; [left|done].
  - intros (dept' & Hin & Hml')%IH. exists dept'. split; [by right|done].
Qed.

Lemma fetch_account_stop ml account_id d1 bad d2 e :
  ml account_id (odata_filter (inv_deployment_name bad)) = MetricsRaised e →
  fetch_account ml account_id (d1 ++ bad :: d2)
  = ((fetch_account ml account_id d1).1,
     Some (default e (fetch_account ml account_id d1).2)).
Proof.
  intros Hbad. induction d1 as [|dept d1 IH]; simpl; [by rewrite Hbad|].
  destruct (ml account_id (odata_filter (inv_deployment_name dept)));
    simpl; [done|]. by rewrite IH.
Qed.

Lemma elem_of_fetched_rows ml inv row :
  row ∈ (fetch_detailed_metrics ml inv).1 ↔
  ∃ g, g ∈ grouped_inventory inv ∧ row ∈ (fetch_account ml g.1 g.2).1.
Proof.
  unfold fetch_detailed_metrics. cbn [fst].
  rewrite list_elem_of_bind. split.
  - intros (r & Hrow & (g & -> & Hg)%list_elem_of_fmap). by exists g.
  - intros (g & Hg & Hrow). exists (g.1, fetch_account ml g.1 g.2).
    split; [done|]. apply list_elem_of_fmap. by exists g.
Qed.

Lemma fetched_row_source ml inv row :
  row ∈ (fetch_detailed_metrics ml inv).1 →
  ∃ item value, item ∈ inv ∧ metrics_of ml item = MetricsValue value ∧
    row ∈ rows_of_metrics (inv_id item) item value.
Proof.
  intros (g & Hg & Hrow)%elem_of_fetched_rows.
  apply fetch_account_rows in Hrow as (dept & value & Hdept & Hml & Hrow).
  assert (Hin : in_group (grouped_inventory inv) g.1 dept) by by exists g.
  apply in_group_grouped_inventory in Hin as [Hinv Hid].
  exists dept, value. unfold metrics_of. rewrite <- Hid. done.
Qed.

(** X16. The metrics fetch keeps positive samples only: every row of
    the usage frame has a value above 0; a sample whose total is missing,
    zero or negative gives no row. *)
Theorem fetched_values_are_positive ml (inv : list InvItem) :
  (∀ row, row ∈ (fetch_detailed_metrics ml inv).1 → 0 < Value row) ∧
  (∀ account_id dept value row,
     row ∈ rows_of_metrics account_id dept value →
     ∃ item ts data, item ∈ value ∧ ts ∈ timeseries item ∧ data ∈ ts ∧
                     total data = Some (Value row) ∧ 0 < Value row) ∧
  (∀ account_id dept value,
     (∀ item ts data, item ∈ value → ts ∈ timeseries item → data ∈ ts →
        total data = None ∨ ∃ t, total data = Some t ∧ t <= 0) →
     rows_of_metrics account_id dept value = []).
Proof.
  split_and!.
  - intros row (item & value & _ & _ & Hrow)%fetched_row_source.
    apply elem_of_rows_of_metrics in Hrow
      as (? & ? & ? & t & _ & _ & _ & _ & Hpos & ->). done.
  - intros account_id dept value row Hrow.
    apply elem_of_rows_of_metrics in Hrow
      as (item & ts & data & t & Hi & Hts & Hd & Ht & Hpos & ->).
    by exists item, ts, data.
  - intros account_id dept value Hnone.
    destruct (rows_of_metrics account_id dept value) as [|row l] eqn:Hrows;
      [done|].
    assert (row ∈ rows_of_metrics account_id dept value) as Hrow
      by (rewrite Hrows; left).
    apply elem_of_rows_of_metrics in Hrow
      as (item & ts & data & t & Hi & Hts & Hd & Ht & Hpos & _).
    destruct (Hnone item ts data Hi Hts Hd) as [Hn|(t' & Ht' & Hle)].
    + by rewrite Hn in Ht.
    + rewrite Ht in Ht'. injection Ht' as <-.
      exfalso. by apply (Qlt_not_le 0 t).
Qed.

Lemma fetched_values_are_positive_witness :
  rows_of_metrics "/subscriptions/s/resourceGroups/rg-a/providers/p/accounts/acct1"
    (aggregated_entry
       (account_of {| res_id := "/subscriptions/s/resourceGroups/rg-a/providers/p/accounts/acct1";
                      res_name := "acct1"; res_kind := KindStr "OpenAI";
                      res_tags := None |} "rg-a"))
    [{| metric_name := "GeneratedTokens";
        timeseries := [[{| time_stamp := 1; total := Some 0 |};
                        {| time_stamp := 2; total := None |}]] |}]
  = [].
Proof.
  apply (proj2 (proj2 (fetched_values_are_positive (λ _ _, MetricsValue []) []))).
  intros item ts data ->%list_elem_of_singleton ->%list_elem_of_singleton
    [->|[->|[]%elem_of_nil]%elem_of_cons]%elem_of_cons.
  - right. exists 0. done.
  - by left.
Defined.

(** X17. Every row of the usage frame belongs to an entry of the
    inventory: it is a sample of the response for that entry, and it
    carries the account id, the account name, the project, the deployment,
    the model and the usage type of the entry. *)
Theorem fetched_rows_carry_inventory_labels ml (inv : list InvItem)
    (row : UsageRow) :
  row ∈ (fetch_detailed_metrics ml inv).1 →
  ∃ item value mi,
    item ∈ inv ∧ metrics_of ml item = MetricsValue value ∧ mi ∈ value ∧
    ResourceId row = inv_id item ∧ Account row = inv_name item ∧
    Project row = inv_project item ∧
    Deployment row = inv_deployment_name item ∧
    Model row = inv_model_name item ∧ Type_ row = inv_type item ∧
    Metric row = metric_name mi.
Proof.
  intros (item & value & Hitem & Hml & Hrow)%fetched_row_source.
  apply elem_of_rows_of_metrics in Hrow
    as (mi & ts & data & t & Hmi & _ & _ & _ & _ & ->).
  by exists item, value, mi.
Qed.

Lemma fetched_rows_carry_inventory_labels_witness :
  ∃ item, item ∈ manual_inventory "s" "rg-a" "acct1" ∧
          Project (usage_row "text" "GeneratedTokens" 7 "Manual" "rg-a")
          = inv_project item.
Proof.
  destruct (fetched_rows_carry_inventory_labels
              (λ _ _, MetricsValue
                        [{| metric_name := "GeneratedTokens";
                            timeseries := [[{| time_stamp := 0;
                                               total := Some 7 |}]] |}])
              (manual_inventory "s" "rg-a" "acct1")
              {| TimeStamp := 0; Account := "acct1";
                 ResourceId := "/subscriptions/s/resourceGroups/rg-a/providers/Microsoft.CognitiveServices/accounts/acct1";
                 Project := "rg-a"; Deployment := "All Models (Aggregated)";
                 Model := "Manual"; Type_ := "text";
                 Metric := "GeneratedTokens"; Value := 7 |})
    as (item & value & mi & Hitem & _ & _ & _ & _ & Hp & _);
    [vm_compute; left|].
  by exists item.
Defined.

(** ** The metrics fetch: failures *)

Lemma elem_of_fetch_errors ml inv err :
  err ∈ (fetch_detailed_metrics ml inv).2 ↔
  ∃ g, g ∈ grouped_inventory inv ∧
       err ∈ metrics_error g.1 (fetch_account ml g.1 g.2).2.
Proof.
  unfold fetch_detailed_metrics. cbn [snd].
  rewrite list_elem_of_bind. split.
  - intros (r & Herr & (g & -> & Hg)%list_elem_of_fmap). by exists g.
  - intros (g & Hg & Herr). exists (g.1, fetch_account ml g.1 g.2).
    split; [done|]. apply list_elem_of_fmap. by exists g.
Qed.

Lemma elem_of_metrics_error account_id raised err :
  err ∈ metrics_error account_id raised ↔
  ∃ e, raised = Some e ∧ ¬ is_substring "BadRequest" e ∧
       err = "Error " +:+ last_segment account_id +:+ ": " +:+ e.
Proof.
  unfold metrics_error. destruct raised as [e|].
  - destruct (contains "BadRequest" e) eqn:Hb.
    + apply contains_spec in Hb. rewrite elem_of_nil. naive_solver.
    + apply contains_false in Hb. rewrite list_elem_of_singleton. naive_solver.
  - rewrite elem_of_nil. naive_solver.
Qed.

Lemma fetch_error_source ml inv err :
  err ∈ (fetch_detailed_metrics ml inv).2 →
  ∃ item e, item ∈ inv ∧ metrics_of ml item = MetricsRaised e ∧
    ¬ is_substring "BadRequest" e ∧
    err = "Error " +:+ last_segment (inv_id item) +:+ ": " +:+ e.
Proof.
  intros (g & Hg & (e & He & Hb & ->)%elem_of_metrics_error)
           %elem_of_fetch_errors.
  apply fetch_account_raised in He as (dept & Hdept & Hml).
  assert (Hin : in_group (grouped_inventory inv) g.1 dept) by by exists g.
  apply in_group_grouped_inventory in Hin as [Hinv Hid].
  exists dept, e. unfold metrics_of. rewrite <- Hid. done.
Qed.

(** X18. An account none of whose requests raises is fetched in full,
    whatever happens to the other accounts: every positive sample of
    every one of its entries is a row of the usage frame, and no error
    message comes from it. *)
Theorem healthy_account_is_fetched_in_full ml (inv : list InvItem)
    (item : InvItem) :
  item ∈ inv →
  (∀ other, other ∈ inv → inv_id other = inv_id item →
            ∃ value, metrics_of ml other = MetricsValue value) →
  (∀ value row, metrics_of ml item = MetricsValue value →
     row ∈ rows_of_metrics (inv_id item) item value →
     row ∈ (fetch_detailed_metrics ml inv).1) ∧
  (∀ err, err ∈ (fetch_detailed_metrics ml inv).2 →
     ∃ other e, other ∈ inv ∧ inv_id other ≠ inv_id item ∧
                metrics_of ml other = MetricsRaised e).
Proof.
  intros Hitem Hok. split.
  - intros value row Hml Hrow.
    destruct (proj2 (in_group_grouped_inventory inv (inv_id item) item))
      as (g & Hg & Hk & Hin); [done|].
    apply elem_of_fetched_rows. exists g. split; [done|].
    assert (Hall : ∀ dept, dept ∈ g.2 →
              ∃ v, ml g.1 (odata_filter (inv_deployment_name dept))
                   = MetricsValue v).
    { intros dept Hdept.
      assert (Hd : in_group (grouped_inventory inv) g.1 dept) by by exists g.
      apply in_group_grouped_inventory in Hd as [Hdinv Hdid].
      destruct (Hok dept Hdinv) as [v Hv]; [congruence|].
      exists v. unfold metrics_of in Hv. by rewrite Hdid. }
    destruct (fetch_account_all ml g.1 g.2 Hall) as [_ Hrows].
    rewrite Hk in *. by eapply Hrows.
  - intros err (other & e & Hother & Hml & _)%fetch_error_source.
    exists other, e. split_and!; [done| |done].
    intros Hid. destruct (Hok other Hother Hid) as [v Hv]. congruence.
Qed.

Lemma healthy_account_is_fetched_in_full_witness :
  usage_row "text" "GeneratedTokens" 7 "Manual" "rg-a"
  ∈ (fetch_detailed_metrics
       (λ _ _, MetricsValue
                 [{| metric_name := "GeneratedTokens";
                     timeseries := [[{| time_stamp := 0;
                                        total := Some 7 |}]] |}])
       [{| inv_id := "/r"; inv_name := "acct"; inv_group := "rg-a";
           inv_project := "rg-a"; inv_deployment_name := "dep-1";
           inv_model_name := "Manual"; inv_type := "text" |}]).1.
Proof.
  apply (proj1 (healthy_account_is_fetched_in_full
                  (λ _ _, MetricsValue
                            [{| metric_name := "GeneratedTokens";
                                timeseries := [[{| time_stamp := 0;
                                                   total := Some 7 |}]] |}])
                  [{| inv_id := "/r"; inv_name := "acct"; inv_group := "rg-a";
                      inv_project := "rg-a"; inv_deployment_name := "dep-1";
                      inv_model_name := "Manual"; inv_type := "text" |}]
                  {| inv_id := "/r"; inv_name := "acct"; inv_group := "rg-a";
                     inv_project := "rg-a"; inv_deployment_name := "dep-1";
                     inv_model_name := "Manual"; inv_type := "text" |}
                  (list_elem_of_here _ _)
                  (λ _ _ _, ex_intro _ _ eq_refl))
           _ _ eq_refl).
  vm_compute. left.
Defined.

(** X19. Every error message of the metrics fetch comes from a request
    that raised for an entry of the inventory, with a message that does
    not contain BadRequest, and names the last part of the account id;
    an exception whose message contains BadRequest is dropped without a
    trace, and there is at most one message per account. *)
Theorem metrics_errors_reported ml (inv : list InvItem) :
  (∀ err, err ∈ (fetch_detailed_metrics ml inv).2 →
     ∃ item e, item ∈ inv ∧ metrics_of ml item = MetricsRaised e ∧
       ¬ is_substring "BadRequest" e ∧
       err = "Error " +:+ last_segment (inv_id item) +:+ ": " +:+ e) ∧
  ((∀ item e, item ∈ inv → metrics_of ml item = MetricsRaised e →
              is_substring "BadRequest" e) →
   (fetch_detailed_metrics ml inv).2 = []) ∧
  (length (fetch_detailed_metrics ml inv).2
   ≤ length (remove_dups (inv_id <$> inv)))%nat.
Proof.
  split_and!.
  - intros err. apply fetch_error_source.
  - intros Hbad.
    destruct ((fetch_detailed_metrics ml inv).2) as [|err l] eqn:Herrs; [done|].
    assert (err ∈ (fetch_detailed_metrics ml inv).2) as Herr
      by (rewrite Herrs; left).
    apply fetch_error_source in Herr as (item & e & Hitem & Hml & Hnb & _).
    exfalso. apply Hnb. by eapply Hbad.
  - assert (Hlen : (length (fetch_detailed_metrics ml inv).2
                    ≤ length (grouped_inventory inv))%nat).
    { unfold fetch_detailed_metrics. cbn [snd].
      induction (grouped_inventory inv) as [|g gs IH]; [done|].
      rewrite fmap_cons, bind_cons, length_app. simpl.
      assert (length (metrics_error g.1 (fetch_account ml g.1 g.2).2) ≤ 1)%nat.
      { unfold metrics_error. destruct ((fetch_account ml g.1 g.2).2);
          [destruct (contains "BadRequest" _)|]; simpl; lia. }
      lia. }
    etrans; [exact Hlen|].
    rewrite <- (length_fmap fst (grouped_inventory inv)).
    apply submseteq_length, NoDup_submseteq.
    + apply NoDup_fst_grouped_inventory.
    + intros k Hk. apply elem_of_remove_dups.
      by apply elem_of_fst_grouped_inventory.
Qed.

Lemma metrics_errors_reported_witness :
  (fetch_detailed_metrics (λ _ _, MetricsRaised "(BadRequest) no such metric")
     (manual_inventory "s" "rg-a" "acct1")).2 = [].
Proof.
  apply (proj1 (proj2 (metrics_errors_reported
                         (λ _ _, MetricsRaised "(BadRequest) no such metric")
                         (manual_inventory "s" "rg-a" "acct1")))).
  intros item e _ [= <-]. by exists "(", ") no such metric".
Defined.

Lemma grouped_inventory_one_account x (inv : list InvItem) :
  inv ≠ [] → (∀ item, item ∈ inv → inv_id item = x) →
  grouped_inventory inv = [(x, inv)].
Proof.
  intros Hne Hall. unfold grouped_inventory.
  destruct inv as [|a inv]; [done|]. simpl.
  rewrite (Hall a) by left.
  assert (∀ acc l, (∀ item, item ∈ l → inv_id item = x) →
            foldl (λ groups item, add_to_group item groups) [(x, acc)] l
            = [(x, acc ++ l)]) as H.
  { intros acc l. revert acc. induction l as [|b l IH]; intros acc Hl; simpl.
    - by rewrite app_nil_r.
    - rewrite (Hl b) by left. rewrite decide_True by done.
      rewrite IH by (intros; apply Hl; by right). by rewrite <- app_assoc. }
  apply (H [a] inv). intros item Hitem. apply Hall. by right.
Qed.

(** X20. Within one account the fetch stops at the first request that
    raises: the rows of the entries before it are kept, the entries after
    it are never asked for, and the one message of the account is that of
    the exception. *)
Theorem failed_request_skips_rest_of_account ml (x : string)
    (d1 d2 : list InvItem) (bad : InvItem) (e : string) :
  (∀ item, item ∈ d1 ++ bad :: d2 → inv_id item = x) →
  (∀ item, item ∈ d1 → ∃ value, metrics_of ml item = MetricsValue value) →
  metrics_of ml bad = MetricsRaised e →
  fetch_detailed_metrics ml (d1 ++ bad :: d2)
  = ((fetch_account ml x d1).1, metrics_error x (Some e)) ∧
  (∀ row, row ∈ (fetch_detailed_metrics ml (d1 ++ bad :: d2)).1 →
     ∃ item value, item ∈ d1 ∧ metrics_of ml item = MetricsValue value ∧
                   row ∈ rows_of_metrics x item value).
Proof.
  intros Hid Hok Hbad.
  assert (Hx : ∀ item, item ∈ d1 ++ bad :: d2 →
            metrics_of ml item
            = ml x (odata_filter (inv_deployment_name item))).
  { intros item Hitem. unfold metrics_of. by rewrite Hid. }
  assert (Hd1 : ∀ dept, dept ∈ d1 →
            ∃ v, ml x (odata_filter (inv_deployment_name dept)) = MetricsValue v).
  { intros dept Hdept. destruct (Hok dept Hdept) as [v Hv]. exists v.
    rewrite <- Hx; [done|]. apply elem_of_app. by left. }
  assert (Heq : fetch_detailed_metrics ml (d1 ++ bad :: d2)
                = ((fetch_account ml x d1).1, metrics_error x (Some e))).
  { unfold fetch_detailed_metrics.
    rewrite (grouped_inventory_one_account x) by (done || by destruct d1).
    cbn [fmap list_fmap fst snd mbind list_bind]. rewrite !app_nil_r.
    rewrite (fetch_account_stop ml x d1 bad d2 e).
    - cbn [fst snd].
      by rewrite (proj1 (fetch_account_all ml x d1 Hd1)).
    - rewrite <- Hx; [done|]. apply elem_of_app. right. left. }
  split; [done|]. rewrite Heq. cbn [fst]. intros row Hrow.
  apply fetch_account_rows in Hrow as (dept & value & Hdept & Hml & Hrow).
  exists dept, value. split_and!; [done| |done].
  rewrite Hx; [done|]. apply elem_of_app. by left.
Qed.

Lemma failed_request_skips_rest_of_account_witness :
  fetch_detailed_metrics
    (λ _ f, if decide (f = Some "ModelDeploymentName eq 'dep-1'")
            then MetricsRaised "timeout"
            else MetricsValue
                   [{| metric_name := "GeneratedTokens";
                       timeseries := [[{| time_stamp := 0;
                                          total := Some 7 |}]] |}])
    ([] ++ {| inv_id := "/r"; inv_name := "acct"; inv_group := "rg-a";
              inv_project := "rg-a"; inv_deployment_name := "dep-1";
              inv_model_name := "gpt-4"; inv_type := "text" |}
        :: [{| inv_id := "/r"; inv_name := "acct"; inv_group := "rg-a";
               inv_project := "rg-a"; inv_deployment_name := "dep-2";
               inv_model_name := "gpt-4"; inv_type := "text" |}])
  = ([], ["Error r: timeout"]).
Proof.
  apply (failed_request_skips_rest_of_account _ "/r" [] _ _ "timeout").
  - intros item [->|[->|[]%elem_of_nil]%elem_of_cons]%elem_of_cons; reflexivity.
  - by intros item ?%elem_of_nil.
  - reflexivity.
Defined.

(** ** Billing data: the column map *)

Lemma col_map_snoc (columns : list string) (c : string) :
  col_map (columns ++ [c]) = <[c := length columns]> (col_map columns).
Proof.
  unfold col_map. rewrite imap_app, foldl_app. simpl.
  by rewrite Nat.add_0_r.
Qed.

Lemma col_map_lookup_Some (columns : list string) (c : string) (i : nat) :
  col_map columns !! c = Some i ↔
  columns !! i = Some c ∧ ∀ j, (i < j)%nat → columns !! j ≠ Some c.
Proof.
  revert i. induction columns as [|x columns IH] using rev_ind; intros i.
  - unfold col_map. simpl. rewrite lookup_empty. naive_solver.
  - rewrite col_map_snoc. destruct (decide (x = c)) as [->|Hx].
    + rewrite lookup_insert_eq. split.
      * intros [= <-]. split.
        -- by rewrite lookup_app_r, Nat.sub_diag by lia.
        -- intros j Hj. rewrite lookup_ge_None_2; [done|].
           rewrite length_app. simpl. lia.
      * intros [Hi Hlast]. f_equal.
        pose proof (lookup_lt_Some _ _ _ Hi) as Hlt.
        rewrite length_app in Hlt. simpl in Hlt.
        destruct (decide (i = length columns)) as [->|Hne]; [done|].
        exfalso. apply (Hlast (length columns)); [lia|].
        by rewrite lookup_app_r, Nat.sub_diag by lia.
    + rewrite lookup_insert_ne by done. rewrite IH. split.
      * intros [Hi Hlast]. split.
        -- rewrite lookup_app_l; [done|]. by eapply lookup_lt_Some.
        -- intros j Hj. destruct (decide (j < length columns)%nat).
           ++ rewrite lookup_app_l by done. by apply Hlast.
           ++ rewrite lookup_app_r by lia.
              destruct (j - length columns)%nat; simpl; [|done]. congruence.
      * intros [Hi Hlast].
        assert (i < length columns)%nat as Hlt.
        { pose proof (lookup_lt_Some _ _ _ Hi) as Hlt.
          rewrite length_app in Hlt. simpl in Hlt.
          destruct (decide (i = length columns)) as [->|Hne]; [|lia].
          rewrite lookup_app_r, Nat.sub_diag in Hi by lia. simpl in Hi.
          congruence. }
        rewrite lookup_app_l in Hi by done. split; [done|].
        intros j Hj Hc. apply (Hlast j Hj).
        rewrite lookup_app_l; [done|]. by eapply lookup_lt_Some.
Qed.

Lemma col_map_lookup_None (columns : list string) (c : string) :
  col_map columns !! c = None ↔ c ∉ columns.
Proof.
  induction columns as [|x columns IH] using rev_ind.
  - unfold col_map. simpl. rewrite lookup_empty. split; [|done].
    intros _. apply not_elem_of_nil.
  - rewrite col_map_snoc, lookup_insert_None, IH, not_elem_of_app.
    rewrite list_elem_of_singleton. naive_solver.
Qed.

(** X21. The column map gives every column name the index of its last
    occurrence in the list of columns, and gives no index to a name that
    is not a column. *)
Theorem col_map_is_last_index (columns : list string) (c : string) :
  (∀ i, col_map columns !! c = Some i ↔
        columns !! i = Some c ∧ ∀ j, (i < j)%nat → columns !! j ≠ Some c) ∧
  (col_map columns !! c = None ↔ c ∉ columns) ∧
  (c ∈ columns → ∃ i, col_map columns !! c = Some i ∧ (i < length columns)%nat).
Proof.
  split_and!.
  - apply col_map_lookup_Some.
  - apply col_map_lookup_None.
  - intros Hc. destruct (col_map columns !! c) as [i|] eqn:Hi.
    + exists i. split; [done|].
      apply col_map_lookup_Some in Hi as [Hi _]. by eapply lookup_lt_Some.
    + by apply col_map_lookup_None in Hi.
Qed.

Lemma col_map_is_last_index_witness :
  ∃ i, col_map ["Cost"; "UsageDate"; "ResourceId"; "Cost"] !! "Cost" = Some i ∧
       (i < 4)%nat.
Proof.
  apply (proj2 (proj2 (col_map_is_last_index
                         ["Cost"; "UsageDate"; "ResourceId"; "Cost"] "Cost"))).
  left.
Defined.

(** ** Billing data: the rows *)

Section billing_facts.
Context (strptime_Ymd : string → Try Z) (to_datetime : Cell → Try Z)
  (end_date : Z).

Abbreviation parse_row := (parse_cost_row strptime_Ymd to_datetime end_date).
Abbreviation parse_rows := (parse_cost_rows strptime_Ymd to_datetime end_date).
Abbreviation fetch_costs :=
  (fetch_actual_costs strptime_Ymd to_datetime end_date).

Lemma list_index_Returned {A} (l : list A) i x :
  list_index l i = Returned x ↔ l !! i = Some x.
Proof. unfold list_index. destruct (l !! i); naive_solver. Qed.

Lemma parse_cost_row_Returned cm r row :
  parse_row cm r = Returned row →
  r !! default 0%nat (cm !! "Cost") = Some (raw_ActualCost row) ∧
  r !! default 1%nat (cm !! "ResourceId") = Some (raw_ResourceId row) ∧
  match cm !! "Currency", cm !! "BillingCurrency" with
  | Some i, _ => r !! i = Some (raw_OriginalCurrency row)
  | None, Some j => r !! j = Some (raw_OriginalCurrency row)
  | None, None => raw_OriginalCurrency row = CellStr "USD"
  end.
Proof.
  unfold parse_cost_row.
  destruct (list_index r (default 0%nat (cm !! "Cost"))) as [cost_val|e]
    eqn:Hcost; [|done].
  destruct (list_index r (default 1%nat (cm !! "ResourceId"))) as [res_id|e]
    eqn:Hid; [|done].
  apply list_index_Returned in Hcost, Hid. cbn [mbind Try_bind].
  destruct (cm !! "Currency") as [i|];
    [|destruct (cm !! "BillingCurrency") as [j|]].
  - destruct (list_index r i) as [curr|e] eqn:Hcurr; [|done].
    apply list_index_Returned in Hcurr.
    destruct (match cm !! "UsageDate" with
              | Some i0 => Some <$> list_index r i0
              | None => Returned None
              end) as [date_val|e]; [|done].
    cbn [mbind Try_bind].
    destruct (normalize_date _ _ _ date_val) as [date_obj|e]; [|done].
    intros [= <-]. done.
  - destruct (list_index r j) as [curr|e] eqn:Hcurr; [|done].
    apply list_index_Returned in Hcurr.
    destruct (match cm !! "UsageDate" with
              | Some i0 => Some <$> list_index r i0
              | None => Returned None
              end) as [date_val|e]; [|done].
    cbn [mbind Try_bind].
    destruct (normalize_date _ _ _ date_val) as [date_obj|e]; [|done].
    intros [= <-]. done.
  - destruct (match cm !! "UsageDate" with
              | Some i0 => Some <$> list_index r i0
              | None => Returned None
              end) as [date_val|e]; [|done].
    cbn [mbind Try_bind].
    destruct (normalize_date _ _ _ date_val) as [date_obj|e]; [|done].
    intros [= <-]. done.
Qed.

Lemma parse_cost_rows_prefix cm rs :
  ∃ n, (n ≤ length rs)%nat ∧
    Forall2 (λ r row, parse_row cm r = Returned row)
      (take n rs) (parse_rows cm rs).1 ∧
    match (parse_rows cm rs).2 with
    | None => n = length rs
    | Some e => ∃ r, rs !! n = Some r ∧ parse_row cm r = Raised e
    end.
Proof.
  induction rs as [|r rs (n & Hn & Hall & Herr)]; simpl.
  - exists 0%nat. split_and!; [done|constructor|done].
  - destruct (parse_row cm r) as [row|e] eqn:Hr; simpl.
    + exists (S n). split_and!; [lia| by constructor |].
      destruct ((parse_rows cm rs).2); [done|]. by rewrite Herr.
    + exists 0%nat. split_and!; [lia|constructor|]. by exists r.
Qed.

(** X22. Every field of a parsed cost row is the cell of its column: the
    cost is the cell at the index of the column Cost, at index 0 when
    there is no such column, and the resource id the cell at the index
    of ResourceId, at index 1 when there is none.  The currency is the
    cell of the column Currency when there is one, else that of the
    column BillingCurrency, and the text USD when there is neither. *)
Theorem parsed_cost_row_fields (columns : list string) (r : list Cell)
    (row : RawCostRow) :
  parse_row (col_map columns) r = Returned row →
  let cm := col_map columns in
  r !! default 0%nat (cm !! "Cost") = Some (raw_ActualCost row) ∧
  r !! default 1%nat (cm !! "ResourceId") = Some (raw_ResourceId row) ∧
  ("Cost" ∉ columns → r !! 0%nat = Some (raw_ActualCost row)) ∧
  ("ResourceId" ∉ columns → r !! 1%nat = Some (raw_ResourceId row)) ∧
  (∀ i, cm !! "Currency" = Some i → r !! i = Some (raw_OriginalCurrency row)) ∧
  ("Currency" ∉ columns → ∀ j, cm !! "BillingCurrency" = Some j →
     r !! j = Some (raw_OriginalCurrency row)) ∧
  ("Currency" ∉ columns → "BillingCurrency" ∉ columns →
     raw_OriginalCurrency row = CellStr "USD").
Proof.
  intros (Hcost & Hid & Hcurr)%parse_cost_row_Returned cm. subst cm.
  split_and!; [done|done|..].
  - intros Hc%col_map_lookup_None. by rewrite Hc in Hcost.
  - intros Hc%col_map_lookup_None. by rewrite Hc in Hid.
  - intros i Hi. by rewrite Hi in Hcurr.
  - intros Hc%col_map_lookup_None j Hj. by rewrite Hc, Hj in Hcurr.
  - intros Hc%col_map_lookup_None Hb%col_map_lookup_None.
    by rewrite Hc, Hb in Hcurr.
Qed.

(** X23. The cost fetch keeps the rows it parsed before a row that
    raised: the frame it returns is the parse of the first rows of the
    response, all of them when no message is returned, and those before
    the first row that does not parse when one is, the message then being
    that of the exception. *)
Theorem cost_rows_before_a_bad_row_are_kept (text : string)
    (cols : list string) (rs : list (list Cell)) :
  let response :=
    CostStatus 200 text (Some {| columns := Some cols; rows := Some rs |}) in
  ∃ n, (n ≤ length rs)%nat ∧
    Forall2 (λ r row, parse_row (col_map cols) r = Returned row)
      (take n rs) (fetch_costs response).1 ∧
    length (fetch_costs response).1 = n ∧
    match (fetch_costs response).2 with
    | None => n = length rs
    | Some msg =>
        ∃ r e, rs !! n = Some r ∧
               parse_row (col_map cols) r = Raised e ∧
               msg = "Failed to fetch costs: " +:+ e
    end.
Proof.
  intros response. subst response. cbn [fetch_actual_costs].
  rewrite decide_True by done.
  cbn [default from_option id columns rows fst snd].
  destruct (parse_cost_rows_prefix (col_map cols) rs) as (n & Hn & Hall & Herr).
  exists n. split_and!; [done|done| |].
  - rewrite <- (Forall2_length _ _ _ Hall), length_take. lia.
  - destruct ((parse_rows (col_map cols) rs).2) as [e|]; simpl; [|done].
    destruct Herr as (r & Hr & He). by exists r, e.
Qed.

(** X24. The cost fetch returns no message exactly when the status is
    200 and every row of the response parses; then the frame has one row
    per row of the response.  When the request raises or the status is
    not 200 the frame is empty and a message is returned. *)
Theorem cost_fetch_message (response : CostResponse) :
  ((fetch_costs response).2 = None ↔
   ∃ text properties,
     response = CostStatus 200 text properties ∧
     let props := default {| columns := None; rows := None |} properties in
     Forall (λ r, ∃ row, parse_row (col_map (default [] (columns props))) r
                         = Returned row)
       (default [] (rows props))) ∧
  ((fetch_costs response).2 = None →
   ∀ text properties, response = CostStatus 200 text properties →
     length (fetch_costs response).1
     = length (default [] (properties ≫= rows))) ∧
  ((∃ e, response = CostRaised e) ∨
   (∃ code text properties,
      response = CostStatus code text properties ∧ code ≠ 200%Z) →
   (fetch_costs response).1 = [] ∧ is_Some (fetch_costs response).2).
Proof.
  assert (Hparse : ∀ cm rs,
            (parse_rows cm rs).2 = None ↔
            Forall (λ r, ∃ row, parse_row cm r = Returned row) rs).
  { intros cm rs. induction rs as [|r rs IH]; simpl; [by split; constructor|].
    destruct (parse_row cm r) as [row|e] eqn:Hr; simpl.
    - rewrite IH. split; [constructor; eauto|]. by inversion 1.
    - split; [done|]. inversion 1 as [|? ? [row Hrow] ?]. congruence. }
  assert (Hlen : ∀ cm rs, (parse_rows cm rs).2 = None →
            length (parse_rows cm rs).1 = length rs).
  { intros cm rs. induction rs as [|r rs IH]; simpl; [done|].
    destruct (parse_row cm r) as [row|e]; simpl; [|done].
    intros He. by rewrite IH. }
  split_and!.
  - destruct response as [e|code text properties]; simpl.
    { split; [done|]. by intros (? & ? & ? & _). }
    destruct (decide (code = 200%Z)) as [->|Hcode]; simpl.
    + rewrite fmap_None, Hparse. split.
      * intros Hall. by exists text, properties.
      * by intros (? & ? & [= <- <-] & Hall).
    + destruct (decide (code = 403%Z)); simpl;
        (split; [done|]; intros (? & ? & [= -> _ _] & _); done).
  - intros He text properties ->. revert He. simpl.
    rewrite fmap_None. intros He%Hlen. rewrite He.
    by destruct properties as [[? ?]|].
  - intros [[e ->]|(code & text & properties & -> & Hcode)]; simpl; [eauto|].
    rewrite decide_False by done. destruct (decide (code = 403%Z)); eauto.
Qed.

(** X25. When the response has neither a column Currency nor a column
    BillingCurrency, every row of the cost frame has the currency USD, so
    the processing block prices every such row at its amount times the
    USD rate of the sidebar. *)
Theorem missing_currency_column_means_USD (text : string)
    (cols : list string) (rs : list (list Cell)) (usd : Q) :
  "Currency" ∉ cols → "BillingCurrency" ∉ cols →
  ∀ row, row ∈ (fetch_costs
                  (CostStatus 200 text
                     (Some {| columns := Some cols; rows := Some rs |}))).1 →
    raw_OriginalCurrency row = CellStr "USD" ∧
    ∀ c, typed_cost_row row = Some c →
         OriginalCurrency c = "USD" ∧
         convert_to_sek usd c = ActualCost c * usd.
Proof.
  intros Hc Hb row. cbn [fetch_actual_costs].
  rewrite decide_True by done. cbn [default from_option id columns rows fst].
  intros Hrow.
  assert (Hcurr : raw_OriginalCurrency row = CellStr "USD").
  { destruct (parse_cost_rows_prefix (col_map cols) rs)
      as (n & _ & Hall & _).
    apply list_elem_of_lookup in Hrow as [i Hi].
    destruct (Forall2_lookup_r _ _ _ _ _ Hall Hi) as (r & _ & Hr).
    apply parse_cost_row_Returned in Hr as (_ & _ & Hcur).
    apply col_map_lookup_None in Hc, Hb. by rewrite Hc, Hb in Hcur. }
  split; [done|]. intros c. unfold typed_cost_row. rewrite Hcurr.
  destruct (cell_text (raw_ResourceId row)) as [x|]; [|done].
  destruct (cell_number (raw_ActualCost row)) as [v|]; [|done].
  simpl. intros [= <-]. split; [done|]. by apply convert_to_sek_USD.
Qed.

End billing_facts.

Lemma parsed_cost_row_fields_witness :
  raw_OriginalCurrency
    {| raw_Date := 20240115; raw_ResourceId := CellStr "/r";
       raw_ActualCost := CellFloat 12.5; raw_OriginalCurrency := CellStr "USD" |}
  = CellStr "USD".
Proof.
  apply (parsed_cost_row_fields (λ _, Returned 20240115%Z)
           (λ _, Raised "unreadable date") 0%Z
           ["Cost"; "ResourceId"; "UsageDate"]
           [CellFloat 12.5; CellStr "/r"; CellInt 20240115]).
  - reflexivity.
  - apply (bool_decide_unpack _). reflexivity.
  - apply (bool_decide_unpack _). reflexivity.
Defined.

Lemma cost_fetch_message_witness :
  (fetch_actual_costs (λ _, Returned 20240115%Z) (λ _, Raised "unreadable date")
     0%Z (CostStatus 403 "Forbidden" None)).1 = [] ∧
  is_Some (fetch_actual_costs (λ _, Returned 20240115%Z)
             (λ _, Raised "unreadable date") 0%Z
             (CostStatus 403 "Forbidden" None)).2.
Proof.
  apply (proj2 (proj2 (cost_fetch_message (λ _, Returned 20240115%Z)
                         (λ _, Raised "unreadable date") 0%Z
                         (CostStatus 403 "Forbidden" None)))).
  right. exists 403%Z, "Forbidden", None. split; [reflexivity | discriminate].
Defined.

Lemma missing_currency_column_means_USD_witness :
  Forall (λ row, raw_OriginalCurrency row = CellStr "USD")
    (fetch_actual_costs (λ _, Returned 20240115%Z)
       (λ _, Raised "unreadable date") 0%Z
       (CostStatus 200 "OK"
          (Some {| columns := Some ["Cost"; "ResourceId"];
                   rows := Some [[CellFloat 12.5; CellStr "/r"]] |}))).1.
Proof.
  apply Forall_forall. intros row Hrow.
  apply (missing_currency_column_means_USD (λ _, Returned 20240115%Z)
           (λ _, Raised "unreadable date") 0%Z "OK" ["Cost"; "ResourceId"]
           [[CellFloat 12.5; CellStr "/r"]] 10.8); [| |exact Hrow];
    apply (bool_decide_unpack _); reflexivity.
Defined.

(** ** The manual mode *)

(** X26. In the manual mode the one entry of the inventory has the
    resource group as its project and the type text: every usage row
    carries that project and is priced as text, 0.0004 kWh per 1000 units
    whatever its metric; a cost row of the entered resource is labelled
    with the resource group, and a cost row of any other resource id with
    "Unknown". *)
Theorem manual_mode_labels ml (sub_id rg_name res_name : string) :
  let inv := manual_inventory sub_id rg_name res_name in
  let x := "/subscriptions/" +:+ sub_id +:+ "/resourceGroups/" +:+ rg_name
           +:+ "/providers/Microsoft.CognitiveServices/accounts/"
           +:+ res_name in
  (∀ row, row ∈ (fetch_detailed_metrics ml inv).1 →
     ResourceId row = x ∧ Project row = rg_name ∧ Type_ row = "text" ∧
     calc_kwh row = Some (Value row / 1000 * 0.0004)) ∧
  project_name inv x = rg_name ∧
  (∀ y, y ≠ x → project_name inv y = "Unknown").
Proof.
  intros inv x. split_and!.
  - intros row (item & value & Hitem & _ & Hrow)%fetched_row_source.
    apply list_elem_of_singleton in Hitem as ->.
    apply elem_of_rows_of_metrics in Hrow
      as (mi & ts & data & t & _ & _ & _ & _ & _ & ->).
    split_and!; [done..|]. apply calc_kwh_standard. simpl. not_in_list.
  - unfold project_name, inv, manual_inventory, id_to_proj. simpl.
    by rewrite lookup_insert_eq.
  - intros y Hy. unfold project_name, inv, manual_inventory, id_to_proj. simpl.
    rewrite lookup_insert_ne by done. by rewrite lookup_empty.
Qed.

Lemma manual_mode_labels_witness :
  project_name (manual_inventory "s" "rg-a" "acct1") "/other" = "Unknown".
Proof.
  apply (proj2 (proj2 (manual_mode_labels (λ _ _, MetricsValue [])
                         "s" "rg-a" "acct1"))).
  discriminate.
Defined.

(** ** Discovery, fetch and summary together *)

(** X27. After a discovery and a metrics fetch, every usage row has
    positive energy and a usage type among image, reasoning, embedding
    and text, and every row of the project summary is labelled with the
    project of an account found, except the row "Unknown", which is there
    only when some cost row has a resource id of no account found. *)
Theorem discovered_summary_has_account_projects dr ml (found : list Acct)
    (df_cost : list CostRow) (g usd : Q) :
  (∀ a b, a ∈ found → b ∈ found → acct_id a = acct_id b →
          acct_project a = acct_project b) →
  let inv := (drill_down dr found).1 in
  let df_raw := (fetch_detailed_metrics ml inv).1 in
  df_raw ≠ [] →
  ∃ d, process inv df_raw df_cost g usd = Some (Rendered d) ∧
    (∀ r, r ∈ df_raw_out d →
       0 < kWh r ∧
       Type_ (usage r) ∈ ["image"; "reasoning"; "embedding"; "text"] ∧
       ∃ a, a ∈ found ∧ Project (usage r) = acct_project a ∧
            ResourceId (usage r) = acct_id a) ∧
    (∀ s, s ∈ df_project_summary d →
       (∃ a, a ∈ found ∧ s_ProjectName s = acct_project a) ∨
       (s_ProjectName s = "Unknown" ∧
        ∃ c, c ∈ df_cost ∧ Cost_ResourceId c ∉ acct_id <$> found)).
Proof.
  intros Hsame inv df_raw Hne.
  assert (Hrow : ∀ row, row ∈ df_raw →
            0 < Value row ∧
            Type_ row ∈ ["image"; "reasoning"; "embedding"; "text"] ∧
            ∃ a, a ∈ found ∧ Project row = acct_project a ∧
                 ResourceId row = acct_id a).
  { intros row (item & value & Hitem & _ & Hrow)%fetched_row_source.
    apply drill_down_entry_account in Hitem
      as [(a & Ha & Hid & _ & _ & Hp) Ht].
    apply elem_of_rows_of_metrics in Hrow
      as (mi & ts & data & t & _ & _ & _ & _ & Hpos & ->).
    split_and!; [done..|]. by exists a. }
  assert (Hfound : found ≠ []).
  { intros ->. apply Hne. done. }
  assert (Hinv : inv ≠ []).
  { intros Hnil. apply Hfound. by apply (drill_down_nil_iff dr). }
  exists (render inv (enriched g <$> df_raw) df_cost usd).
  split; [by apply process_nonempty|]. split.
  - intros r. unfold render; cbn [df_raw_out].
    intros (row & -> & Hr)%list_elem_of_fmap. simpl.
    destruct (Hrow row Hr) as (Hpos & Ht & Ha).
    split_and!; [by apply kwh_of_pos|done..].
  - intros s Hs.
    assert (Hlab : s_ProjectName s ∈ s_ProjectName
                     <$> df_project_summary
                           (render inv (enriched g <$> df_raw) df_cost usd))
      by by apply list_elem_of_fmap_2.
    apply project_summary_labels in Hlab as [Hc|Hu].
    + apply list_elem_of_fmap in Hc as (c & Hl & Hc). rewrite Hl.
      unfold cost_label, project_name. destruct inv as [|i0 l0] eqn:Hi; [done|].
      rewrite <- Hi.
      destruct (id_to_proj inv !! Cost_ResourceId c) as [p|] eqn:Hp; simpl.
      * left. apply id_to_proj_Some in Hp as (item & Hitem & Hid & <-).
        apply drill_down_entry_account in Hitem
          as [(a & Ha & _ & _ & _ & Hpa) _]. by exists a.
      * right. split; [done|]. exists c. split; [done|].
        intros (a & Hid & Ha)%list_elem_of_fmap.
        destruct (drill_down_account_entry dr found a Ha)
          as (item & Hitem & Hid' & _).
        rewrite id_to_proj_None in Hp. apply (Hp item Hitem). congruence.
    + left. apply list_elem_of_fmap in Hu as (row & -> & Hr).
      destruct (Hrow row Hr) as (_ & _ & a & Ha & Hp & _). by exists a.
Qed.

Lemma discovered_summary_has_account_projects_witness :
  ∃ d, process
         (drill_down (λ _ _, DeploymentsRaised "timeout")
            [account_of {| res_id := "/r"; res_name := "acct1";
                           res_kind := KindStr "OpenAI"; res_tags := None |}
               "rg-a"]).1
         (fetch_detailed_metrics
            (λ _ _, MetricsValue
                      [{| metric_name := "GeneratedTokens";
                          timeseries := [[{| time_stamp := 0;
                                             total := Some 7 |}]] |}])
            (drill_down (λ _ _, DeploymentsRaised "timeout")
               [account_of {| res_id := "/r"; res_name := "acct1";
                              res_kind := KindStr "OpenAI"; res_tags := None |}
                  "rg-a"]).1).1
         [] 475 10.8 = Some (Rendered d) ∧
    ∀ r, r ∈ df_raw_out d → 0 < kWh r.
Proof.
  destruct (discovered_summary_has_account_projects
              (λ _ _, DeploymentsRaised "timeout")
              (λ _ _, MetricsValue
                        [{| metric_name := "GeneratedTokens";
                            timeseries := [[{| time_stamp := 0;
                                               total := Some 7 |}]] |}])
              [account_of {| res_id := "/r"; res_name := "acct1";
                             res_kind := KindStr "OpenAI"; res_tags := None |}
                 "rg-a"]
              [] 475 10.8) as (d & Hd & Hr & _).
  - intros a b ->%list_elem_of_singleton ->%list_elem_of_singleton _.
    reflexivity.
  - vm_compute. discriminate.
  - exists d. split; [exact Hd|]. intros r Hin. by apply Hr.
Defined.

(** ** The demo data *)

Section demo_facts.
Context (random_ gauss_prompts gauss_gens : Z → DemoProject → Q)
  (uniform : Z → DemoProject → Q).

Abbreviation demo_data :=
  (generate_demo_data_detailed random_ gauss_prompts gauss_gens uniform).
Abbreviation demo_rows :=
  (demo_rows_at random_ gauss_prompts gauss_gens).

Lemma demo_label (p : DemoProject) :
  p ∈ demo_projects → project_name [] (demo_resource_id p) = demo_name p.
Proof.
  unfold demo_projects. rewrite !elem_of_cons, elem_of_nil.
  intros [->|[->|[->|[]]]]; reflexivity.
Qed.

Lemma elem_of_demo_usage dates row :
  row ∈ (demo_data dates).1 ↔
  ∃ date p, date ∈ dates ∧ p ∈ demo_projects ∧ row ∈ demo_rows date p.
Proof.
  unfold generate_demo_data_detailed. cbn [fst]. rewrite list_elem_of_bind.
  split.
  - intros (date & (p & Hrow & Hp)%list_elem_of_bind & Hdate).
    by exists date, p.
  - intros (date & p & Hdate & Hp & Hrow). exists date. split; [|done].
    apply list_elem_of_bind. by exists p.
Qed.

Lemma elem_of_demo_cost dates c :
  c ∈ (demo_data dates).2 ↔
  ∃ d p, d ∈ day_of <$> dates ∧ p ∈ demo_projects ∧
    c = {| Date := d; Cost_ResourceId := demo_resource_id p;
           ActualCost := uniform d p; OriginalCurrency := "SEK" |}.
Proof.
  unfold generate_demo_data_detailed. cbn [snd]. rewrite list_elem_of_bind.
  setoid_rewrite list_elem_of_bind.
  setoid_rewrite merge_sort_Permutation.
  setoid_rewrite elem_of_remove_dups.
  setoid_rewrite list_elem_of_singleton.
  naive_solver.
Qed.

Lemma demo_row_project date p row :
  row ∈ demo_rows date p →
  Project row = demo_name p ∧ ResourceId row = demo_resource_id p.
Proof.
  unfold demo_rows_at. intros Hrow.
  destruct (decide (demo_type p = "image")) as [Hi|Hi].
  - case_bool_decide as Hval; [|by apply elem_of_nil in Hrow].
    by apply list_elem_of_singleton in Hrow as ->.
  - case_bool_decide as Hp; [|by apply elem_of_nil in Hrow].
    apply elem_of_cons in Hrow as [->|Hrow]; [done|].
    by apply list_elem_of_singleton in Hrow as ->.
Qed.

(** X28. In the demo mode every cost row is in SEK and is priced at its
    amount, so the total cost is the plain sum of the amounts; the label
    the cost tab parses from the resource id of a cost row is the name of
    its demo project, the project its usage rows carry, and the project
    summary has rows for the three demo projects only. *)
Theorem demo_costs_are_SEK_per_project (dates : list Z) (g usd : Q) :
  (∀ c, c ∈ (demo_data dates).2 →
     OriginalCurrency c = "SEK" ∧ convert_to_sek usd c = ActualCost c ∧
     ∃ p, p ∈ demo_projects ∧ cost_label [] c = demo_name p ∧
          ActualCost c = uniform (Date c) p) ∧
  (∀ row, row ∈ (demo_data dates).1 →
     ∃ p, p ∈ demo_projects ∧ Project row = demo_name p ∧
          project_name [] (ResourceId row) = Project row) ∧
  ((demo_data dates).1 ≠ [] →
   ∃ d, process [] (demo_data dates).1 (demo_data dates).2 g usd
        = Some (Rendered d) ∧
     total_cost_sek d == sumQ (ActualCost <$> (demo_data dates).2) ∧
     ∀ s, s ∈ df_project_summary d →
          s_ProjectName s ∈ demo_name <$> demo_projects).
Proof.
  assert (Hcost : ∀ c, c ∈ (demo_data dates).2 →
            OriginalCurrency c = "SEK" ∧ convert_to_sek usd c = ActualCost c ∧
            ∃ p, p ∈ demo_projects ∧ cost_label [] c = demo_name p ∧
                 ActualCost c = uniform (Date c) p).
  { intros c (d & p & _ & Hp & ->)%elem_of_demo_cost. split_and!; [done..|].
    exists p. split_and!; [done| |done]. by apply demo_label. }
  assert (Hrow : ∀ row, row ∈ (demo_data dates).1 →
            ∃ p, p ∈ demo_projects ∧ Project row = demo_name p ∧
                 project_name [] (ResourceId row) = Project row).
  { intros row (date & p & _ & Hp & [Hproj Hid]%demo_row_project)
             %elem_of_demo_usage.
    exists p. split_and!; [done..|]. rewrite Hid, Hproj. by apply demo_label. }
  split_and!; [done..|]. intros Hne. eexists.
  split; [by apply process_nonempty|]. split.
  - unfold render; cbn [total_cost_sek].
    assert (Hsum : sumQ (CostSEK <$> (add_cost_columns [] usd
                                        <$> (demo_data dates).2))
                   == sumQ (ActualCost <$> (demo_data dates).2)).
    { rewrite <- list_fmap_compose. apply sumQ_fmap_ext.
      intros c Hc. simpl. by rewrite (proj1 (proj2 (Hcost c Hc))). }
    destruct ((demo_data dates).2); [reflexivity | exact Hsum].
  - intros s Hs.
    assert (Hlab : s_ProjectName s ∈ s_ProjectName
                     <$> df_project_summary
                           (render [] (enriched g <$> (demo_data dates).1)
                              (demo_data dates).2 usd))
      by by apply list_elem_of_fmap_2.
    apply project_summary_labels in Hlab as [Hc|Hu].
    + apply list_elem_of_fmap in Hc as (c & -> & Hc).
      destruct (Hcost c Hc) as (_ & _ & p & Hp & -> & _).
      by apply list_elem_of_fmap_2.
    + apply list_elem_of_fmap in Hu as (row & -> & Hr).
      destruct (Hrow row Hr) as (p & Hp & -> & _).
      by apply list_elem_of_fmap_2.
Qed.

(** X29. In the demo data an image row has a count of 1 or more and a
    timestamp in the hours 9 to 17, and a prompt row has a positive
    value; the generated-tokens row that comes with a prompt row is added
    whatever its value is, zero and negative values included. *)
Theorem demo_usage_values (dates : list Z) :
  (∀ row, row ∈ (demo_data dates).1 →
     Type_ row ∈ ["image"; "text"] ∧
     (Type_ row = "image" →
        Metric row = "GeneratedImages" ∧ 1 <= Value row ∧
        (9 ≤ hour_of (TimeStamp row) ≤ 17)%Z) ∧
     (Metric row = "ProcessedPromptTokens" → 0 < Value row)) ∧
  (∀ date p, date ∈ dates → p ∈ demo_projects → demo_type p ≠ "image" →
     let hour_mod :=
       if bool_decide (9 ≤ hour_of date ≤ 17)%Z then 10%Z else 1%Z in
     (0 < py_int (gauss_prompts date p * inject_Z hour_mod))%Z →
     demo_usage_row date p "text" "GeneratedTokens"
       (py_int (gauss_gens date p * inject_Z hour_mod))
     ∈ (demo_data dates).1).
Proof.
  split.
  - intros row (date & p & _ & _ & Hrow)%elem_of_demo_usage.
    unfold demo_rows_at in Hrow.
    destruct (decide (demo_type p = "image")) as [Hi|Hi].
    + case_bool_decide as Hval; [|by apply elem_of_nil in Hrow].
      apply list_elem_of_singleton in Hrow as ->. simpl.
      split_and!; [left| |done].
      intros _. destruct (decide (9 ≤ hour_of date ≤ 17)%Z) as [Hh|Hh].
      * rewrite (bool_decide_eq_true_2 (9 ≤ hour_of date ≤ 17)%Z) in Hval |- *
          by done.
        rewrite (bool_decide_eq_true_2 (1 < 10)%Z) in Hval |- * by done.
        split; [done|]. split; [|done]. rewrite <- (Zle_Qle 1). lia.
      * rewrite (bool_decide_eq_false_2 (9 ≤ hour_of date ≤ 17)%Z) in Hval
          by done.
        rewrite (bool_decide_eq_false_2 (1 < 1)%Z) in Hval by done. lia.
    + case_bool_decide as Hp; [|by apply elem_of_nil in Hrow].
      apply elem_of_cons in Hrow as [->|Hrow];
        [|apply list_elem_of_singleton in Hrow as ->]; simpl.
      * split_and!; [right; left|done|]. intros _.
        rewrite <- (Zlt_Qlt 0). done.
      * split_and!; [right; left|done|done].
  - intros date p Hdate Hp Hi hour_mod Hpos.
    apply elem_of_demo_usage. exists date, p. split_and!; [done..|].
    unfold demo_rows_at. rewrite decide_False by done. fold hour_mod.
    rewrite bool_decide_eq_true_2 by done. right. left.
Qed.

End demo_facts.

Lemma demo_costs_are_SEK_per_project_witness :
  ∃ d, process []
         (generate_demo_data_detailed (λ _ _, 0.5) (λ _ _, 480) (λ _ _, 210)
            (λ _ _, 100) [10%Z]).1
         (generate_demo_data_detailed (λ _ _, 0.5) (λ _ _, 480) (λ _ _, 210)
            (λ _ _, 100) [10%Z]).2 475 10.8 = Some (Rendered d) ∧
    total_cost_sek d
    == sumQ (ActualCost
               <$> (generate_demo_data_detailed (λ _ _, 0.5) (λ _ _, 480)
                      (λ _ _, 210) (λ _ _, 100) [10%Z]).2).
Proof.
  destruct (proj2 (proj2 (demo_costs_are_SEK_per_project
                            (λ _ _, 0.5) (λ _ _, 480) (λ _ _, 210)
                            (λ _ _, 100) [10%Z] 475 10.8)))
    as (d & Hd & Ht & _); [vm_compute; discriminate|].
  by exists d.
Defined.

Lemma demo_usage_values_witness :
  demo_usage_row 3 {| demo_name := "113527-volvogpt"; demo_model := "gpt-4";
                      demo_type := "text"; demo_res_name := "ai-res-02" |}
    "text" "GeneratedTokens" (py_int (-20 * inject_Z 1))
  ∈ (generate_demo_data_detailed (λ _ _, 0.5) (λ _ _, 480) (λ _ _, -20)
       (λ _ _, 100) [3%Z]).1.
Proof.
  apply (proj2 (demo_usage_values (λ _ _, 0.5) (λ _ _, 480) (λ _ _, -20)
                  (λ _ _, 100) [3%Z]) 3%Z
           {| demo_name := "113527-volvogpt"; demo_model := "gpt-4";
              demo_type := "text"; demo_res_name := "ai-res-02" |}).
  - left.
  - right. left.
  - discriminate.
  - reflexivity.
Defined.
